(** * icoscp.cpb.dobj : a shallow embedding of the [Dobj] class

    The class [Dobj] (src/icoscp/cpb/dobj.py) resolves the column schema of
    a data object from metadata, builds a flat [struct] unpack plan, obtains
    the binary payload from a local file or from the data portal, and
    decodes it into a column-oriented table.

    The embedding follows the Python text method by method.  The object is a
    record, a method is a function in a state-and-exception monad over that
    record and a log of the requests it issued, and every external
    collaborator (sparql endpoint, file system, data portal, usage log) is a
    field of an environment record. *)

From Stdlib Require Import List Bool Arith ZArith Lia Ascii String.
From Stdlib Require Strings.Byte.
Import ListNotations.
Local Open Scope string_scope.
Local Open Scope list_scope.
Local Open Scope nat_scope.

(** ** Python strings *)

Module PyStr.

Definition dquote : ascii := ascii_of_nat 34.
Definition slash : ascii := ascii_of_nat 47.
Definition comma : ascii := ascii_of_nat 44.

(** [str.upper], on the ASCII letters. *)
Definition upper_ascii (c : ascii) : ascii :=
  let n := nat_of_ascii c in
  if (97 <=? n) && (n <=? 122) then ascii_of_nat (n - 32) else c.

Fixpoint upper (s : string) : string :=
  match s with
  | EmptyString => EmptyString
  | String c r => String (upper_ascii c) (upper r)
  end.

(** [s.replace(c, '')] for a one-character [c]. *)
Fixpoint remove_char (x : ascii) (s : string) : string :=
  match s with
  | EmptyString => EmptyString
  | String c r =>
      if Ascii.eqb c x then remove_char x r else String c (remove_char x r)
  end.

(** [s.split(sep)] for a one-character separator; the result is never
    empty: the empty string splits into one empty field. *)
Fixpoint split (sep : ascii) (s : string) : list string :=
  match s with
  | EmptyString => [EmptyString]
  | String c r =>
      if Ascii.eqb c sep then EmptyString :: split sep r
      else match split sep r with
           | [] => [String c EmptyString]
           | f :: fs => String c f :: fs
           end
  end.

(** [s.split(sep)[-1]] *)
Definition last_field (sep : ascii) (s : string) : string :=
  last (split sep s) EmptyString.

(** The characters [str.strip()] removes, within ASCII. *)
Definition is_space (c : ascii) : bool :=
  let n := nat_of_ascii c in
  ((9 <=? n) && (n <=? 13)) || ((28 <=? n) && (n <=? 32)).

Fixpoint lstrip (s : string) : string :=
  match s with
  | EmptyString => EmptyString
  | String c r => if is_space c then lstrip r else s
  end.

Fixpoint rstrip (s : string) : string :=
  match s with
  | EmptyString => EmptyString
  | String c r =>
      match rstrip r with
      | EmptyString => if is_space c then EmptyString else String c EmptyString
      | r' => String c r'
      end
  end.

Definition strip (s : string) : string := rstrip (lstrip s).

(** [s[1:len(s)-1]] *)
Definition inner (s : string) : string :=
  substring 1 (String.length s - 2) s.

Definition mem (s : string) (l : list string) : bool :=
  existsb (String.eqb s) l.

(** [l.index(s)] when [s] is in [l]. *)
Fixpoint index (s : string) (l : list string) : option nat :=
  match l with
  | [] => None
  | x :: r => if String.eqb x s then Some 0
              else option_map S (index s r)
  end.

End PyStr.

Example split_ex :
  PyStr.split PyStr.comma "b, a,c" = ["b"; " a"; "c"].
Proof. reflexivity. Qed.

Example strip_ex : PyStr.strip "  a b  " = "a b".
Proof. reflexivity. Qed.

Example inner_ex : PyStr.inner "[b, a]" = "b, a".
Proof. reflexivity. Qed.

Example last_field_ex :
  PyStr.last_field PyStr.slash "https://meta.icos-cp.eu/objects/M6XC" = "M6XC".
Proof. reflexivity. Qed.

(** ** Decode kinds and the [struct] unpack plan *)

(** Modelled from the spec: the Type Mapping Table (module
    [icoscp.cpb.dtype_dict], with [mapDataTypesCP], [structTypes] and
    [structEndian]) is not among the sources.  The spec names the decode
    kinds INT32, INT64, FLOAT32, FLOAT64 and CHAR16, each of a fixed width;
    the source tests a column's kind against ['CHAR'], which is CHAR16. *)
Inductive DecodeKind : Type := INT32 | INT64 | FLOAT32 | FLOAT64 | CHAR16.

Definition DecodeKind_eqb (a b : DecodeKind) : bool :=
  match a, b with
  | INT32, INT32 | INT64, INT64 | FLOAT32, FLOAT32
  | FLOAT64, FLOAT64 | CHAR16, CHAR16 => true
  | _, _ => false
  end.

(** Modelled from the spec: the wire width in bytes of one scalar. *)
Definition width (k : DecodeKind) : nat :=
  match k with
  | INT32 => 4 | INT64 => 8 | FLOAT32 => 4 | FLOAT64 => 8 | CHAR16 => 2
  end.

Inductive Endian : Type := Big | Little.

(** Modelled from the spec: [structTypes kind count] is the repeat-count
    token of one column, and [structEndian] the marker shared by the plan. *)
Definition structTypes (k : DecodeKind) (count : nat) : DecodeKind * nat :=
  (k, count).

Definition structEndian (e : Endian) : Endian := e.

(** [self._dtypeStruct]: the marker followed by the joined tokens. *)
Record Plan : Type := mkPlan
  { plan_endian : Endian;
    plan_items : list (DecodeKind * nat) }.

(** [struct.calcsize]: standard sizes, no alignment (a marker is present). *)
Fixpoint items_size (items : list (DecodeKind * nat)) : nat :=
  match items with
  | [] => 0
  | (k, n) :: r => n * width k + items_size r
  end.

Definition calcsize (p : Plan) : nat := items_size (plan_items p).

(** The conversions pandas applies to the time columns are kept symbolic. *)
Inductive Conv : Type := ToDatetimeMs | ToDatetimeD | ToTimeOfDay.

(** Values held in the table.  A float is carried as its bit pattern. *)
Inductive Scalar : Type :=
| SInt (z : Z)
| SFloat (bits : nat) (pattern : Z)
| SChr (code : Z)
| SConv (c : Conv) (v : Scalar).

Definition bytes := list Byte.byte.

Fixpoint be_unsigned (acc : Z) (bs : bytes) : Z :=
  match bs with
  | [] => acc
  | b :: r => be_unsigned (acc * 256 + Z.of_N (Byte.to_N b))%Z r
  end.

Definition unsigned_of (e : Endian) (bs : bytes) : Z :=
  match e with
  | Big => be_unsigned 0%Z bs
  | Little => be_unsigned 0%Z (rev bs)
  end.

(** Two's complement reading of a [w]-bit pattern. *)
Definition signed_of (w : Z) (u : Z) : Z :=
  if (u <? 2 ^ (w - 1))%Z then u else (u - 2 ^ w)%Z.

Definition decode_scalar (e : Endian) (k : DecodeKind) (bs : bytes) : Scalar :=
  let u := unsigned_of e bs in
  match k with
  | INT32 => SInt (signed_of 32 u)
  | INT64 => SInt (signed_of 64 u)
  | FLOAT32 => SFloat 32 u
  | FLOAT64 => SFloat 64 u
  | CHAR16 => SInt u
  end.

Fixpoint unpack_run (e : Endian) (k : DecodeKind) (n : nat) (raw : bytes)
  : list Scalar :=
  match n with
  | 0 => []
  | S m => decode_scalar e k (firstn (width k) raw)
           :: unpack_run e k m (skipn (width k) raw)
  end.

Fixpoint unpack_items (e : Endian) (items : list (DecodeKind * nat))
  (raw : bytes) : list Scalar :=
  match items with
  | [] => []
  | (k, n) :: r =>
      unpack_run e k n raw ++ unpack_items e r (skipn (n * width k) raw)
  end.

(** ** Exceptions and outcomes *)

Inductive exn : Type :=
| KeyError | IndexError | TypeError | AttributeError
| UnboundLocalError | StructError | ConnectionError
| PyException (msg : string).

Inductive outcome (A : Type) : Type :=
| Ok (a : A)
| Raise (e : exn).
Arguments Ok {A} a.
Arguments Raise {A} e.

(** [struct.unpack_from(fmt, buffer)]: the buffer must hold at least
    [calcsize fmt] bytes; the values are read from its start. *)
Definition unpack_from (p : Plan) (raw : bytes) : outcome (list Scalar) :=
  if List.length raw <? calcsize p then Raise StructError
  else Ok (unpack_items (plan_endian p) (plan_items p) raw).

(** [chr(i)] *)
Definition py_chr (v : Scalar) : option Scalar :=
  match v with
  | SInt z => if ((0 <=? z) && (z <? 1114112))%Z then Some (SChr z) else None
  | _ => None
  end.

Fixpoint map_opt {A B} (f : A -> option B) (l : list A) : option (list B) :=
  match l with
  | [] => Some []
  | x :: r =>
      match f x, map_opt f r with
      | Some y, Some ys => Some (y :: ys)
      | _, _ => None
      end
  end.

(** ** The pandas table *)

(** A DataFrame built column by column: the columns in order, each a name
    and its values.  Names are unique: assigning to an existing name
    replaces that column in place. *)
Definition Table : Type := list (string * list Scalar).

Definition columns (t : Table) : list string := map fst t.

(** [df.empty]: no column, or no row. *)
Definition table_empty (t : Table) : bool :=
  match t with
  | [] => true
  | (_, v) :: _ => List.length v =? 0
  end.

Fixpoint get_column (name : string) (t : Table) : option (list Scalar) :=
  match t with
  | [] => None
  | (n, v) :: r => if String.eqb n name then Some v else get_column name r
  end.

Fixpoint replace_column (name : string) (v : list Scalar) (t : Table) : Table :=
  match t with
  | [] => []
  | (n, w) :: r =>
      if String.eqb n name then (n, v) :: r
      else (n, w) :: replace_column name v r
  end.

(** [df[name] = lst]; a list whose length differs from the frame's index
    raises (ValueError), which is [None] here. *)
Definition set_column (name : string) (v : list Scalar) (t : Table)
  : option Table :=
  match t with
  | [] => Some [(name, v)]
  | (_, w) :: _ =>
      if List.length v =? List.length w then
        if PyStr.mem name (columns t) then Some (replace_column name v t)
        else Some (t ++ [(name, v)])
      else None
  end.

(** [df[names]] for a list of names: the named columns in the order of the
    list, KeyError when a name is not a column. *)
Fixpoint getitem_list (names : list string) (t : Table) : option Table :=
  match names with
  | [] => Some []
  | n :: r =>
      match get_column n t, getitem_list r t with
      | Some v, Some t' => Some ((n, v) :: t')
      | _, _ => None
      end
  end.

(** [df[name] = f(df[name])] guarded by [name in df.columns]. *)
Definition convert_column (name : string) (c : Conv) (t : Table) : Table :=
  match get_column name t with
  | Some v => replace_column name (map (SConv c) v) t
  | None => t
  end.

(** [data[lo:hi]] on a tuple. *)
Definition slice {A} (lo hi : nat) (l : list A) : list A :=
  firstn (hi - lo) (skipn lo l).

(** ** Metadata, requests and the environment *)

(** A row of the [cpbGetInfo] result as the endpoint returns it;
    [columnNames] is null or a bracketed, quoted, comma-separated string. *)
Record Info1Raw : Type := mkInfo1Raw
  { raw_dobj : string;
    raw_objSpec : string;
    raw_nRows : nat;
    raw_columnNames : option string }.

(** The cell [columnNames] as the object holds it: null, the string of the
    endpoint, or the clean list [__getPayload] writes back into row 0. *)
Inductive ColumnNames : Type :=
| CNull
| CRaw (s : string)
| CList (l : list string).

Record Info1Row : Type := mkInfo1
  { i1_dobj : string;
    objSpec : string;
    nRows : nat;
    columnNames : ColumnNames }.

Definition info1_of_raw (r : Info1Raw) : Info1Row :=
  {| i1_dobj := raw_dobj r;
     objSpec := raw_objSpec r;
     nRows := raw_nRows r;
     columnNames := match raw_columnNames r with
                    | None => CNull
                    | Some s => CRaw s
                    end |}.

(** A row of the [cpbGetSchemaDetail] result: one declared column. *)
Record Info2Row : Type := mkInfo2
  { colName : string;
    valFormat : string;
    isRegex : option string;
    objFormat : string }.

(** The frame [self._info2]: rows carrying their index labels. *)
Definition Frame : Type := list (nat * Info2Row).

Record Info3Row : Type := mkInfo3
  { stationName : string;
    latitude : string;
    longitude : string;
    elevation : string }.

(** The four queries of [icoscp.sparql.sparqls] the class sends. *)
Inductive Query : Type :=
| cpbGetInfo (dobj : string)
| cpbGetSchemaDetail (spec : string)
| dobjStation (dobj : string)
| get_icos_citation (dobj : string).

(** [self._json], the body of the request to the data portal. *)
Record Json : Type := mkJson
  { tableId : string;
    schema_columns : list DecodeKind;
    schema_size : nat;
    columnNumbers : list nat;
    subFolder : string }.

(** The body of the usage request of [__portalUse]; [internal] is
    [str(self._islocal)]. *)
Record Counter : Type := mkCounter
  { objId : string;
    counter_columns : list string;
    internal : option bool }.

(** What [requests.post] does: it returns a response, or it raises. *)
Inductive HttpResult : Type :=
| Response (status : nat) (content : bytes)
| Unreachable.

(** Everything the object sends, in order. *)
Inductive Event : Type :=
| EvSparql (q : Query)
| EvRead (path : string)
| EvTabular (j : option Json)
| EvPortalUse (c : Counter).

Record Env : Type := mkEnv
  { sparql_info : string -> list Info1Raw;
    sparql_schema : string -> list Info2Row;
    sparql_station : string -> list Info3Row;
    sparql_citation : string -> list (option string);
    local_store : string -> option bytes;
    tabular : option Json -> HttpResult;
    portaluse : Counter -> HttpResult }.

(** ** The object *)

Record Dobj : Type := mkDobj
  { _colSelected : option (list nat);
    _endian : Endian;
    _dtconvert : bool;
    _info1 : option (list Info1Row);
    _info2 : option Frame;
    _info3 : option (list Info3Row);
    _colSchema : option (list DecodeKind);
    _dtypeStruct : option Plan;
    _json : option Json;
    _islocal : option bool;
    _dobjSet : bool;
    _dobjValid : bool;
    citation : option string;
    _dobj : option string;
    _data : Table;
    _datapersistent : bool }.

Definition _server : string := "https://data.icos-cp.eu/portal/tabular".
Definition _localpath : string := "/data/dataAppStorage/".

(** The attributes [__init__] sets before it assigns the identifier;
    [_dobj] does not exist until a non-empty identifier is assigned. *)
Definition init_attrs : Dobj :=
  {| _colSelected := None; _endian := Big; _dtconvert := true;
     _info1 := None; _info2 := None; _info3 := None;
     _colSchema := None; _dtypeStruct := None; _json := None;
     _islocal := None; _dobjSet := false; _dobjValid := false;
     citation := None; _dobj := None; _data := [];
     _datapersistent := true |}.

Definition set_colSelected v (o : Dobj) : Dobj :=
  mkDobj v (_endian o) (_dtconvert o) (_info1 o) (_info2 o) (_info3 o)
    (_colSchema o) (_dtypeStruct o) (_json o) (_islocal o) (_dobjSet o)
    (_dobjValid o) (citation o) (_dobj o) (_data o) (_datapersistent o).
Definition set_info1 v (o : Dobj) : Dobj :=
  mkDobj (_colSelected o) (_endian o) (_dtconvert o) v (_info2 o) (_info3 o)
    (_colSchema o) (_dtypeStruct o) (_json o) (_islocal o) (_dobjSet o)
    (_dobjValid o) (citation o) (_dobj o) (_data o) (_datapersistent o).
Definition set_info2 v (o : Dobj) : Dobj :=
  mkDobj (_colSelected o) (_endian o) (_dtconvert o) (_info1 o) v (_info3 o)
    (_colSchema o) (_dtypeStruct o) (_json o) (_islocal o) (_dobjSet o)
    (_dobjValid o) (citation o) (_dobj o) (_data o) (_datapersistent o).
Definition set_info3 v (o : Dobj) : Dobj :=
  mkDobj (_colSelected o) (_endian o) (_dtconvert o) (_info1 o) (_info2 o) v
    (_colSchema o) (_dtypeStruct o) (_json o) (_islocal o) (_dobjSet o)
    (_dobjValid o) (citation o) (_dobj o) (_data o) (_datapersistent o).
Definition set_colSchema v (o : Dobj) : Dobj :=
  mkDobj (_colSelected o) (_endian o) (_dtconvert o) (_info1 o) (_info2 o)
    (_info3 o) v (_dtypeStruct o) (_json o) (_islocal o) (_dobjSet o)
    (_dobjValid o) (citation o) (_dobj o) (_data o) (_datapersistent o).
Definition set_dtypeStruct v (o : Dobj) : Dobj :=
  mkDobj (_colSelected o) (_endian o) (_dtconvert o) (_info1 o) (_info2 o)
    (_info3 o) (_colSchema o) v (_json o) (_islocal o) (_dobjSet o)
    (_dobjValid o) (citation o) (_dobj o) (_data o) (_datapersistent o).
Definition set_json v (o : Dobj) : Dobj :=
  mkDobj (_colSelected o) (_endian o) (_dtconvert o) (_info1 o) (_info2 o)
    (_info3 o) (_colSchema o) (_dtypeStruct o) v (_islocal o) (_dobjSet o)
    (_dobjValid o) (citation o) (_dobj o) (_data o) (_datapersistent o).
Definition set_islocal v (o : Dobj) : Dobj :=
  mkDobj (_colSelected o) (_endian o) (_dtconvert o) (_info1 o) (_info2 o)
    (_info3 o) (_colSchema o) (_dtypeStruct o) (_json o) v (_dobjSet o)
    (_dobjValid o) (citation o) (_dobj o) (_data o) (_datapersistent o).
Definition set_dobjSet v (o : Dobj) : Dobj :=
  mkDobj (_colSelected o) (_endian o) (_dtconvert o) (_info1 o) (_info2 o)
    (_info3 o) (_colSchema o) (_dtypeStruct o) (_json o) (_islocal o) v
    (_dobjValid o) (citation o) (_dobj o) (_data o) (_datapersistent o).
Definition set_dobjValid v (o : Dobj) : Dobj :=
  mkDobj (_colSelected o) (_endian o) (_dtconvert o) (_info1 o) (_info2 o)
    (_info3 o) (_colSchema o) (_dtypeStruct o) (_json o) (_islocal o)
    (_dobjSet o) v (citation o) (_dobj o) (_data o) (_datapersistent o).
Definition set_citation v (o : Dobj) : Dobj :=
  mkDobj (_colSelected o) (_endian o) (_dtconvert o) (_info1 o) (_info2 o)
    (_info3 o) (_colSchema o) (_dtypeStruct o) (_json o) (_islocal o)
    (_dobjSet o) (_dobjValid o) v (_dobj o) (_data o) (_datapersistent o).
Definition set_dobj_attr v (o : Dobj) : Dobj :=
  mkDobj (_colSelected o) (_endian o) (_dtconvert o) (_info1 o) (_info2 o)
    (_info3 o) (_colSchema o) (_dtypeStruct o) (_json o) (_islocal o)
    (_dobjSet o) (_dobjValid o) (citation o) v (_data o) (_datapersistent o).
Definition set_data v (o : Dobj) : Dobj :=
  mkDobj (_colSelected o) (_endian o) (_dtconvert o) (_info1 o) (_info2 o)
    (_info3 o) (_colSchema o) (_dtypeStruct o) (_json o) (_islocal o)
    (_dobjSet o) (_dobjValid o) (citation o) (_dobj o) v (_datapersistent o).

(** ** The monad of the methods *)

(** A method runs on the object and the log of requests sent so far; it
    returns or raises, and leaves both as they are at that point. *)
Definition M (A : Type) : Type :=
  Dobj -> list Event -> outcome A * Dobj * list Event.

Definition ret {A} (a : A) : M A := fun o tr => (Ok a, o, tr).
Definition raise {A} (e : exn) : M A := fun o tr => (Raise e, o, tr).
Definition bind {A B} (m : M A) (f : A -> M B) : M B :=
  fun o tr =>
    match m o tr with
    | (Ok a, o', tr') => f a o' tr'
    | (Raise e, o', tr') => (Raise e, o', tr')
    end.
Definition self : M Dobj := fun o tr => (Ok o, o, tr).
Definition assign (f : Dobj -> Dobj) : M unit := fun o tr => (Ok tt, f o, tr).
Definition send (ev : Event) : M unit := fun o tr => (Ok tt, o, tr ++ [ev]).

(** An attribute that is [None] where the code subscripts or iterates it. *)
Definition not_none {A} (e : exn) (x : option A) : M A :=
  match x with
  | Some a => ret a
  | None => raise e
  end.

Notation "x <- m ;; k" := (bind m (fun x => k))
  (at level 61, m at next level, right associativity).
Notation "m ;;; k" := (bind m (fun _ => k))
  (at level 61, right associativity).

(** ** Schema resolution: the frame operations of [__getPayload] *)

(** Lines 219-225: the bracketed, quoted, comma-separated string becomes a
    clean list of names. *)
Definition clean_columnNames (s : string) : list string :=
  map PyStr.strip
    (PyStr.split PyStr.comma (PyStr.remove_char PyStr.dquote (PyStr.inner s))).

(** A frame as the endpoint returns it, and [ignore_index=True]: the
    labels are the positions. *)
Definition reindex (rows : list Info2Row) : Frame :=
  combine (seq 0 (List.length rows)) rows.

Definition frame_rows (f : Frame) : list Info2Row := map snd f.
Definition frame_names (f : Frame) : list string := map colName (frame_rows f).

(** [self._info2.isRegex.count()]: the cells that are not null. *)
Definition isRegex_count (f : Frame) : nat :=
  List.length (filter (fun x => match isRegex (snd x) with
                                | Some _ => true
                                | None => false
                                end) f).

(** [isRegex == 'true'] *)
Definition isRegex_true (r : Info2Row) : bool :=
  match isRegex r with
  | Some s => String.eqb s "true"
  | None => false
  end.

(** [pd.concat([self._info2, row], ignore_index=True)] *)
Definition concat_row (f : Frame) (r : Info2Row) : Frame :=
  reindex (frame_rows f ++ [r]).

(** The row of line 239-241: a copy of the pattern row that takes the
    matched name and a null [isRegex]. *)
Definition matched_row (r : Info2Row) (c : string) : Info2Row :=
  {| colName := c; valFormat := valFormat r;
     isRegex := None; objFormat := objFormat r |}.

(** [df.drop(i)]: the row labelled [i] goes, KeyError without one. *)
Definition has_label (i : nat) (f : Frame) : bool :=
  existsb (fun x => fst x =? i) f.

Definition drop_label (i : nat) (f : Frame) : Frame :=
  filter (fun x => negb (fst x =? i)) f.

(** The loop of lines 249-251.  It walks the names the frame had when the
    loop began, counting positions, and drops by label. *)
Fixpoint drop_loop (colList : list string) (names : list string) (i : nat)
  (f : Frame) : outcome unit * Frame :=
  match names with
  | [] => (Ok tt, f)
  | c :: rest =>
      if PyStr.mem c colList then drop_loop colList rest (S i) f
      else if has_label i f then drop_loop colList rest (S i) (drop_label i f)
           else (Raise KeyError, f)
  end.

(** [sort_values(by='colName')]: rows in ascending order of the name,
    labels moving with their rows.  Rows of equal name keep their order
    here; pandas does not promise an order among them. *)
Fixpoint insert_by_name (x : nat * Info2Row) (f : Frame) : Frame :=
  match f with
  | [] => [x]
  | y :: r =>
      if String.ltb (colName (snd x)) (colName (snd y)) then x :: f
      else y :: insert_by_name x r
  end.

Definition sort_by_name (f : Frame) : Frame :=
  fold_left (fun acc x => insert_by_name x acc) f [].

(** [not x] for [None] and for a list. *)
Definition falsy {A} (x : option (list A)) : bool :=
  match x with
  | None | Some [] => true
  | Some _ => false
  end.

(** The identifier handed to the setter: [None] or a string. *)
Inductive Ident : Type :=
| IdNone
| IdStr (s : string).

Definition ident_truthy (d : Ident) : bool :=
  match d with
  | IdNone => false
  | IdStr EmptyString => false
  | IdStr _ => true
  end.

(** An entry of the list given to [getColumns]. *)
Inductive Selector : Type :=
| SelName (s : string)
| SelIdx (z : Z)
| SelOther.

(** What [getColumns] returns: the table, or [False]. *)
Inductive Result : Type :=
| RTable (t : Table)
| RFalse.

Example clean_ex :
  clean_columnNames "[b, a ,c]" = ["b"; "a"; "c"].
Proof. reflexivity. Qed.

(** ** The methods of [Dobj] *)

Section Methods.

(** [re.match(pattern, name)] as a truth value. *)
Variable re_match : string -> string -> bool.

(** [dtype_dict.mapDataTypesCP]; [None] where it raises, the spec's
    UnknownType.  The table itself is not among the sources. *)
Variable mapDataTypesCP : string -> option DecodeKind.

Variable env : Env.

(** Lines 237-242: one pattern row against every realized name. *)
Definition expand_one (colList : list string) (f : Frame) (r : Info2Row)
  : Frame :=
  fold_left
    (fun acc c =>
       if re_match (colName r) c then concat_row acc (matched_row r c)
       else acc)
    colList f.

(** Lines 233-245: every pattern row in turn, then the pattern rows go. *)
Definition expand_regex (colList : list string) (f : Frame) : Frame :=
  let regexrow := filter isRegex_true (frame_rows f) in
  filter (fun x => negb (isRegex_true (snd x)))
    (fold_left (expand_one colList) regexrow f).

(** Lines 216-251, for a non-null [columnNames] cell. *)
Definition resolve_columnNames (raw0 : Info1Raw) (rest : list Info1Raw)
  : M unit :=
  match raw_columnNames raw0 with
  | None => ret tt
  | Some s =>
      let colList := clean_columnNames s in
      assign (set_info1
                (Some ({| i1_dobj := raw_dobj raw0;
                          objSpec := raw_objSpec raw0;
                          nRows := raw_nRows raw0;
                          columnNames := CList colList |}
                       :: map info1_of_raw rest))) ;;;
      o <- self ;;
      f <- not_none TypeError (_info2 o) ;;
      (if isRegex_count f =? 0 then ret tt
       else assign (set_info2 (Some (expand_regex colList f)))) ;;;
      o <- self ;;
      f <- not_none TypeError (_info2 o) ;;
      let '(r, f') := drop_loop colList (frame_names f) 0 f in
      assign (set_info2 (Some f')) ;;;
      match r with
      | Ok _ => ret tt
      | Raise e => raise e
      end
  end.

(** Lines 264-269. *)
Fixpoint colSchema_loop (fmts : list string) (acc : list DecodeKind)
  : outcome unit * list DecodeKind :=
  match fmts with
  | [] => (Ok tt, acc)
  | f :: r =>
      match mapDataTypesCP f with
      | Some k => colSchema_loop r (acc ++ [k])
      | None => (Raise (PyException "dtype_dict"), acc)
      end
  end.

(** Lines 271-273; [None] is the IndexError of [self._colSchema[d]]. *)
Definition dtypeStruct_loop (sel : list nat) (schema : list DecodeKind)
  (rows : nat) : option (list (DecodeKind * nat)) :=
  map_opt (fun d => option_map (fun k => structTypes k rows)
                      (nth_error schema d)) sel.

Definition citation_text (c : option string) : string :=
  match c with
  | None | Some EmptyString => "no citation available ..."
  | Some s => s
  end.

Definition __getPayload : M unit :=
  o <- self ;;
  if negb (_dobjSet o) then ret tt else
  d <- not_none AttributeError (_dobj o) ;;
  send (EvSparql (cpbGetInfo d)) ;;;
  let raws := sparql_info env d in
  assign (set_info1 (Some (map info1_of_raw raws))) ;;;
  match raws with
  | [] => assign (set_dobjValid false)
  | raw0 :: rest =>
      send (EvSparql (cpbGetSchemaDetail (raw_objSpec raw0))) ;;;
      assign (set_info2
                (Some (reindex (sparql_schema env (raw_objSpec raw0))))) ;;;
      resolve_columnNames raw0 rest ;;;
      assign (fun o => set_info2 (option_map sort_by_name (_info2 o)) o) ;;;
      o <- self ;;
      f <- not_none TypeError (_info2 o) ;;
      (if falsy (_colSelected o)
       then assign (set_colSelected (Some (seq 0 (List.length f))))
       else ret tt) ;;;
      let '(r, schema) := colSchema_loop (map valFormat (frame_rows f)) [] in
      assign (set_colSchema (Some schema)) ;;;
      match r with
      | Raise e => raise e
      | Ok _ =>
          o <- self ;;
          sel <- not_none TypeError (_colSelected o) ;;
          items <- not_none IndexError
                     (dtypeStruct_loop sel schema (raw_nRows raw0)) ;;
          assign (set_dtypeStruct
                    (Some (mkPlan (structEndian (_endian o)) items))) ;;;
          first <- not_none IndexError (head (frame_rows f)) ;;
          assign (set_json
                    (Some {| tableId :=
                               PyStr.last_field PyStr.slash (raw_dobj raw0);
                             schema_columns := schema;
                             schema_size := raw_nRows raw0;
                             columnNumbers := sel;
                             subFolder :=
                               PyStr.last_field PyStr.slash
                                 (objFormat first) |})) ;;;
          send (EvSparql (get_icos_citation d)) ;;;
          match sparql_citation env d with
          | [] => raise KeyError
          | c :: _ =>
              assign (set_citation (Some (citation_text c))) ;;;
              assign (set_dobjValid true)
          end
      end
  end.

(** The setter of the property [dobj] (lines 74-82). *)
Definition dobj_setter (digitalObject : Ident) : M unit :=
  if negb (ident_truthy digitalObject) then assign (set_dobjSet false)
  else
    match digitalObject with
    | IdStr s =>
        assign (set_dobj_attr (Some s)) ;;;
        assign (set_dobjSet true) ;;;
        __getPayload
    | IdNone => ret tt
    end.

(** [self.colNames.tolist()]: the property is [None] on an object that
    is not valid. *)
Definition colNames_tolist : M (list string) :=
  o <- self ;;
  if _dobjValid o then
    f <- not_none TypeError (_info2 o) ;;
    ret (frame_names f)
  else raise AttributeError.

(** One entry of the list against the upper-cased names (lines 442-446):
    the index it stands for, if it stands for one. *)
Definition resolve_selector (colNames : list string) (c : Selector)
  : option nat :=
  match c with
  | SelName s =>
      if PyStr.mem (PyStr.upper s) colNames
      then PyStr.index (PyStr.upper s) colNames
      else None
  | SelIdx z =>
      if ((0 <=? z) && (z <? Z.of_nat (List.length colNames)))%Z
      then Some (Z.to_nat z)
      else None
  | SelOther => None
  end.

(** The loop of lines 440-448.  [idx] is the local variable of that name:
    unbound ([None]) until an entry resolves, and kept from the previous
    round when the current entry does not resolve. *)
Fixpoint select_loop (colNames : list string) (cols : list Selector)
  (idx : option nat) (colSelected : list nat) : outcome (list nat) :=
  match cols with
  | [] => Ok colSelected
  | c :: r =>
      let idx' := match resolve_selector colNames c with
                  | Some i => Some i
                  | None => idx
                  end in
      match idx' with
      | None => Raise UnboundLocalError
      | Some i =>
          select_loop colNames r idx'
            (if existsb (Nat.eqb i) colSelected then colSelected
             else colSelected ++ [i])
      end
  end.

Definition __setColumns (cols : option (list Selector)) : M bool :=
  o <- self ;;
  if negb (_dobjValid o) then ret false else
  match cols with
  | None => assign (set_colSelected None) ;;; ret true
  | Some l =>
      names <- colNames_tolist ;;
      match select_loop (map PyStr.upper names) l None [] with
      | Raise e => raise e
      | Ok [] => ret false
      | Ok sel => assign (set_colSelected (Some sel)) ;;; ret true
      end
  end.

Definition __portalUse : M unit :=
  o <- self ;;
  d <- not_none AttributeError (_dobj o) ;;
  names <- colNames_tolist ;;
  let counter := {| objId := d; counter_columns := names;
                    internal := _islocal o |} in
  send (EvPortalUse counter) ;;;
  match portaluse env counter with
  | Response _ _ => ret tt
  | Unreachable => raise ConnectionError
  end.

(** The body of the [try] of lines 346-351 for one selected column;
    [None] is any exception raised in it. *)
Definition unpack_column (o : Dobj) (data : list Scalar) (rows : nat)
  (idx col : nat) (df : Table) : option Table :=
  let lst := slice (idx * rows) ((idx + 1) * rows) data in
  match _colSchema o, _info2 o with
  | Some schema, Some f =>
      match nth_error schema col with
      | None => None
      | Some k =>
          match (if DecodeKind_eqb k CHAR16 then map_opt py_chr lst
                 else Some lst) with
          | None => None
          | Some lst' =>
              match nth_error (frame_rows f) col with
              | None => None
              | Some row => set_column (colName row) lst' df
              end
          end
      end
  | _, _ => None
  end.

Fixpoint unpack_columns (o : Dobj) (data : list Scalar) (rows : nat)
  (idx : nat) (sel : list nat) (df : Table) : option Table :=
  match sel with
  | [] => Some df
  | col :: r =>
      match unpack_column o data rows idx col df with
      | None => None
      | Some df' => unpack_columns o data rows (S idx) r df'
      end
  end.

(** Lines 361-374. *)
Definition convert_times (o : Dobj) (df : Table) : Table :=
  if _dtconvert o then
    convert_column "time" ToTimeOfDay
      (convert_column "date" ToDatetimeD
         (convert_column "TIMESTAMP" ToDatetimeMs df))
  else df.

(** Lines 378-379.  With a string in the cell, [df[s]] is one column (a
    Series, here a table of that one column). *)
Definition reorder (c : ColumnNames) (df : Table) : M Table :=
  match c with
  | CNull | CList [] | CRaw EmptyString => ret df
  | CList l => not_none KeyError (getitem_list l df)
  | CRaw s => v <- not_none KeyError (get_column s df) ;; ret [(s, v)]
  end.

Definition __unpackRawData (rawData : bytes) : M Table :=
  o <- self ;;
  plan <- not_none TypeError (_dtypeStruct o) ;;
  match unpack_from plan rawData with
  | Raise e => raise e
  | Ok data =>
      info1 <- not_none TypeError (_info1 o) ;;
      match info1 with
      | [row0] =>
          let rows := nRows row0 in
          match match _colSelected o with
                | Some sel => unpack_columns o data rows 0 sel []
                | None => None
                end with
          | None => raise (PyException "_unpackRawData")
          | Some df =>
              df <- reorder (columnNames row0) (convert_times o df) ;;
              (if _datapersistent o then assign (set_data df)
               else ret tt) ;;;
              ret df
          end
      | _ => raise TypeError
      end
  end.

(** [raise_for_status]: the statuses from 400 to 599 raise. *)
Definition is_error_status (status : nat) : bool :=
  (400 <=? status) && (status <? 600).

Definition localfile_path (folder d : string) : string :=
  (_localpath ++ folder ++ "/" ++ PyStr.last_field PyStr.slash d
     ++ ".cpb")%string.

Definition __getColumns : M Table :=
  o <- self ;;
  d <- not_none AttributeError (_dobj o) ;;
  send (EvSparql (dobjStation d)) ;;;
  assign (set_info3 (Some (sparql_station env d))) ;;;
  f <- not_none TypeError (_info2 o) ;;
  first <- not_none IndexError (head (frame_rows f)) ;;
  let folder := PyStr.last_field PyStr.slash (objFormat first) in
  let localfile := localfile_path folder d in
  content <-
    match local_store env localfile with
    | Some content =>
        assign (set_islocal (Some true)) ;;;
        send (EvRead localfile) ;;;
        assign (set_colSelected None) ;;;
        __getPayload ;;;
        ret content
    | None =>
        assign (set_islocal (Some false)) ;;;
        send (EvTabular (_json o)) ;;;
        match tabular env (_json o) with
        | Unreachable => raise ConnectionError
        | Response status content =>
            if is_error_status status then raise (PyException "HTTPError")
            else ret content
        end
    end ;;
  __portalUse ;;;
  __unpackRawData content.

Definition getColumns (cols : option (list Selector)) : M Result :=
  o <- self ;;
  if negb (table_empty (_data o)) && _datapersistent o
  then ret (RTable (_data o))
  else if falsy cols && _dobjValid o
  then t <- __getColumns ;; ret (RTable t)
  else
    (if negb (falsy cols)
     then b <- __setColumns cols ;; if b then __getPayload else ret tt
     else ret tt) ;;;
    o <- self ;;
    if _dobjValid o then t <- __getColumns ;; ret (RTable t)
    else ret RFalse.

(** [get()] and the property [data]. *)
Definition get : M Result := getColumns None.

End Methods.

(** [Dobj(digitalObject)] *)
Definition init re_match mapDataTypesCP env (digitalObject : Ident)
  : outcome unit * Dobj * list Event :=
  dobj_setter re_match mapDataTypesCP env digitalObject init_attrs [].

(** ** Vocabulary of the properties *)

Section Vocabulary.

Variable rm : string -> string -> bool.
Variable ty : string -> option DecodeKind.
Variable env : Env.

(** A run of data-access calls, one after the other on the same object. *)
Fixpoint getColumns_all (calls : list (option (list Selector)))
  (o : Dobj) (tr : list Event)
  : list (outcome Result) * Dobj * list Event :=
  match calls with
  | [] => ([], o, tr)
  | c :: r =>
      let '(x, o1, tr1) := getColumns rm ty env c o tr in
      let '(xs, o2, tr2) := getColumns_all r o1 tr1 in
      (x :: xs, o2, tr2)
  end.

(** The update of line 447-448: [j] joins the list unless it is there. *)
Definition add_new (acc : list nat) (j : nat) : list nat :=
  if existsb (Nat.eqb j) acc then acc else acc ++ [j].

(** The indices the entries of a list stand for, entry by entry. *)
Definition resolved (colNames : list string) (cols : list Selector)
  : list nat :=
  flat_map (fun c => match resolve_selector colNames c with
                     | Some i => [i]
                     | None => []
                     end) cols.

(** The rows one pattern row gives: one per realized name it matches. *)
Definition matches (colList : list string) (r : Info2Row) : list Info2Row :=
  map (matched_row r) (filter (rm (colName r)) colList).

Definition is_use (ev : Event) : bool :=
  match ev with
  | EvPortalUse _ => true
  | _ => false
  end.

(** The usage requests in a log. *)
Definition uses (tr : list Event) : nat := List.length (filter is_use tr).

(** [adds n m]: when [m] returns, it has sent [n] usage requests. *)
Definition adds {A} (n : nat) (m : M A) : Prop :=
  forall o tr a o' tr',
    m o tr = (Ok a, o', tr') -> uses tr' = n + uses tr.

(** [fails m]: [m] raises, whatever the object and the log. *)
Definition fails {A} (m : M A) : Prop :=
  forall o tr, exists e o' tr', m o tr = (Raise e, o', tr').

(** The same environment with a usage log that gives one answer. *)
Definition with_portaluse (e : Env) (u : HttpResult) : Env :=
  {| sparql_info := sparql_info e;
     sparql_schema := sparql_schema e;
     sparql_station := sparql_station e;
     sparql_citation := sparql_citation e;
     local_store := local_store e;
     tabular := tabular e;
     portaluse := fun _ => u |}.

(** The attributes a successful [__getPayload] writes, taken from [src];
    the others from [dst]. *)
Definition copy_outputs (src dst : Dobj) : Dobj :=
  mkDobj (_colSelected src) (_endian dst) (_dtconvert dst) (_info1 src)
    (_info2 src) (_info3 dst) (_colSchema src) (_dtypeStruct src)
    (_json src) (_islocal dst) (_dobjSet dst) (_dobjValid src)
    (citation src) (_dobj dst) (_data dst) (_datapersistent dst).

(** The same environment where the local file exists and holds
    [content]. *)
Definition with_local (e : Env) (content : bytes) : Env :=
  {| sparql_info := sparql_info e;
     sparql_schema := sparql_schema e;
     sparql_station := sparql_station e;
     sparql_citation := sparql_citation e;
     local_store := fun _ => Some content;
     tabular := tabular e;
     portaluse := portaluse e |}.

(** The same environment where no local file exists and the portal
    answers with [status] and the body [content]. *)
Definition with_remote (e : Env) (status : nat) (content : bytes) : Env :=
  {| sparql_info := sparql_info e;
     sparql_schema := sparql_schema e;
     sparql_station := sparql_station e;
     sparql_citation := sparql_citation e;
     local_store := fun _ => None;
     tabular := fun _ => Response status content;
     portaluse := portaluse e |}.

End Vocabulary.

(** ** A sample object for the closed examples *)

Module Sample.

(** The patterns of the examples hold no metacharacter, so [re.match]
    is the test for a prefix. *)
Definition literal_match (r c : string) : bool := String.prefix r c.

(** A type table for the examples. *)
Definition types (f : string) : option DecodeKind :=
  if String.eqb f "int32" then Some INT32
  else if String.eqb f "float32" then Some FLOAT32
  else if String.eqb f "bmpChar" then Some CHAR16
  else None.

Definition oid : string := "https://meta.icos-cp.eu/objects/obj1".
Definition fmt : string :=
  "http://meta.icos-cp.eu/ontologies/cpmeta/asciiAtcProductTimeSer".

Definition column (name vf : string) (re : option string) : Info2Row :=
  {| colName := name; valFormat := vf; isRegex := re; objFormat := fmt |}.

(** Three int32 columns declared in the order b, a, c. *)
Definition declared : list Info2Row :=
  [column "b" "int32" None; column "a" "int32" None;
   column "c" "int32" None].

(** One row; on the wire the columns a, b, c hold 1, 2 and 3. *)
Definition payload : bytes :=
  [Byte.x00; Byte.x00; Byte.x00; Byte.x01;
   Byte.x00; Byte.x00; Byte.x00; Byte.x02;
   Byte.x00; Byte.x00; Byte.x00; Byte.x03].

(** The block of the columns a request asks for. *)
Definition serve (j : option Json) : bytes :=
  match j with
  | Some j => flat_map (fun d => firstn 4 (skipn (4 * d) payload))
                (columnNumbers j)
  | None => []
  end.

(** Two pattern columns that both match the name ab. *)
Definition patterns : list Info2Row :=
  [column "a" "int32" (Some "true"); column "ab" "float32" (Some "true")].

(** An identifier the endpoint has no row for. *)
Definition unknown : string := "https://meta.icos-cp.eu/objects/none".

(** The endpoint knows [oid] only.  [cols] are the declared columns,
    [names] is the [columnNames] cell, [loc] tells whether the local
    file exists, [use] is what the usage log answers. *)
Definition world_with (cols : list Info2Row) (names : option string)
  (loc : bool) (use : HttpResult) : Env :=
  {| sparql_info := fun d =>
       if String.eqb d oid
       then [{| raw_dobj := oid; raw_objSpec := "spec1"; raw_nRows := 1;
                raw_columnNames := names |}]
       else [];
     sparql_schema := fun _ => cols;
     sparql_station := fun _ => [];
     sparql_citation := fun _ => [Some "cite me"];
     local_store := fun _ => if loc then Some payload else None;
     tabular := fun j => Response 200 (serve j);
     portaluse := fun _ => use |}.

Definition world : option string -> bool -> HttpResult -> Env :=
  world_with declared.

Definition fine : HttpResult := Response 200 [].

Definition state_of {A} (x : outcome A * Dobj * list Event) : Dobj :=
  snd (fst x).

Definition result_of {A} (x : outcome A * Dobj * list Event) : outcome A :=
  fst (fst x).

(** The object right after [Dobj(oid)]. *)
Definition fresh (names : option string) : Dobj :=
  state_of (init literal_match types (world names false fine) (IdStr oid)).

(** The same object after a first [get()] from the portal. *)
Definition loaded (names : option string) : Dobj :=
  state_of (get literal_match types (world names false fine)
              (fresh names) []).

(** The frame of [fresh]: the declared columns in the order of the
    wire. *)
Definition wire : Frame := sort_by_name (reindex declared).

(** The table of one row the payload decodes to, in the order of the
    wire. *)
Definition table_abc : Table :=
  [("a", [SInt 1]); ("b", [SInt 2]); ("c", [SInt 3])].

End Sample.

(** ** Properties *)

Section Properties.

Variable rm : string -> string -> bool.
Variable ty : string -> option DecodeKind.
Variable env : Env.

(** *** The identifier setter *)

(** C10.  Assigning a falsy identifier clears the flag [_dobjSet] and
    touches nothing else: the identifier set before, the validity flag,
    the column selection, the cached table and every other attribute
    stay as they were, and no request is sent. *)
Theorem C10_falsy_identifier_frame (v : Ident) (o : Dobj) (tr : list Event) :
  ident_truthy v = false ->
  dobj_setter rm ty env v o tr = (Ok tt, set_dobjSet false o, tr)
  /\ _dobj (set_dobjSet false o) = _dobj o
  /\ _dobjValid (set_dobjSet false o) = _dobjValid o
  /\ _colSelected (set_dobjSet false o) = _colSelected o
  /\ _data (set_dobjSet false o) = _data o
  /\ set_dobjSet (_dobjSet o) (set_dobjSet false o) = o.
Proof.
  intros Hv. unfold dobj_setter. rewrite Hv. cbn.
  repeat split. destruct o; reflexivity.
Qed.

(** *** The cache guard of [getColumns] *)

(** C3 (amended).  With persistence on and a non-empty cached table, a
    data-access call returns the cached table whatever columns it names;
    the selection, the cache and the rest of the object stay as they
    were and nothing is fetched. *)
Theorem C3_cached_table_returned
  (cols : option (list Selector)) (o : Dobj) (tr : list Event) :
  table_empty (_data o) = false ->
  _datapersistent o = true ->
  getColumns rm ty env cols o tr = (Ok (RTable (_data o)), o, tr).
Proof.
  intros He Hp. unfold getColumns, bind, self.
  rewrite He, Hp. reflexivity.
Qed.

(** *** An identifier without metadata *)

(** On an object that is not valid and returns no cached table, a
    data-access call answers [False], changes nothing and sends
    nothing. *)
Lemma getColumns_not_valid (cols : option (list Selector)) (o : Dobj)
  (tr : list Event) :
  negb (table_empty (_data o)) && _datapersistent o = false ->
  _dobjValid o = false ->
  getColumns rm ty env cols o tr = (Ok RFalse, o, tr).
Proof.
  intros Hc Hv. unfold getColumns, bind, self. rewrite Hc, Hv.
  rewrite andb_false_r.
  destruct (falsy cols); cbn.
  - rewrite Hv. reflexivity.
  - unfold __setColumns, bind, self, ret. rewrite Hv. cbn.
    rewrite Hv. reflexivity.
Qed.

(** C9 (amended).  When the metadata query for a non-empty identifier
    returns no row, and the object holds no non-empty table it would
    return from its cache, the setter sends that one query and leaves
    the object not valid; every later data-access call answers [False],
    leaves the object as it is and sends nothing: no payload is fetched
    or decoded. *)
Theorem C9_no_metadata_negative_result
  (id : string) (o : Dobj) (tr : list Event) :
  ident_truthy (IdStr id) = true ->
  sparql_info env id = [] ->
  negb (table_empty (_data o)) && _datapersistent o = false ->
  exists o1,
    dobj_setter rm ty env (IdStr id) o tr
    = (Ok tt, o1, tr ++ [EvSparql (cpbGetInfo id)])
    /\ _dobjValid o1 = false
    /\ forall calls,
         getColumns_all rm ty env calls o1
           (tr ++ [EvSparql (cpbGetInfo id)])
         = (map (fun _ => Ok RFalse) calls, o1,
            tr ++ [EvSparql (cpbGetInfo id)]).
Proof.
  intros Ht Hq Hc.
  exists (set_dobjValid false
            (set_info1 (Some [])
               (set_dobjSet true (set_dobj_attr (Some id) o)))).
  split; [| split].
  - unfold dobj_setter. rewrite Ht. cbn.
    unfold __getPayload, bind, self, assign, send, not_none, ret. cbn.
    rewrite Hq. reflexivity.
  - reflexivity.
  - induction calls as [| c r IH]; [reflexivity |].
    cbn [getColumns_all map].
    rewrite getColumns_not_valid by (cbn; auto).
    rewrite IH. reflexivity.
Qed.

(** *** The length of the buffer *)

Lemma unpack_run_firstn (e : Endian) (k : DecodeKind) (n m : nat)
  (raw : bytes) :
  n * width k <= m ->
  unpack_run e k n (firstn m raw) = unpack_run e k n raw.
Proof.
  revert m raw. induction n as [| n IH]; intros m raw Hm; [reflexivity |].
  cbn [unpack_run]. cbn in Hm.
  rewrite firstn_firstn, Nat.min_l by lia.
  rewrite skipn_firstn_comm, IH by lia. reflexivity.
Qed.

Lemma unpack_items_firstn (e : Endian) (items : list (DecodeKind * nat))
  (m : nat) (raw : bytes) :
  items_size items <= m ->
  unpack_items e items (firstn m raw) = unpack_items e items raw.
Proof.
  revert m raw. induction items as [| [k n] r IH]; intros m raw Hm;
    [reflexivity |].
  cbn [unpack_items]. cbn [items_size] in Hm.
  rewrite unpack_run_firstn by lia.
  rewrite skipn_firstn_comm, IH by lia. reflexivity.
Qed.

(** A buffer at least as long as the plan is read from its start, and
    what follows the plan's length plays no part. *)
Lemma unpack_from_prefix (p : Plan) (raw : bytes) :
  calcsize p <= List.length raw ->
  unpack_from p raw = unpack_from p (firstn (calcsize p) raw).
Proof.
  intros Hl. unfold unpack_from.
  rewrite length_firstn, Nat.min_l by lia.
  destruct (Nat.ltb_spec (List.length raw) (calcsize p)); [lia |].
  rewrite Nat.ltb_irrefl.
  unfold calcsize. rewrite unpack_items_firstn by lia. reflexivity.
Qed.

(** The plan of lines 271-275 holds one token per selected column, and
    its length is the row count times the summed widths of their kinds. *)
Lemma dtypeStruct_loop_size (sel : list nat) (schema : list DecodeKind)
  (rows : nat) (items : list (DecodeKind * nat)) :
  dtypeStruct_loop sel schema rows = Some items ->
  exists kinds,
    map_opt (nth_error schema) sel = Some kinds
    /\ items = map (fun k => (k, rows)) kinds
    /\ items_size items = rows * list_sum (map width kinds).
Proof.
  unfold dtypeStruct_loop. revert items.
  induction sel as [| d r IH]; intros items H; cbn in H.
  - injection H as <-. exists []. cbn. repeat split. lia.
  - cbn [map_opt]. destruct (nth_error schema d) as [k |]; [| discriminate].
    cbn in H.
    destruct (map_opt _ r) as [items' |] eqn:E; [| discriminate].
    injection H as <-.
    destruct (IH items' eq_refl) as (kinds & -> & -> & Hs).
    exists (k :: kinds). repeat split.
    cbn [map items_size list_sum structTypes].
    rewrite Hs. simpl list_sum. rewrite Nat.mul_add_distr_l. reflexivity.
Qed.

(** C1 (amended).  Let the plan be the one built for the selected
    columns, of length [rows] times the summed widths of their kinds.
    A buffer shorter than that is refused with the [struct] error.  A
    buffer at least that long is decoded from its first bytes exactly as
    the buffer cut to that length is: bytes beyond the plan are
    ignored. *)
Theorem C1_buffer_shorter_fails_longer_is_cut
  (o : Dobj) (e : Endian) (sel : list nat) (schema : list DecodeKind)
  (rows : nat) (items : list (DecodeKind * nat)) (raw : bytes)
  (tr : list Event) :
  dtypeStruct_loop sel schema rows = Some items ->
  _dtypeStruct o = Some (mkPlan e items) ->
  exists kinds,
    map_opt (nth_error schema) sel = Some kinds
    /\ (List.length raw < rows * list_sum (map width kinds) ->
        __unpackRawData raw o tr = (Raise StructError, o, tr))
    /\ (rows * list_sum (map width kinds) <= List.length raw ->
        __unpackRawData raw o tr
        = __unpackRawData
            (firstn (rows * list_sum (map width kinds)) raw) o tr).
Proof.
  intros Hb Hp.
  destruct (dtypeStruct_loop_size _ _ _ _ Hb) as (kinds & Hk & _ & Hs).
  exists kinds. split; [exact Hk |].
  rewrite <- Hs.
  change (items_size items) with (calcsize (mkPlan e items)).
  unfold __unpackRawData, bind, self, not_none. rewrite Hp. cbn [ret].
  split; intros Hl.
  - unfold unpack_from.
    destruct (Nat.ltb_spec (List.length raw) (calcsize (mkPlan e items)));
      [reflexivity | lia].
  - rewrite <- unpack_from_prefix by exact Hl. reflexivity.
Qed.

(** *** Column selection *)

Lemma existsb_eqb_In (j : nat) (l : list nat) :
  existsb (Nat.eqb j) l = true <-> In j l.
Proof.
  rewrite existsb_exists. split.
  - intros (x & Hx & E). apply Nat.eqb_eq in E. subst. exact Hx.
  - intros H. exists j. split; [exact H | apply Nat.eqb_refl].
Qed.

Lemma add_new_In (acc : list nat) (j i : nat) :
  In i (add_new acc j) <-> In i acc \/ i = j.
Proof.
  unfold add_new. destruct (existsb (Nat.eqb j) acc) eqn:E.
  - apply existsb_eqb_In in E. split; [auto |].
    intros [H | ->]; assumption.
  - rewrite in_app_iff. cbn. intuition.
Qed.

Lemma add_new_NoDup (acc : list nat) (j : nat) :
  NoDup acc -> NoDup (add_new acc j).
Proof.
  intros H. unfold add_new. destruct (existsb (Nat.eqb j) acc) eqn:E;
    [exact H |].
  apply NoDup_app; [exact H | repeat constructor; intros [] |].
  intros x Hx [<- | []].
  apply existsb_eqb_In in Hx. congruence.
Qed.

Lemma fold_add_new (l acc : list nat) :
  NoDup acc ->
  NoDup (fold_left add_new l acc)
  /\ forall i, In i (fold_left add_new l acc) <-> In i acc \/ In i l.
Proof.
  revert acc. induction l as [| j l IH]; intros acc Hn; cbn.
  - split; [exact Hn | intuition].
  - destruct (IH (add_new acc j) (add_new_NoDup acc j Hn)) as [H1 H2].
    split; [exact H1 |].
    intros i. rewrite H2, add_new_In. intuition.
Qed.

(** Once [idx] is bound to a member of the list built so far, the loop
    cannot raise: an entry that does not resolve finds [idx] in the list
    and adds nothing. *)
Lemma select_loop_bound (colNames : list string) (cols : list Selector)
  (i : nat) (acc : list nat) :
  In i acc ->
  select_loop colNames cols (Some i) acc
  = Ok (fold_left add_new (resolved colNames cols) acc).
Proof.
  revert i acc. induction cols as [| c r IH]; intros i acc Hi;
    [reflexivity |].
  cbn [select_loop]. unfold resolved. cbn [flat_map].
  destruct (resolve_selector colNames c) as [j |].
  - rewrite fold_left_app. cbn [fold_left].
    fold (add_new acc j). apply IH.
    apply add_new_In. right. reflexivity.
  - cbn [app]. apply existsb_eqb_In in Hi as Hi'. rewrite Hi'.
    apply IH. exact Hi.
Qed.

Lemma setColumns_failure_frame (cols : option (list Selector))
  (o o' : Dobj) (tr tr' : list Event) (r : outcome bool) :
  __setColumns cols o tr = (r, o', tr') ->
  r <> Ok true ->
  o' = o /\ tr' = tr.
Proof.
  unfold __setColumns, colNames_tolist, bind, self, ret, raise, assign,
    not_none.
  destruct (_dobjValid o) eqn:Hv; cbn.
  - destruct cols as [l |].
    + rewrite Hv. destruct (_info2 o) as [f |]; cbn.
      * match goal with
        | |- context [select_loop ?a l None []] =>
            destruct (select_loop a l None []) as [[| x sel] | e]
        end; cbn; intros [= <- <- <-] Hr; try (split; reflexivity).
        contradiction Hr. reflexivity.
      * intros [= <- <- <-] _. split; reflexivity.
    + intros [= <- <- <-] Hr. contradiction Hr. reflexivity.
  - intros [= <- <- <-] _. split; reflexivity.
Qed.

(** C6 (amended).  On a valid object, when the first entry of the list
    stands for a column, the entries that stand for none (an integer
    outside the index range among them) are skipped: the selection
    becomes the distinct indices of the entries that resolve, and
    success is reported.  And whenever the operation does not report
    success, the object, its previous selection included, is left as it
    was. *)
Theorem C6_unresolved_entries_skipped (o : Dobj) (tr : list Event) :
  (forall (f : Frame) (c0 : Selector) (rest : list Selector) (i0 : nat),
      _dobjValid o = true ->
      _info2 o = Some f ->
      resolve_selector (map PyStr.upper (frame_names f)) c0 = Some i0 ->
      exists sel,
        __setColumns (Some (c0 :: rest)) o tr
        = (Ok true, set_colSelected (Some sel) o, tr)
        /\ NoDup sel
        /\ forall i,
             In i sel <->
             exists c, In c (c0 :: rest)
                       /\ resolve_selector
                            (map PyStr.upper (frame_names f)) c = Some i)
  /\ (forall cols r o' tr',
         __setColumns cols o tr = (r, o', tr') ->
         r <> Ok true ->
         o' = o /\ tr' = tr).
Proof.
  split; [| intros cols r o' tr'; apply setColumns_failure_frame].
  intros f c0 rest i0 Hv Hf Hc.
  set (names := map PyStr.upper (frame_names f)) in *.
  exists (fold_left add_new (resolved names rest) [i0]).
  destruct (fold_add_new (resolved names rest) [i0]) as [Hn Hin];
    [repeat constructor; intros [] |].
  split; [| split; [exact Hn |]].
  - unfold __setColumns, colNames_tolist, bind, self, ret, raise, assign,
      not_none.
    rewrite Hv. cbn. rewrite Hv, Hf. cbn. fold names. rewrite Hc.
    rewrite select_loop_bound by (left; reflexivity).
    destruct (fold_left add_new (resolved names rest) [i0]);
      [| reflexivity].
    destruct (proj2 (Hin i0) (or_introl (or_introl eq_refl))).
  - intros i. rewrite Hin. unfold resolved. rewrite in_flat_map. split.
    + intros [[<- | []] | (c & Hc1 & Hc2)].
      * exists c0. split; [left; reflexivity | exact Hc].
      * exists c. split; [right; exact Hc1 |].
        destruct (resolve_selector names c) as [j |]; [| destruct Hc2].
        destruct Hc2 as [<- | []]. reflexivity.
    + intros (c & [<- | Hc1] & Hc2).
      * left. left. congruence.
      * right. exists c. split; [exact Hc1 |]. rewrite Hc2. left.
        reflexivity.
Qed.

(** *** Frames *)

Lemma map_snd_combine {A B} (l1 : list A) (l2 : list B) :
  List.length l1 = List.length l2 -> map snd (combine l1 l2) = l2.
Proof.
  revert l2. induction l1 as [| a l1 IH]; intros [| b l2] H; cbn in *;
    try discriminate; [reflexivity |].
  f_equal. apply IH. lia.
Qed.

Lemma frame_rows_reindex (rows : list Info2Row) :
  frame_rows (reindex rows) = rows.
Proof.
  unfold frame_rows, reindex. apply map_snd_combine. apply length_seq.
Qed.

Lemma frame_rows_filter (p : Info2Row -> bool) (f : Frame) :
  frame_rows (filter (fun x => p (snd x)) f) = filter p (frame_rows f).
Proof.
  unfold frame_rows. induction f as [| [l r] f IH]; [reflexivity |].
  cbn. destruct (p r); cbn; rewrite IH; reflexivity.
Qed.

Lemma count_occ_filter (p : string -> bool) (l : list string) (c : string) :
  count_occ string_dec (filter p l) c
  = if p c then count_occ string_dec l c else 0.
Proof.
  induction l as [| x l IH]; cbn; [destruct (p c); reflexivity |].
  destruct (string_dec x c) as [-> | Hn].
  - destruct (p c); cbn; [| exact IH].
    destruct (string_dec c c); [| congruence]. rewrite IH. reflexivity.
  - destruct (p x); cbn; [| exact IH].
    destruct (string_dec x c); [congruence | exact IH].
Qed.

Lemma frame_names_insert (x : nat * Info2Row) (f : Frame) (c : string) :
  count_occ string_dec (frame_names (insert_by_name x f)) c
  = count_occ string_dec (frame_names (x :: f)) c.
Proof.
  unfold frame_names, frame_rows.
  induction f as [| y f IH]; [reflexivity |].
  cbn [insert_by_name].
  destruct (colName (snd x) <? colName (snd y))%string; [reflexivity |].
  cbn [map] in *. cbn [count_occ] in *. rewrite IH.
  destruct (string_dec (colName (snd y)) c),
    (string_dec (colName (snd x)) c); reflexivity.
Qed.

(** Sorting moves rows; it neither adds nor removes a name. *)
Lemma frame_names_sort (f : Frame) (c : string) :
  count_occ string_dec (frame_names (sort_by_name f)) c
  = count_occ string_dec (frame_names f) c.
Proof.
  unfold sort_by_name.
  enough (G : forall acc,
             count_occ string_dec
               (frame_names (fold_left (fun a x => insert_by_name x a) f acc))
               c
             = count_occ string_dec (frame_names acc) c
               + count_occ string_dec (frame_names f) c)
    by (rewrite G; reflexivity).
  induction f as [| x f IH]; intros acc; cbn [fold_left].
  - cbn. lia.
  - rewrite IH, frame_names_insert.
    unfold frame_names, frame_rows. cbn [map count_occ].
    destruct (string_dec (colName (snd x)) c); lia.
Qed.

(** *** Expansion of the pattern columns *)

Lemma frame_rows_expand_one (colList : list string) (f : Frame)
  (r : Info2Row) :
  frame_rows (expand_one rm colList f r)
  = frame_rows f ++ matches rm colList r.
Proof.
  unfold expand_one, matches. revert f.
  induction colList as [| c l IH]; intros f; cbn [fold_left filter map].
  - rewrite app_nil_r. reflexivity.
  - rewrite IH. destruct (rm (colName r) c); [| reflexivity].
    unfold concat_row. rewrite frame_rows_reindex, <- app_assoc.
    reflexivity.
Qed.

Lemma frame_rows_expand_all (colList : list string) (rs : list Info2Row)
  (f : Frame) :
  frame_rows (fold_left (expand_one rm colList) rs f)
  = frame_rows f ++ flat_map (matches rm colList) rs.
Proof.
  revert f. induction rs as [| r rs IH]; intros f; cbn [fold_left flat_map].
  - rewrite app_nil_r. reflexivity.
  - rewrite IH, frame_rows_expand_one, <- app_assoc. reflexivity.
Qed.

Lemma matches_not_pattern (colList : list string) (rs : list Info2Row) :
  filter (fun r => negb (isRegex_true r)) (flat_map (matches rm colList) rs)
  = flat_map (matches rm colList) rs.
Proof.
  apply forallb_filter_id. apply forallb_forall. intros x Hx.
  apply in_flat_map in Hx as (r & _ & Hx). unfold matches in Hx.
  apply in_map_iff in Hx as (c & <- & _). reflexivity.
Qed.

Lemma matches_names (colList : list string) (r : Info2Row) :
  map colName (matches rm colList r) = filter (rm (colName r)) colList.
Proof.
  unfold matches. rewrite map_map. cbn. apply map_id.
Qed.

(** C7 (amended).  The expansion keeps the declared rows that are no
    pattern and appends, pattern by pattern and name by name, one row
    for each realized name a pattern matches; that row carries the
    pattern's format and the matched name.  Nothing is deduplicated: a
    name occurs among the appended rows once for each pattern that
    matches it (times its occurrences in the realized list).  A pattern
    that matches no name appends nothing, and the expansion itself
    raises nothing. *)
Theorem C7_one_row_per_match_no_dedup (colList : list string) (f : Frame) :
  frame_rows (expand_regex rm colList f)
  = filter (fun r => negb (isRegex_true r)) (frame_rows f)
    ++ flat_map (matches rm colList) (filter isRegex_true (frame_rows f))
  /\ forall c,
      count_occ string_dec
        (map colName
           (flat_map (matches rm colList)
              (filter isRegex_true (frame_rows f)))) c
      = list_sum
          (map (fun r => if rm (colName r) c
                         then count_occ string_dec colList c else 0)
             (filter isRegex_true (frame_rows f))).
Proof.
  split.
  - unfold expand_regex.
    rewrite (frame_rows_filter (fun r => negb (isRegex_true r))).
    rewrite frame_rows_expand_all, filter_app, matches_not_pattern.
    reflexivity.
  - intros c. induction (filter isRegex_true (frame_rows f)) as [| r rs IH];
      [reflexivity |].
    cbn [flat_map map list_sum fold_right].
    rewrite map_app, count_occ_app, matches_names, count_occ_filter.
    fold (list_sum
            (map (fun r0 => if rm (colName r0) c
                            then count_occ string_dec colList c else 0) rs)).
    rewrite IH. reflexivity.
Qed.

(** *** Dropping the declared columns that are not realized *)

Lemma drop_label_absent (i : nat) (f : Frame) :
  Forall (fun x => fst x <> i) f -> drop_label i f = f.
Proof.
  intros H. unfold drop_label. apply forallb_filter_id.
  apply forallb_forall. intros x Hx.
  rewrite Forall_forall in H. apply H in Hx.
  apply negb_true_iff, Nat.eqb_neq. exact Hx.
Qed.

Lemma combine_seq_labels (i n : nat) (rows : list Info2Row) (j : nat) :
  j < i -> Forall (fun x => fst x <> j) (combine (seq i n) rows).
Proof.
  intros Hj. apply Forall_forall. intros [l r] Hx.
  apply in_combine_l, in_seq in Hx. cbn. lia.
Qed.

(** While the labels are the positions, the loop of lines 249-251 drops
    the row it is looking at: it is a filter, and it cannot raise. *)
Lemma drop_loop_positions (colList : list string) (rows : list Info2Row)
  (i : nat) (kept : Frame) :
  Forall (fun x => fst x < i) kept ->
  drop_loop colList (map colName rows) i
    (kept ++ combine (seq i (List.length rows)) rows)
  = (Ok tt,
     kept ++ filter (fun x => PyStr.mem (colName (snd x)) colList)
               (combine (seq i (List.length rows)) rows)).
Proof.
  revert i kept. induction rows as [| r rows IH]; intros i kept Hk;
    [reflexivity |].
  cbn [map drop_loop List.length seq combine filter snd].
  destruct (PyStr.mem (colName r) colList) eqn:E.
  - replace (kept ++ (i, r) :: combine (seq (S i) (List.length rows)) rows)
      with ((kept ++ [(i, r)])
              ++ combine (seq (S i) (List.length rows)) rows)
      by (rewrite <- app_assoc; reflexivity).
    rewrite IH.
    + rewrite <- app_assoc. reflexivity.
    + apply Forall_app. split.
      * eapply Forall_impl; [| exact Hk]. cbn. intros; lia.
      * repeat constructor.
  - assert (Hl : has_label i
              (kept ++ (i, r) :: combine (seq (S i) (List.length rows)) rows)
            = true).
    { unfold has_label. rewrite existsb_app. cbn.
      rewrite Nat.eqb_refl, orb_true_r. reflexivity. }
    rewrite Hl.
    assert (Hd : drop_label i
              (kept ++ (i, r) :: combine (seq (S i) (List.length rows)) rows)
            = kept ++ combine (seq (S i) (List.length rows)) rows).
    { unfold drop_label. rewrite filter_app. cbn.
      rewrite Nat.eqb_refl. cbn.
      fold (drop_label i kept).
      fold (drop_label i (combine (seq (S i) (List.length rows)) rows)).
      rewrite !drop_label_absent; [reflexivity | |].
      - apply combine_seq_labels. lia.
      - eapply Forall_impl; [| exact Hk]. cbn. intros; lia. }
    rewrite Hd. apply IH.
    eapply Forall_impl; [| exact Hk]. cbn. intros; lia.
Qed.

Lemma isRegex_count_none (rows : list Info2Row) :
  (forall r, In r rows -> isRegex r = None) ->
  isRegex_count (reindex rows) = 0.
Proof.
  intros H. unfold isRegex_count.
  assert (G : forall f : Frame,
             (forall x, In x f -> isRegex (snd x) = None) ->
             filter (fun x => match isRegex (snd x) with
                              | Some _ => true
                              | None => false
                              end) f = []).
  { induction f as [| x f IH]; intros Hx; [reflexivity |].
    cbn. rewrite (Hx x (or_introl eq_refl)).
    apply IH. intros y Hy. apply Hx. right. exact Hy. }
  rewrite G; [reflexivity |].
  intros [l r] Hx. apply in_combine_r in Hx. exact (H r Hx).
Qed.

Lemma frame_names_filter (colList : list string) (f : Frame) :
  frame_names (filter (fun x => PyStr.mem (colName (snd x)) colList) f)
  = filter (fun n => PyStr.mem n colList) (frame_names f).
Proof.
  unfold frame_names.
  rewrite (frame_rows_filter (fun r => PyStr.mem (colName r) colList)).
  induction (frame_rows f) as [| r l IH]; [reflexivity |].
  cbn. destruct (PyStr.mem (colName r) colList); cbn; rewrite IH;
    reflexivity.
Qed.

(** C2 (amended).  Resolution does not check the realized names against
    the resolved schema.  With no pattern among the declared columns,
    the step that handles a realized list never raises: it keeps the
    declared rows whose name is realized and drops the others, so that
    after sorting a realized name is in the schema as many times as it
    was declared (zero times and several times included) and a name
    that is not realized is absent. *)
Theorem C2_realized_names_not_validated
  (raw0 : Info1Raw) (rest : list Info1Raw) (s : string)
  (rows : list Info2Row) (o : Dobj) (tr : list Event) :
  raw_columnNames raw0 = Some s ->
  _info2 o = Some (reindex rows) ->
  (forall r, In r rows -> isRegex r = None) ->
  exists o' f',
    resolve_columnNames rm raw0 rest o tr = (Ok tt, o', tr)
    /\ _info2 o' = Some f'
    /\ forall c,
        count_occ string_dec (frame_names (sort_by_name f')) c
        = if PyStr.mem c (clean_columnNames s)
          then count_occ string_dec (map colName rows) c
          else 0.
Proof.
  intros Hs Hf Hr.
  pose proof (drop_loop_positions (clean_columnNames s) rows 0 []
                (Forall_nil _)) as Hd.
  cbn [app] in Hd. fold (reindex rows) in Hd.
  eexists. eexists. split; [| split].
  - unfold resolve_columnNames. rewrite Hs.
    unfold bind, self, assign, not_none, ret, raise. cbn.
    rewrite Hf. cbn. rewrite isRegex_count_none by exact Hr. cbn.
    rewrite Hf. cbn.
    unfold frame_names. rewrite frame_rows_reindex, Hd. cbn.
    reflexivity.
  - reflexivity.
  - intros c. rewrite frame_names_sort, frame_names_filter.
    rewrite count_occ_filter. unfold frame_names.
    rewrite frame_rows_reindex. reflexivity.
Qed.

(** *** The usage request *)

Lemma adds_ret {A} (a : A) : adds 0 (ret a).
Proof. intros o tr a' o' tr' [= <- <- <-]. reflexivity. Qed.

Lemma adds_raise {A} (e : exn) : adds 0 (@raise A e).
Proof. intros o tr a' o' tr' [=]. Qed.

Lemma adds_self : adds 0 self.
Proof. intros o tr a' o' tr' [= <- <- <-]. reflexivity. Qed.

Lemma adds_assign (f : Dobj -> Dobj) : adds 0 (assign f).
Proof. intros o tr a' o' tr' [= <- <- <-]. reflexivity. Qed.

Lemma adds_send (ev : Event) :
  adds (if is_use ev then 1 else 0) (send ev).
Proof.
  intros o tr a' o' tr' [= <- <- <-]. unfold uses.
  rewrite filter_app, length_app. cbn. destruct (is_use ev); cbn; lia.
Qed.

Lemma adds_not_none {A} (e : exn) (x : option A) : adds 0 (not_none e x).
Proof. destruct x; [apply adds_ret | apply adds_raise]. Qed.

Lemma adds_bind {A B} (n k : nat) (m : M A) (f : A -> M B) :
  adds n m -> (forall a, adds k (f a)) -> adds (n + k) (bind m f).
Proof.
  intros Hm Hf o tr b o' tr'. unfold bind.
  destruct (m o tr) as [[[a | e] o1] tr1] eqn:E; [| discriminate].
  intros H. apply Hf in H. apply Hm in E. lia.
Qed.

Lemma adds_bind0 {A B} (k : nat) (m : M A) (f : A -> M B) :
  adds 0 m -> (forall a, adds k (f a)) -> adds k (bind m f).
Proof. apply (adds_bind 0 k). Qed.

Lemma fails_bind_l {A B} (m : M A) (f : A -> M B) :
  fails m -> fails (bind m f).
Proof.
  intros Hm o tr. destruct (Hm o tr) as (e & o' & tr' & E).
  exists e, o', tr'. unfold bind. rewrite E. reflexivity.
Qed.

Lemma fails_bind_r {A B} (m : M A) (f : A -> M B) :
  (forall a, fails (f a)) -> fails (bind m f).
Proof.
  intros Hf o tr. unfold bind.
  destruct (m o tr) as [[[a | e] o1] tr1].
  - apply Hf.
  - exists e, o1, tr1. reflexivity.
Qed.

Create HintDb quiet.
Hint Resolve adds_ret adds_raise adds_self adds_assign adds_not_none
  : quiet.

Ltac quiet_step :=
  first
    [ apply adds_bind0; [| intros ?]
    | apply (adds_send (EvSparql _))
    | apply (adds_send (EvRead _))
    | apply (adds_send (EvTabular _))
    | solve [auto with quiet]
    | match goal with
      | |- adds _ (if ?b then _ else _) => destruct b
      | |- adds _ (match ?x with _ => _ end) => destruct x
      | |- adds _ (let '(_, _) := ?x in _) => destruct x
      end ].

Lemma adds_resolve_columnNames (raw0 : Info1Raw) (rest : list Info1Raw) :
  adds 0 (resolve_columnNames rm raw0 rest).
Proof. unfold resolve_columnNames. repeat quiet_step. Qed.

(** [__getPayload] sends queries to the metadata endpoint only. *)
Lemma adds_getPayload : adds 0 (__getPayload rm ty env).
Proof.
  unfold __getPayload.
  repeat first [ apply adds_resolve_columnNames | quiet_step ].
Qed.

Lemma adds_colNames_tolist : adds 0 colNames_tolist.
Proof. unfold colNames_tolist. repeat quiet_step. Qed.

(** [__portalUse], when it returns, has sent its one request. *)
Lemma adds_portalUse : adds 1 (__portalUse env).
Proof.
  unfold __portalUse.
  apply adds_bind0; [apply adds_self | intros o].
  apply adds_bind0; [apply adds_not_none | intros d].
  apply adds_bind0; [apply adds_colNames_tolist | intros names].
  cbn zeta.
  apply (adds_bind 1 0); [apply (adds_send (EvPortalUse _)) | intros _].
  destruct (portaluse env _); auto with quiet.
Qed.

Lemma adds_reorder (c : ColumnNames) (df : Table) : adds 0 (reorder c df).
Proof.
  unfold reorder. destruct c as [| [| a s] | [| n l]]; repeat quiet_step.
Qed.

Lemma adds_unpackRawData (raw : bytes) : adds 0 (__unpackRawData raw).
Proof.
  unfold __unpackRawData.
  repeat first [ apply adds_reorder | quiet_step ].
Qed.

Lemma adds_getColumns_inner : adds 1 (__getColumns rm ty env).
Proof.
  unfold __getColumns.
  apply adds_bind0; [apply adds_self | intros o].
  apply adds_bind0; [apply adds_not_none | intros d].
  apply adds_bind0; [apply (adds_send (EvSparql _)) | intros _].
  apply adds_bind0; [apply adds_assign | intros _].
  apply adds_bind0; [apply adds_not_none | intros f].
  apply adds_bind0; [apply adds_not_none | intros first].
  cbn zeta.
  apply adds_bind0.
  - destruct (local_store env _).
    + repeat first [ apply adds_getPayload | quiet_step ].
    + repeat quiet_step.
  - intros content.
    apply (adds_bind 1 0); [apply adds_portalUse | intros _].
    apply adds_unpackRawData.
Qed.

Lemma fails_portalUse_unreachable :
  fails (__portalUse (with_portaluse env Unreachable)).
Proof.
  unfold __portalUse.
  repeat (apply fails_bind_r; intros ?).
  intros o tr. cbn. eexists _, _, _. reflexivity.
Qed.

(** C5 (amended).  A fetch that returns a table has sent exactly one
    usage request.  The status the usage log answers with is ignored:
    the fetch does what it does when the answer is 200.  But when the
    usage request itself raises, because the log cannot be reached, the
    fetch raises as well and returns no table. *)
Theorem C5_one_usage_request_status_ignored (o : Dobj) (tr : list Event) :
  (forall t o' tr',
      __getColumns rm ty env o tr = (Ok t, o', tr') ->
      uses tr' = 1 + uses tr)
  /\ (forall status body,
         __getColumns rm ty (with_portaluse env (Response status body)) o tr
         = __getColumns rm ty (with_portaluse env (Response 200 [])) o tr)
  /\ (exists e o' tr',
         __getColumns rm ty (with_portaluse env Unreachable) o tr
         = (Raise e, o', tr')).
Proof.
  split; [| split].
  - intros t o' tr' H. exact (adds_getColumns_inner _ _ _ _ _ H).
  - intros status body. reflexivity.
  - revert o tr. change (fails (__getColumns rm ty
                                  (with_portaluse env Unreachable))).
    unfold __getColumns.
    do 6 (apply fails_bind_r; intros ?). cbn zeta.
    apply fails_bind_r. intros content.
    apply fails_bind_l. apply fails_portalUse_unreachable.
Qed.

(** *** Local file and data portal *)

Ltac inner_destruct H :=
  match type of H with
  | context [match ?x with _ => _ end] =>
      lazymatch x with
      | context [match _ with _ => _ end] => fail
      | _ => destruct x eqn:?
      end
  end.

(** What a successful [__getPayload] writes depends on the identifier,
    the byte order and the metadata only, once no selection is set: run
    on another object with the same identifier and byte order, it
    succeeds and writes the same. *)
Lemma getPayload_inputs (o1 o1' o2 : Dobj) (tr1 tr1' tr2 : list Event) :
  __getPayload rm ty env o1 tr1 = (Ok tt, o1', tr1') ->
  _dobjSet o1 = true ->
  _dobjValid o1' = true ->
  _dobjSet o2 = true ->
  _dobj o2 = _dobj o1 ->
  _endian o2 = _endian o1 ->
  falsy (_colSelected o1) = true ->
  falsy (_colSelected o2) = true ->
  fst (__getPayload rm ty env o2 tr2) = (Ok tt, copy_outputs o1' o2).
Proof.
  intros H Hs1 Hv Hs2 Hd He Hf1 Hf2.
  unfold __getPayload, resolve_columnNames, bind, self, assign, send,
    not_none, ret, raise in *.
  rewrite Hs2. rewrite Hs1 in H. cbn in *. rewrite Hd.
  destruct (_dobj o1) as [d |]; [| discriminate]. cbn in *.
  destruct (sparql_info env d) as [| raw0 rest]; cbn in *.
  { injection H as <- <-. cbn in Hv. discriminate. }
  repeat (cbn in H |- *; rewrite ?Hf1 in H; rewrite ?Hf2, ?He;
          try discriminate H; inner_destruct H).
  all: cbn in H |- *; rewrite ?Hf1 in H; rewrite ?Hf2, ?He;
    try discriminate H.
  all: injection H as <- _; f_equal; destruct o1, o2; cbn in *; subst;
    reflexivity.
Qed.

Lemma dobj_setter_truthy (id : string) (o : Dobj) (tr : list Event) :
  ident_truthy (IdStr id) = true ->
  dobj_setter rm ty env (IdStr id) o tr
  = __getPayload rm ty env
      (set_dobjSet true (set_dobj_attr (Some id) o)) tr.
Proof. unfold dobj_setter. intros ->. reflexivity. Qed.

Lemma unpack_columns_islocal (x : option bool) (o : Dobj)
  (data : list Scalar) (rows idx : nat) (sel : list nat) (df : Table) :
  unpack_columns (set_islocal x o) data rows idx sel df
  = unpack_columns o data rows idx sel df.
Proof.
  revert idx df. induction sel as [| c r IH]; intros idx df;
    [reflexivity |].
  cbn [unpack_columns].
  replace (unpack_column (set_islocal x o) data rows idx c df)
    with (unpack_column o data rows idx c df) by reflexivity.
  destruct (unpack_column o data rows idx c df); [apply IH | reflexivity].
Qed.

(** [reorder] returns or raises without touching the object or the log. *)
Lemma reorder_run (c : ColumnNames) (df : Table) :
  exists r, forall o tr, reorder c df o tr = (r, o, tr).
Proof.
  destruct c as [| [| a s] | [| n l]];
    try (eexists; intros; reflexivity).
  - unfold reorder, bind, not_none.
    destruct (get_column (String a s) df); eexists; intros; reflexivity.
  - unfold reorder, not_none.
    destruct (getitem_list (n :: l) df); eexists; intros; reflexivity.
Qed.

(** The decoder does not look at [_islocal] or at the log. *)
Lemma unpackRawData_islocal (raw : bytes) (x : option bool) (o : Dobj)
  (tr tr' : list Event) :
  fst (fst (__unpackRawData raw (set_islocal x o) tr))
  = fst (fst (__unpackRawData raw o tr')).
Proof.
  unfold __unpackRawData, bind, self, not_none, ret, raise, assign. cbn.
  destruct (_dtypeStruct o); [| reflexivity]. cbn.
  destruct (unpack_from p raw); [| reflexivity]. cbn.
  destruct (_info1 o) as [[| row0 [|]] |]; try reflexivity. cbn.
  destruct (_colSelected o) as [sel |]; [| reflexivity].
  rewrite unpack_columns_islocal.
  destruct (unpack_columns o a (nRows row0) 0 sel []) as [df |];
    [| reflexivity].
  unfold convert_times. cbn.
  destruct (reorder_run (columnNames row0)
              (if _dtconvert o
               then convert_column "time" ToTimeOfDay
                      (convert_column "date" ToDatetimeD
                         (convert_column "TIMESTAMP" ToDatetimeMs df))
               else df)) as [r Hr].
  rewrite !Hr. destruct r; [| reflexivity].
  destruct (_datapersistent o); reflexivity.
Qed.

Lemma portalUse_ok (e : Env) (o : Dobj) (tr : list Event) (d : string)
  (f : Frame) :
  _dobj o = Some d ->
  _dobjValid o = true ->
  _info2 o = Some f ->
  (forall c, portaluse e c <> Unreachable) ->
  exists ev, __portalUse e o tr = (Ok tt, o, tr ++ [ev]).
Proof.
  intros Hd Hv Hf Hu.
  unfold __portalUse, colNames_tolist, bind, self, not_none, ret, raise,
    send.
  rewrite Hd. cbn. rewrite Hv, Hf. cbn.
  match goal with
  | |- context [portaluse e ?c] =>
      pose proof (Hu c) as Hc; destruct (portaluse e c)
  end.
  - eexists. reflexivity.
  - contradiction Hc. reflexivity.
Qed.

Lemma getColumns_inner_local_remote
  (id : string) (o0 o : Dobj) (tr0 tr1 tr : list Event)
  (content : bytes) (status : nat) :
  ident_truthy (IdStr id) = true ->
  falsy (_colSelected o0) = true ->
  dobj_setter rm ty env (IdStr id) o0 tr0 = (Ok tt, o, tr1) ->
  _dobjValid o = true ->
  is_error_status status = false ->
  (forall c, portaluse env c <> Unreachable) ->
  fst (fst (__getColumns rm ty (with_local env content) o tr))
  = fst (fst (__getColumns rm ty (with_remote env status content) o tr)).
Proof.
  intros Ht Hf0 Hset Hv Hst Hu.
  rewrite dobj_setter_truthy in Hset by exact Ht.
  set (o1 := set_dobjSet true (set_dobj_attr (Some id) o0)) in *.
  assert (Hin : forall o2 tr2,
             _dobjSet o2 = true -> _dobj o2 = Some id ->
             _endian o2 = _endian o0 -> falsy (_colSelected o2) = true ->
             fst (__getPayload rm ty env o2 tr2)
             = (Ok tt, copy_outputs o o2)).
  { intros o2 tr2 H1 H2 H3 H4.
    apply (getPayload_inputs o1 o o2 tr0 tr1 tr2 Hset); auto. }
  assert (Ho : o = copy_outputs o o1).
  { pose proof (Hin o1 tr0 eq_refl eq_refl eq_refl Hf0) as G.
    rewrite Hset in G. cbn in G. congruence. }
  assert (Hd : _dobj o = Some id) by (rewrite Ho; reflexivity).
  assert (Hs : _dobjSet o = true) by (rewrite Ho; reflexivity).
  assert (He : _endian o = _endian o0) by (rewrite Ho; reflexivity).
  unfold __getColumns, bind, self, not_none, send, assign, ret, raise.
  rewrite Hd.
  destruct (_info2 o) as [f |] eqn:Hf; [| reflexivity].
  destruct (hd_error (frame_rows f)) as [first |] eqn:Hh; [| reflexivity].
  cbn [with_local with_remote local_store tabular]. rewrite Hst.
  change (__getPayload rm ty (with_local env content))
    with (__getPayload rm ty env).
  change (sparql_station (with_local env content) id)
    with (sparql_station env id).
  change (sparql_station (with_remote env status content) id)
    with (sparql_station env id).
  set (y := Some (sparql_station env id)).
  match goal with
  | |- context [__getPayload rm ty env ?S ?T] =>
      pose proof (Hin S T Hs Hd He eq_refl) as G;
      destruct (__getPayload rm ty env S T) as [[r oo] tt']
  end.
  cbn in G. injection G as -> ->.
  replace (copy_outputs o
             (set_colSelected None
                (set_islocal (Some true) (set_info3 y o))))
    with (set_islocal (Some true) (set_info3 y o))
    by (destruct o; reflexivity).
  destruct (portalUse_ok (with_local env content)
              (set_islocal (Some true) (set_info3 y o)) tt' id f
              Hd Hv Hf Hu) as [ev ->].
  destruct (portalUse_ok (with_remote env status content)
              (set_islocal (Some false) (set_info3 y o))
              ((tr ++ [EvSparql (dobjStation id)])
                 ++ [EvTabular (_json o)])
              id f Hd Hv Hf Hu) as [ev' ->].
  transitivity (fst (fst (__unpackRawData content (set_info3 y o) []))).
  - apply unpackRawData_islocal.
  - symmetry. apply unpackRawData_islocal.
Qed.

(** C4 (amended).  Take an object that has just been bound to an
    identifier with no column selection and is valid, and a usage log
    that answers.  Then [get()] returns the same thing whether the local
    file exists and holds [content], or no local file exists and the
    portal answers a non-error status with the body [content].  (With a
    narrower selection the two differ: the local path discards the
    selection and decodes every column.) *)
Theorem C4_local_and_remote_agree_on_all_columns
  (id : string) (o0 o : Dobj) (tr0 tr1 tr : list Event)
  (content : bytes) (status : nat) :
  ident_truthy (IdStr id) = true ->
  falsy (_colSelected o0) = true ->
  dobj_setter rm ty env (IdStr id) o0 tr0 = (Ok tt, o, tr1) ->
  _dobjValid o = true ->
  is_error_status status = false ->
  (forall c, portaluse env c <> Unreachable) ->
  fst (fst (get rm ty (with_local env content) o tr))
  = fst (fst (get rm ty (with_remote env status content) o tr)).
Proof.
  intros Ht Hf0 Hset Hv Hst Hu.
  pose proof (getColumns_inner_local_remote id o0 o tr0 tr1 tr content
                status Ht Hf0 Hset Hv Hst Hu) as G.
  unfold get, getColumns, bind, self, ret.
  destruct (negb (table_empty (_data o)) && _datapersistent o);
    [reflexivity |].
  rewrite Hv. cbn [falsy andb].
  destruct (__getColumns rm ty (with_local env content) o tr)
    as [[r1 o1] t1].
  destruct (__getColumns rm ty (with_remote env status content) o tr)
    as [[r2 o2] t2].
  cbn in G. subst r2. destruct r1; reflexivity.
Qed.

(** *** The order of the columns *)

Lemma columns_getitem_list (l : list string) (t t' : Table) :
  getitem_list l t = Some t' -> columns t' = l.
Proof.
  revert t'. induction l as [| n l IH]; intros t' H; cbn in H.
  - injection H as <-. reflexivity.
  - destruct (get_column n t); [| discriminate].
    destruct (getitem_list l t) as [t'' |]; [| discriminate].
    injection H as <-. cbn. f_equal. apply IH. reflexivity.
Qed.

(** Where the decoder returns a table and row 0 of the metadata holds a
    non-empty list of declared names, the columns of the table are that
    list, in its order. *)
Lemma unpackRawData_declared_order
  (raw : bytes) (o o' : Dobj) (tr tr' : list Event) (t : Table)
  (row0 : Info1Row) (n : string) (l : list string) :
  __unpackRawData raw o tr = (Ok t, o', tr') ->
  _info1 o = Some [row0] ->
  columnNames row0 = CList (n :: l) ->
  columns t = n :: l.
Proof.
  intros H Hi Hc.
  unfold __unpackRawData, bind, self, not_none, ret, raise, assign in H.
  destruct (_dtypeStruct o); [| discriminate]. cbn in H.
  destruct (unpack_from p raw); [| discriminate]. cbn in H.
  rewrite Hi in H. cbn in H. rewrite Hc in H.
  destruct (match _colSelected o with
            | Some sel => unpack_columns o a (nRows row0) 0 sel []
            | None => None
            end) as [df |]; [| discriminate].
  unfold reorder, not_none in H.
  destruct (getitem_list (n :: l) (convert_times o df)) as [t0 |] eqn:E;
    [| discriminate].
  apply columns_getitem_list in E.
  cbn in H. destruct (_datapersistent o); cbn in H;
    injection H as <- _ _; exact E.
Qed.

End Properties.

(** ** The properties on the sample object *)

Import Sample.

Ltac by_computation := vm_compute; reflexivity.
Ltac conjuncts := repeat match goal with |- _ /\ _ => split end.

(** A buffer one byte short is refused, and a buffer with one byte too
    many is decoded as the buffer cut to the twelve bytes of the plan. *)
Lemma C1_witness :
  __unpackRawData (firstn 11 payload) (fresh None) []
  = (Raise StructError, fresh None, [])
  /\ __unpackRawData (payload ++ [Byte.x00]) (fresh None) []
     = __unpackRawData (firstn 12 (payload ++ [Byte.x00])) (fresh None) [].
Proof.
  split.
  - destruct (C1_buffer_shorter_fails_longer_is_cut (fresh None) Big
                [0; 1; 2] [INT32; INT32; INT32] 1
                [(INT32, 1); (INT32, 1); (INT32, 1)]
                (firstn 11 payload) [] eq_refl
                ltac:(by_computation)) as (kinds & Hk & Hshort & _).
    vm_compute in Hk. injection Hk as <-.
    apply Hshort. vm_compute. lia.
  - destruct (C1_buffer_shorter_fails_longer_is_cut (fresh None) Big
                [0; 1; 2] [INT32; INT32; INT32] 1
                [(INT32, 1); (INT32, 1); (INT32, 1)]
                (payload ++ [Byte.x00]) [] eq_refl
                ltac:(by_computation)) as (kinds & Hk & _ & Hlong).
    vm_compute in Hk. injection Hk as <-.
    apply Hlong. vm_compute. lia.
Defined.

(** The plan of the sample object implies twelve bytes.  A buffer of
    thirteen is decoded all the same, the last byte ignored. *)
Lemma C1_counterexample :
  option_map calcsize (_dtypeStruct (fresh None)) = Some 12
  /\ List.length (payload ++ [Byte.x00]) = 13
  /\ result_of (__unpackRawData (payload ++ [Byte.x00]) (fresh None) [])
     = Ok table_abc.
Proof. cbv zeta. conjuncts; by_computation. Qed.

Lemma C2_witness :
  exists o' f',
    resolve_columnNames literal_match
      {| raw_dobj := oid; raw_objSpec := "spec1"; raw_nRows := 1;
         raw_columnNames := Some "[a, c, d]" |} []
      (set_info2 (Some (reindex declared)) init_attrs) []
    = (Ok tt, o', [])
    /\ _info2 o' = Some f'
    /\ forall c,
        count_occ string_dec (frame_names (sort_by_name f')) c
        = if PyStr.mem c (clean_columnNames "[a, c, d]")
          then count_occ string_dec (map colName declared) c
          else 0.
Proof.
  apply (C2_realized_names_not_validated literal_match
           {| raw_dobj := oid; raw_objSpec := "spec1"; raw_nRows := 1;
              raw_columnNames := Some "[a, c, d]" |} [] "[a, c, d]"
           declared (set_info2 (Some (reindex declared)) init_attrs) []).
  - reflexivity.
  - reflexivity.
  - intros r [<- | [<- | [<- | []]]]; reflexivity.
Defined.

(** The realized list names a column d that no declared column gives.
    Resolution succeeds all the same: the object is valid, its schema
    holds a, b and c, and the plan is built. *)
Lemma C2_counterexample :
  let x := init literal_match types
             (world (Some "[b, a, c, d]") false fine) (IdStr oid) in
  result_of x = Ok tt
  /\ _dobjValid (state_of x) = true
  /\ option_map (map columnNames) (_info1 (state_of x))
     = Some [CList ["b"; "a"; "c"; "d"]]
  /\ option_map frame_names (_info2 (state_of x)) = Some ["a"; "b"; "c"]
  /\ _dtypeStruct (state_of x)
     = Some (mkPlan Big [(INT32, 1); (INT32, 1); (INT32, 1)]).
Proof. cbv zeta. conjuncts; by_computation. Qed.

Lemma C3_witness :
  getColumns literal_match types (world None false fine)
    (Some [SelIdx 0]) (loaded None) []
  = (Ok (RTable (_data (loaded None))), loaded None, []).
Proof.
  apply C3_cached_table_returned; by_computation.
Defined.

(** After a first [get()] the three columns are cached.  Asking for
    column 0 alone returns the cached table of three columns; the
    selection stays as it was and nothing is fetched. *)
Lemma C3_counterexample :
  let x := getColumns literal_match types (world None false fine)
             (Some [SelIdx 0]) (loaded None) [] in
  _dobjValid (loaded None) = true
  /\ _datapersistent (loaded None) = true
  /\ result_of x = Ok (RTable table_abc)
  /\ columns table_abc <> ["a"]
  /\ _colSelected (state_of x) = Some [0; 1; 2]
  /\ snd x = [].
Proof.
  cbv zeta. conjuncts; try by_computation. discriminate.
Qed.

Lemma C4_witness :
  result_of (get literal_match types
               (with_local (world None false fine) payload) (fresh None) [])
  = result_of (get literal_match types
                 (with_remote (world None false fine) 200 payload)
                 (fresh None) []).
Proof.
  apply (C4_local_and_remote_agree_on_all_columns literal_match types
           (world None false fine) oid init_attrs (fresh None) []
           [EvSparql (cpbGetInfo oid); EvSparql (cpbGetSchemaDetail "spec1");
            EvSparql (get_icos_citation oid)] [] payload 200).
  - reflexivity.
  - reflexivity.
  - by_computation.
  - by_computation.
  - reflexivity.
  - intros c. discriminate.
Defined.

(** With column 0 selected, the local file gives the table of all three
    columns and the portal the table of column a alone. *)
Lemma C4_counterexample :
  result_of (getColumns literal_match types (world None true fine)
               (Some [SelIdx 0]) (fresh None) [])
  = Ok (RTable table_abc)
  /\ result_of (getColumns literal_match types (world None false fine)
                  (Some [SelIdx 0]) (fresh None) [])
     = Ok (RTable [("a", [SInt 1])]).
Proof. cbv zeta. conjuncts; by_computation. Qed.

Lemma C5_witness :
  uses (snd (__getColumns literal_match types (world None false fine)
               (fresh None) []))
  = 1 + uses [].
Proof.
  apply (proj1 (C5_one_usage_request_status_ignored literal_match types
                  (world None false fine) (fresh None) [])
           table_abc (loaded None)).
  by_computation.
Defined.

(** The payload is fetched, the usage log cannot be reached, and the
    data-access call raises instead of returning the table it returns
    when the log answers. *)
Lemma C5_counterexample :
  result_of (get literal_match types (world None false Unreachable)
               (fresh None) [])
  = Raise ConnectionError
  /\ result_of (get literal_match types (world None false fine)
                  (fresh None) [])
     = Ok (RTable table_abc).
Proof. cbv zeta. conjuncts; by_computation. Qed.

Lemma C6_witness :
  exists sel,
    __setColumns (Some [SelIdx 0; SelIdx 99]) (fresh None) []
    = (Ok true, set_colSelected (Some sel) (fresh None), [])
    /\ NoDup sel
    /\ forall i,
        In i sel <->
        exists c, In c [SelIdx 0; SelIdx 99]
                  /\ resolve_selector
                       (map PyStr.upper (frame_names wire)) c = Some i.
Proof.
  apply (proj1 (C6_unresolved_entries_skipped (fresh None) [])
           wire (SelIdx 0) [SelIdx 99] 0); by_computation.
Defined.

(** A list whose first entry stands for no column leaves the local [idx]
    unbound where line 447 reads it. *)
Example setColumns_first_entry_unresolved :
  result_of (__setColumns (Some [SelIdx 99]) (fresh None) [])
  = Raise UnboundLocalError.
Proof. by_computation. Qed.

(** Three columns, all selected.  The list names index 0 and the index
    99, which is out of range: success is reported and the selection
    becomes column 0 alone. *)
Lemma C6_counterexample :
  _dobjValid (fresh None) = true
  /\ _colSelected (fresh None) = Some [0; 1; 2]
  /\ __setColumns (Some [SelIdx 0; SelIdx 99]) (fresh None) []
     = (Ok true, set_colSelected (Some [0]) (fresh None), []).
Proof. cbv zeta. conjuncts; by_computation. Qed.

(** Two patterns match the one realized name ab: the resolved schema
    holds the name twice, once with each pattern's format. *)
Lemma C7_counterexample :
  let x := init literal_match types
             (world_with patterns (Some "[ab]") false fine) (IdStr oid) in
  result_of x = Ok tt
  /\ option_map frame_rows (_info2 (state_of x))
     = Some [column "ab" "int32" None; column "ab" "float32" None].
Proof. cbv zeta. conjuncts; by_computation. Qed.

(** C8.  Declared order b, a, c; the wire order is a, b, c.  With every
    column selected the table comes in the declared order.  With column a
    alone selected, the reordering step asks the table for b and c as well
    and the call raises KeyError: no table is returned. *)
Theorem C8_reorder_fails_on_a_narrower_selection :
  result_of (get literal_match types (world (Some "[b, a, c]") false fine)
               (fresh (Some "[b, a, c]")) [])
  = Ok (RTable [("b", [SInt 2]); ("a", [SInt 1]); ("c", [SInt 3])])
  /\ option_map frame_names (_info2 (fresh (Some "[b, a, c]")))
     = Some ["a"; "b"; "c"]
  /\ result_of (getColumns literal_match types
                  (world (Some "[b, a, c]") false fine)
                  (Some [SelName "a"]) (fresh (Some "[b, a, c]")) [])
     = Raise KeyError.
Proof. cbv zeta. conjuncts; by_computation. Qed.

Lemma C9_witness :
  exists o1,
    dobj_setter literal_match types (world None false fine)
      (IdStr unknown) init_attrs []
    = (Ok tt, o1, [] ++ [EvSparql (cpbGetInfo unknown)])
    /\ _dobjValid o1 = false
    /\ forall calls,
        getColumns_all literal_match types (world None false fine) calls o1
          ([] ++ [EvSparql (cpbGetInfo unknown)])
        = (map (fun _ => Ok RFalse) calls, o1,
           [] ++ [EvSparql (cpbGetInfo unknown)]).
Proof.
  apply C9_no_metadata_negative_result; reflexivity.
Defined.

(** The object holds the table of a first identifier.  It is then bound
    to an identifier without metadata and is not valid any more, yet
    [get()] returns the cached table. *)
Lemma C9_counterexample :
  let x := dobj_setter literal_match types (world None false fine)
             (IdStr unknown) (loaded None) [] in
  sparql_info (world None false fine) unknown = []
  /\ result_of x = Ok tt
  /\ _dobjValid (state_of x) = false
  /\ result_of (get literal_match types (world None false fine)
                  (state_of x) (snd x))
     = Ok (RTable table_abc).
Proof. cbv zeta. conjuncts; by_computation. Qed.

Lemma C10_witness :
  dobj_setter literal_match types (world None false fine) IdNone
    (loaded None) []
  = (Ok tt, set_dobjSet false (loaded None), [])
  /\ _dobj (set_dobjSet false (loaded None)) = _dobj (loaded None)
  /\ _dobjValid (set_dobjSet false (loaded None)) = _dobjValid (loaded None)
  /\ _colSelected (set_dobjSet false (loaded None))
     = _colSelected (loaded None)
  /\ _data (set_dobjSet false (loaded None)) = _data (loaded None)
  /\ set_dobjSet (_dobjSet (loaded None)) (set_dobjSet false (loaded None))
     = loaded None.
Proof.
  apply C10_falsy_identifier_frame. reflexivity.
Defined.

(** * Further properties of [Dobj] *)

(** ** Column selection: what [__setColumns] accepts *)

Section Selection.

Lemma index_spec (s : string) (l : list string) (i : nat) :
  PyStr.index s l = Some i <->
  nth_error l i = Some s
  /\ forall j m, j < i -> nth_error l j = Some m -> m <> s.
Proof.
  revert i. induction l as [| x l IH]; intros i; cbn [PyStr.index].
  - split; [discriminate |]. intros [H _]. destruct i; discriminate.
  - destruct (String.eqb_spec x s) as [-> | Hn].
    + split.
      * intros [= <-]. split; [reflexivity |]. intros j m Hj. lia.
      * intros [Hi Hf]. destruct i as [| i]; [reflexivity |].
        exfalso. apply (Hf 0 s); [lia | reflexivity | reflexivity].
    + destruct (PyStr.index s l) as [k |]; cbn [option_map].
      * split.
        -- intros [= <-]. destruct (proj1 (IH k) eq_refl) as [E1 E2].
           split; [exact E1 |].
           intros [| j] m Hj Hm; cbn in Hm.
           ++ injection Hm as <-. exact Hn.
           ++ apply (E2 j m); [lia | exact Hm].
        -- intros [Hi Hf]. destruct i as [| i]; cbn in Hi.
           ++ injection Hi as ->. contradiction Hn. reflexivity.
           ++ assert (G : Some k = Some i); [| congruence].
              apply IH. split; [exact Hi |].
              intros j m Hj Hm. apply (Hf (S j) m); [lia | exact Hm].
      * split; [discriminate |]. intros [Hi Hf].
        destruct i as [| i]; cbn in Hi.
        -- injection Hi as ->. contradiction Hn. reflexivity.
        -- assert (G : None = Some i); [| discriminate].
           apply IH. split; [exact Hi |].
           intros j m Hj Hm. apply (Hf (S j) m); [lia | exact Hm].
Qed.

Lemma mem_In (s : string) (l : list string) :
  PyStr.mem s l = true <-> In s l.
Proof.
  unfold PyStr.mem. rewrite existsb_exists. split.
  - intros (x & Hx & E). apply String.eqb_eq in E. subst. exact Hx.
  - intros H. exists s. split; [exact H | apply String.eqb_refl].
Qed.

Lemma resolve_selector_lt (names : list string) (c : Selector) (i : nat) :
  resolve_selector names c = Some i -> i < List.length names.
Proof.
  destruct c as [s | z |]; cbn [resolve_selector]; [| | discriminate].
  - destruct (PyStr.mem (PyStr.upper s) names); [| discriminate].
    intros H. apply index_spec in H as [H _].
    apply nth_error_Some. congruence.
  - destruct ((0 <=? z)%Z && (z <? Z.of_nat (List.length names))%Z) eqn:E;
      [| discriminate].
    intros [= <-]. apply andb_true_iff in E as [E1 E2]. lia.
Qed.

(** X1.  A name selects the first column whose name agrees with it once
    both are upper-cased, and nothing when no column does. *)
Theorem name_selects_first_column_ignoring_case
  (names : list string) (s : string) (i : nat) :
  resolve_selector (map PyStr.upper names) (SelName s) = Some i <->
  (exists n, nth_error names i = Some n
             /\ PyStr.upper n = PyStr.upper s)
  /\ forall j m, j < i -> nth_error names j = Some m ->
                 PyStr.upper m <> PyStr.upper s.
Proof.
  cbn [resolve_selector].
  assert (Hidx : PyStr.index (PyStr.upper s) (map PyStr.upper names) = Some i
                 <-> (exists n, nth_error names i = Some n
                                /\ PyStr.upper n = PyStr.upper s)
                     /\ forall j m, j < i -> nth_error names j = Some m ->
                                    PyStr.upper m <> PyStr.upper s).
  { rewrite index_spec. split.
    - intros [H1 H2]. split.
      + rewrite nth_error_map in H1.
        destruct (nth_error names i) as [n |]; [| discriminate].
        exists n. split; [reflexivity |]. cbn in H1. congruence.
      + intros j m Hj Hm. apply (H2 j); [exact Hj |].
        rewrite nth_error_map, Hm. reflexivity.
    - intros [(n & H1 & H2) H3]. split.
      + rewrite nth_error_map, H1. cbn. congruence.
      + intros j m Hj Hm. rewrite nth_error_map in Hm.
        destruct (nth_error names j) as [m' |] eqn:E; [| discriminate].
        injection Hm as <-. apply (H3 j); [exact Hj | exact E]. }
  destruct (PyStr.mem (PyStr.upper s) (map PyStr.upper names)) eqn:E;
    [exact Hidx |].
  split; [discriminate |]. intros H. exfalso.
  apply Hidx, index_spec in H as [H _].
  apply nth_error_In, mem_In in H. congruence.
Qed.

(** The three ways [__setColumns] ends on a valid object given a list. *)
Lemma select_loop_first_unresolved (names : list string) (c : Selector)
  (r : list Selector) :
  resolve_selector names c = None ->
  select_loop names (c :: r) None [] = Raise UnboundLocalError.
Proof. intros H. cbn [select_loop]. rewrite H. reflexivity. Qed.

Lemma setColumns_run
  (o : Dobj) (f : Frame) (l : list Selector) (tr : list Event) :
  _dobjValid o = true ->
  _info2 o = Some f ->
  __setColumns (Some l) o tr
  = match select_loop (map PyStr.upper (frame_names f)) l None [] with
    | Raise e => (Raise e, o, tr)
    | Ok [] => (Ok false, o, tr)
    | Ok sel => (Ok true, set_colSelected (Some sel) o, tr)
    end.
Proof.
  intros Hv Hf.
  unfold __setColumns, colNames_tolist, bind, self, ret, raise, assign,
    not_none.
  rewrite Hv. cbn. rewrite Hv, Hf. cbn.
  destruct (select_loop _ l None []) as [[| x sel] | e]; reflexivity.
Qed.

(** X2.  On a valid object: the empty list is answered [False]; a list
    whose first entry stands for no column raises UnboundLocalError; any
    other list is answered [True].  In the first two cases the object is
    left as it was. *)
Theorem setColumns_outcomes
  (o : Dobj) (f : Frame) (l : list Selector) (tr : list Event) :
  _dobjValid o = true ->
  _info2 o = Some f ->
  match l with
  | [] => __setColumns (Some l) o tr = (Ok false, o, tr)
  | c :: _ =>
      match resolve_selector (map PyStr.upper (frame_names f)) c with
      | None => __setColumns (Some l) o tr = (Raise UnboundLocalError, o, tr)
      | Some _ => fst (fst (__setColumns (Some l) o tr)) = Ok true
      end
  end.
Proof.
  intros Hv Hf.
  pose proof (setColumns_run o f l tr Hv Hf) as Hrun.
  destruct l as [| c r]; [rewrite Hrun; reflexivity |].
  destruct (resolve_selector _ c) as [i |] eqn:Hc.
  - rewrite Hrun. cbn [select_loop]. rewrite Hc. cbn.
    rewrite select_loop_bound by (left; reflexivity).
    destruct (fold_add_new (resolved (map PyStr.upper (frame_names f)) r)
                [i]) as [_ Hin]; [repeat constructor; intros [] |].
    destruct (fold_left add_new _ [i]); [| reflexivity].
    destruct (proj2 (Hin i) (or_introl (or_introl eq_refl))).
  - rewrite Hrun, select_loop_first_unresolved by exact Hc. reflexivity.
Qed.

(** X3.  A selection [__setColumns] accepts is never empty, names no
    column twice, and names only positions the schema has; the object
    changes in its selection alone. *)
Theorem accepted_selection_is_in_range
  (l : list Selector) (o o' : Dobj) (tr tr' : list Event) :
  __setColumns (Some l) o tr = (Ok true, o', tr') ->
  exists f sel,
    _info2 o = Some f
    /\ o' = set_colSelected (Some sel) o
    /\ tr' = tr
    /\ sel <> []
    /\ NoDup sel
    /\ Forall (fun i => i < List.length f) sel.
Proof.
  intros H.
  destruct (_dobjValid o) eqn:Hv.
  2:{ unfold __setColumns, bind, self, ret in H. rewrite Hv in H.
      discriminate. }
  destruct (_info2 o) as [f |] eqn:Hf.
  2:{ unfold __setColumns, colNames_tolist, bind, self, ret, raise,
        not_none in H.
      rewrite Hv in H. cbn in H. rewrite Hv, Hf in H. discriminate. }
  pose proof (setColumns_run o f l tr Hv Hf) as Hout.
  exists f.
  set (names := map PyStr.upper (frame_names f)) in *.
  destruct l as [| c r]; [rewrite Hout in H; discriminate |].
  destruct (resolve_selector names c) as [i |] eqn:Hc;
    [| rewrite Hout, select_loop_first_unresolved in H by exact Hc;
       discriminate].
  clear Hout.
  unfold __setColumns, colNames_tolist, bind, self, ret, raise, assign,
    not_none in H.
  rewrite Hv in H. cbn in H. rewrite Hv, Hf in H. cbn in H.
  fold names in H. rewrite Hc in H.
  rewrite select_loop_bound in H by (left; reflexivity).
  destruct (fold_add_new (resolved names r) [i]) as [Hn Hin];
    [repeat constructor; intros [] |].
  destruct (fold_left add_new (resolved names r) [i]) as [| x sel] eqn:E;
    [discriminate |].
  injection H as <- <-. exists (x :: sel).
  repeat split; try assumption; [discriminate |].
  apply Forall_forall. intros j Hj. apply Hin in Hj.
  assert (Hlen : List.length names = List.length f).
  { unfold names, frame_names, frame_rows. rewrite !length_map.
    reflexivity. }
  rewrite <- Hlen.
  destruct Hj as [[<- | []] | Hj].
  - exact (resolve_selector_lt names c i Hc).
  - unfold resolved in Hj. apply in_flat_map in Hj as (c' & _ & Hj).
    destruct (resolve_selector names c') as [k |] eqn:Hk; [| destruct Hj].
    destruct Hj as [<- | []]. exact (resolve_selector_lt names c' k Hk).
Qed.

End Selection.

(** ** What a successful [__getPayload] leaves in the object *)

From Stdlib Require Import Sorting.Sorted Sorting.Permutation.

Section Resolution.

Variable rm : string -> string -> bool.
Variable ty : string -> option DecodeKind.
Variable env : Env.

Lemma Dobj_ext (a b : Dobj) :
  _colSelected a = _colSelected b -> _endian a = _endian b ->
  _dtconvert a = _dtconvert b -> _info1 a = _info1 b ->
  _info2 a = _info2 b -> _info3 a = _info3 b ->
  _colSchema a = _colSchema b -> _dtypeStruct a = _dtypeStruct b ->
  _json a = _json b -> _islocal a = _islocal b ->
  _dobjSet a = _dobjSet b -> _dobjValid a = _dobjValid b ->
  citation a = citation b -> _dobj a = _dobj b ->
  _data a = _data b -> _datapersistent a = _datapersistent b ->
  a = b.
Proof. destruct a, b. cbn. intros. subst. reflexivity. Qed.

(** Row 0 of [self._info1] once [__getPayload] has cleaned its cell. *)
Definition cleaned_row (raw0 : Info1Raw) : Info1Row :=
  {| i1_dobj := raw_dobj raw0;
     objSpec := raw_objSpec raw0;
     nRows := raw_nRows raw0;
     columnNames := match raw_columnNames raw0 with
                    | None => CNull
                    | Some s => CList (clean_columnNames s)
                    end |}.

Ltac split_match H :=
  match type of H with
  | context [match ?x with _ => _ end] =>
      lazymatch x with
      | context [match _ with _ => _ end] => fail
      | _ => destruct x eqn:?
      end
  end.

(** The object a successful run leaves, attribute by attribute. *)
Lemma getPayload_success (o o' : Dobj) (tr tr' : list Event) :
  __getPayload rm ty env o tr = (Ok tt, o', tr') ->
  _dobjSet o = true ->
  _dobjValid o' = true ->
  exists d raw0 rest f0 schema sel items first c cs,
    _dobj o = Some d
    /\ sparql_info env d = raw0 :: rest
    /\ o' = mkDobj (Some sel) (_endian o) (_dtconvert o)
              (Some (cleaned_row raw0 :: map info1_of_raw rest))
              (Some (sort_by_name f0)) (_info3 o) (Some schema)
              (Some (mkPlan (_endian o) items))
              (Some {| tableId :=
                         PyStr.last_field PyStr.slash (raw_dobj raw0);
                       schema_columns := schema;
                       schema_size := raw_nRows raw0;
                       columnNumbers := sel;
                       subFolder :=
                         PyStr.last_field PyStr.slash (objFormat first) |})
              (_islocal o) true true (Some (citation_text c)) (_dobj o)
              (_data o) (_datapersistent o)
    /\ (raw_columnNames raw0 = None ->
        f0 = reindex (sparql_schema env (raw_objSpec raw0)))
    /\ colSchema_loop ty (map valFormat (frame_rows (sort_by_name f0))) []
       = (Ok tt, schema)
    /\ sel = (if falsy (_colSelected o)
              then seq 0 (List.length (sort_by_name f0))
              else match _colSelected o with Some l => l | None => [] end)
    /\ dtypeStruct_loop sel schema (raw_nRows raw0) = Some items
    /\ hd_error (frame_rows (sort_by_name f0)) = Some first
    /\ sparql_citation env d = c :: cs
    /\ tr' = tr ++ [EvSparql (cpbGetInfo d);
                    EvSparql (cpbGetSchemaDetail (raw_objSpec raw0));
                    EvSparql (get_icos_citation d)].
Proof.
  intros H Hs Hv.
  unfold __getPayload, resolve_columnNames, bind, self, assign, send,
    not_none, ret, raise in H.
  rewrite Hs in H. cbn in H.
  destruct (_dobj o) as [d |] eqn:Hd; [| discriminate]. cbn in H.
  destruct (sparql_info env d) as [| raw0 rest] eqn:Hi; cbn in H.
  { injection H as <- <-. cbn in Hv. discriminate. }
  exists d, raw0, rest.
  repeat (cbn in H; try discriminate H; split_match H).
  all: cbn in H; try discriminate H.
  all: injection H as <- <-.
  all: do 7 eexists.
  all: split; [first [reflexivity | assumption] |];
    (split; [first [reflexivity | assumption] |]).
  all: split; [apply Dobj_ext; cbn; unfold cleaned_row, info1_of_raw;
               repeat match goal with
                 | E : raw_columnNames _ = _ |- _ => rewrite E
                 | E : _dobj _ = _ |- _ => rewrite E
                 | E : _dobjSet _ = _ |- _ => rewrite E
                 | E : _colSelected _ = _ |- _ => rewrite E
                 end; reflexivity |].
  all: repeat match goal with |- _ /\ _ => split end.
  all: repeat match goal with a : unit |- _ => destruct a end.
  all: try (intros; discriminate); try assumption; try reflexivity.
  all: rewrite <- !app_assoc; reflexivity.
Qed.

(** Insertion keeps a frame sorted by name. *)
Definition name_le (x y : nat * Info2Row) : Prop :=
  (colName (snd x) <=? colName (snd y))%string = true.

Lemma ltb_leb (a b : string) :
  (a <? b)%string = true -> (a <=? b)%string = true.
Proof.
  unfold String.ltb, String.leb.
  destruct (a ?= b)%string; intros H; first [reflexivity | discriminate H].
Qed.

Lemma not_ltb_leb (a b : string) :
  (a <? b)%string = false -> (b <=? a)%string = true.
Proof.
  unfold String.ltb, String.leb. rewrite (String.compare_antisym b a).
  destruct (a ?= b)%string; cbn; intros H;
    first [reflexivity | discriminate H].
Qed.

Lemma insert_by_name_hd (x a : nat * Info2Row) (f : Frame) :
  name_le a x -> HdRel name_le a f -> HdRel name_le a (insert_by_name x f).
Proof.
  intros Hax Hf. destruct f as [| y f]; cbn [insert_by_name].
  - constructor. exact Hax.
  - destruct (colName (snd x) <? colName (snd y))%string.
    + constructor. exact Hax.
    + constructor. inversion Hf. assumption.
Qed.

Lemma insert_by_name_sorted (x : nat * Info2Row) (f : Frame) :
  Sorted name_le f -> Sorted name_le (insert_by_name x f).
Proof.
  induction f as [| y f IH]; intros Hs; cbn [insert_by_name].
  - repeat constructor.
  - destruct (colName (snd x) <? colName (snd y))%string eqn:E.
    + constructor; [exact Hs |]. constructor. apply ltb_leb. exact E.
    + inversion Hs as [| ? ? Hs' Hh]; subst.
      constructor; [apply IH; exact Hs' |].
      apply insert_by_name_hd; [| exact Hh]. apply not_ltb_leb. exact E.
Qed.

Lemma insert_by_name_perm (x : nat * Info2Row) (f : Frame) :
  Permutation (insert_by_name x f) (x :: f).
Proof.
  induction f as [| y f IH]; cbn [insert_by_name]; [reflexivity |].
  destruct (colName (snd x) <? colName (snd y))%string; [reflexivity |].
  rewrite IH. apply perm_swap.
Qed.

Lemma sort_by_name_spec (f : Frame) :
  Sorted name_le (sort_by_name f) /\ Permutation (sort_by_name f) f.
Proof.
  unfold sort_by_name.
  enough (G : forall acc,
             Sorted name_le acc ->
             Sorted name_le (fold_left (fun a x => insert_by_name x a) f acc)
             /\ Permutation
                  (fold_left (fun a x => insert_by_name x a) f acc)
                  (acc ++ f)).
  { apply (G []). constructor. }
  induction f as [| x f IH]; intros acc Ha; cbn [fold_left].
  - rewrite app_nil_r. split; [exact Ha | reflexivity].
  - destruct (IH (insert_by_name x acc) (insert_by_name_sorted x acc Ha))
      as [H1 H2].
    split; [exact H1 |]. rewrite H2, insert_by_name_perm.
    apply Permutation_middle.
Qed.


Lemma map_opt_length {A B} (g : A -> option B) (l : list A) (l' : list B) :
  map_opt g l = Some l' -> List.length l' = List.length l.
Proof.
  revert l'. induction l as [| x l IH]; intros l' H; cbn in H.
  - injection H as <-. reflexivity.
  - destruct (g x); [| discriminate].
    destruct (map_opt g l) as [r |]; [| discriminate].
    injection H as <-. cbn. f_equal. apply IH. reflexivity.
Qed.



Lemma sorted_frame_names (f : Frame) :
  Sorted name_le f ->
  Sorted (fun a b => (a <=? b)%string = true) (frame_names f).
Proof.
  unfold frame_names, frame_rows. rewrite map_map.
  induction 1 as [| a l Hl IH Hh]; cbn; constructor; [exact IH |].
  destruct Hh; cbn; constructor. assumption.
Qed.

(** X5.  After a successful resolution the frame is in ascending order of
    the column names, the order of the wire; and when the metadata gives
    no list of realized names, its rows are exactly the declared columns,
    each once. *)
Theorem resolved_frame_is_sorted (o o' : Dobj) (tr tr' : list Event) :
  __getPayload rm ty env o tr = (Ok tt, o', tr') ->
  _dobjSet o = true ->
  _dobjValid o' = true ->
  exists d raw0 rest f,
    _dobj o = Some d
    /\ sparql_info env d = raw0 :: rest
    /\ _info2 o' = Some f
    /\ Sorted (fun a b => (a <=? b)%string = true) (frame_names f)
    /\ (raw_columnNames raw0 = None ->
        Permutation (frame_rows f) (sparql_schema env (raw_objSpec raw0))).
Proof.
  intros H Hs Hv.
  destruct (getPayload_success o o' tr tr' H Hs Hv)
    as (d & raw0 & rest & f0 & schema & sel & items & first & c & cs
        & Hd & Hi & -> & Hf0 & _).
  exists d, raw0, rest, (sort_by_name f0). cbn.
  destruct (sort_by_name_spec f0) as [Hsort Hperm].
  repeat match goal with |- _ /\ _ => split end; try assumption;
    try reflexivity.
  - apply sorted_frame_names. exact Hsort.
  - intros Hn. pose proof (Permutation_map snd Hperm) as P.
    rewrite (Hf0 Hn) in P.
    change (Permutation
              (frame_rows
                 (sort_by_name
                    (reindex (sparql_schema env (raw_objSpec raw0)))))
              (frame_rows (reindex (sparql_schema env (raw_objSpec raw0)))))
      in P.
    rewrite frame_rows_reindex in P. rewrite <- (Hf0 Hn) in P. exact P.
Qed.

(** *** Resolutions that raise *)



(** X7.  When the metadata declares no column at all, the resolution
    raises IndexError, with or without a selection, and the validity flag
    is left as it was: an empty schema never makes a valid object. *)
Theorem empty_schema_raises
  (o : Dobj) (tr : list Event) (d : string) (raw0 : Info1Raw)
  (rest : list Info1Raw) :
  _dobjSet o = true ->
  _dobj o = Some d ->
  sparql_info env d = raw0 :: rest ->
  sparql_schema env (raw_objSpec raw0) = [] ->
  exists o' tr',
    __getPayload rm ty env o tr = (Raise IndexError, o', tr')
    /\ _dobjValid o' = _dobjValid o
    /\ _data o' = _data o.
Proof.
  intros Hs Hd Hi He.
  unfold __getPayload, resolve_columnNames, bind, self, assign, send,
    not_none, ret, raise.
  rewrite Hs. cbn. rewrite Hd. cbn. rewrite Hi. cbn. rewrite He. cbn.
  destruct (raw_columnNames raw0); cbn;
    (destruct (_colSelected o) as [[| x l] |] eqn:Hc; cbn;
     [| destruct x | ]; cbn; rewrite ?Hc; cbn;
     eexists _, _; repeat split).
Qed.

End Resolution.

(** ** Pattern columns declared after the literal columns *)

Section Patterns.

Variable rm : string -> string -> bool.

Lemma combine_seq_app (i : nat) (a b : list Info2Row) :
  combine (seq i (List.length (a ++ b))) (a ++ b)
  = combine (seq i (List.length a)) a
    ++ combine (seq (i + List.length a) (List.length b)) b.
Proof.
  revert i. induction a as [| x a IH]; intros i; cbn.
  - rewrite Nat.add_0_r. reflexivity.
  - rewrite IH. rewrite Nat.add_succ_r. reflexivity.
Qed.

(** Starting from a frame whose labels are the positions, the expansion
    loop leaves such a frame: the old rows, then the matched rows. *)
Lemma expand_one_reindex (colList : list string) (rows : list Info2Row)
  (r : Info2Row) :
  expand_one rm colList (reindex rows) r
  = reindex (rows ++ matches rm colList r).
Proof.
  unfold expand_one, matches. revert rows.
  induction colList as [| c l IH]; intros rows; cbn [fold_left filter map].
  - rewrite app_nil_r. reflexivity.
  - destruct (rm (colName r) c); [| apply IH].
    unfold concat_row. rewrite frame_rows_reindex, IH, <- app_assoc.
    reflexivity.
Qed.

Lemma expand_all_reindex (colList : list string) (rs rows : list Info2Row) :
  fold_left (expand_one rm colList) rs (reindex rows)
  = reindex (rows ++ flat_map (matches rm colList) rs).
Proof.
  revert rows. induction rs as [| r rs IH]; intros rows;
    cbn [fold_left flat_map].
  - rewrite app_nil_r. reflexivity.
  - rewrite expand_one_reindex, IH, <- app_assoc. reflexivity.
Qed.

Lemma filter_all {A} (p : A -> bool) (l : list A) :
  Forall (fun x => p x = true) l -> filter p l = l.
Proof.
  intros H. apply forallb_filter_id. apply forallb_forall.
  apply Forall_forall. exact H.
Qed.

Lemma filter_none {A} (p : A -> bool) (l : list A) :
  Forall (fun x => p x = false) l -> filter p l = [].
Proof.
  induction 1 as [| x l Hx _ IH]; cbn; [reflexivity |].
  rewrite Hx. exact IH.
Qed.

Lemma Forall_combine_snd {A B} (P : B -> Prop) (l1 : list A) (l2 : list B) :
  Forall P l2 -> Forall (fun x => P (snd x)) (combine l1 l2).
Proof.
  intros H. apply Forall_forall. intros [a b] Hx.
  apply in_combine_r in Hx. rewrite Forall_forall in H. exact (H b Hx).
Qed.

Lemma matches_realized (colList : list string) (pats : list Info2Row) :
  Forall (fun r => PyStr.mem (colName r) colList = true
                   /\ isRegex_true r = false)
    (flat_map (matches rm colList) pats).
Proof.
  apply Forall_forall. intros x Hx.
  apply in_flat_map in Hx as (r & _ & Hx). unfold matches in Hx.
  apply in_map_iff in Hx as (c & <- & Hc).
  apply filter_In in Hc as [Hc _]. split; [| reflexivity].
  cbn. apply mem_In. exact Hc.
Qed.

(** The loop of lines 249-251 over names that are all realized drops
    nothing. *)
Lemma drop_loop_all_realized (colList names : list string) (i : nat)
  (f : Frame) :
  Forall (fun n => PyStr.mem n colList = true) names ->
  drop_loop colList names i f = (Ok tt, f).
Proof.
  intros H. revert i. induction H as [| n names Hn _ IH]; intros i;
    cbn [drop_loop]; [reflexivity |].
  rewrite Hn. apply IH.
Qed.

(** The loop is right on rows whose labels are their positions, also
    when rows of greater labels and realized names follow them. *)
Lemma drop_loop_positions_then_realized
  (colList : list string) (rows : list Info2Row) (i : nat)
  (kept tail : Frame) :
  Forall (fun x => fst x < i) kept ->
  Forall (fun x => i + List.length rows <= fst x) tail ->
  Forall (fun x => PyStr.mem (colName (snd x)) colList = true) tail ->
  drop_loop colList (map colName rows ++ frame_names tail) i
    (kept ++ combine (seq i (List.length rows)) rows ++ tail)
  = (Ok tt,
     kept ++ filter (fun x => PyStr.mem (colName (snd x)) colList)
               (combine (seq i (List.length rows)) rows) ++ tail).
Proof.
  revert i kept. induction rows as [| r rows IH]; intros i kept Hk Ht Hn.
  - cbn. apply drop_loop_all_realized.
    unfold frame_names, frame_rows. rewrite map_map.
    apply Forall_map. exact Hn.
  - cbn [map app drop_loop List.length seq combine filter snd].
    assert (Ht' : Forall (fun x => S i + List.length rows <= fst x) tail).
    { eapply Forall_impl; [| exact Ht]. cbn. intros; lia. }
    destruct (PyStr.mem (colName r) colList) eqn:E.
    + replace (kept ++ (i, r)
                 :: combine (seq (S i) (List.length rows)) rows ++ tail)
        with ((kept ++ [(i, r)])
                ++ combine (seq (S i) (List.length rows)) rows ++ tail)
        by (rewrite <- app_assoc; reflexivity).
      rewrite IH; [rewrite <- app_assoc; reflexivity | | exact Ht' | exact Hn].
      apply Forall_app. split.
      * eapply Forall_impl; [| exact Hk]. cbn. intros; lia.
      * repeat constructor.
    + assert (Hl : has_label i
                (kept ++ (i, r)
                   :: combine (seq (S i) (List.length rows)) rows ++ tail)
              = true).
      { unfold has_label. rewrite existsb_app. cbn.
        rewrite Nat.eqb_refl, orb_true_r. reflexivity. }
      rewrite Hl.
      assert (Hd : drop_label i
                (kept ++ (i, r)
                   :: combine (seq (S i) (List.length rows)) rows ++ tail)
              = kept ++ combine (seq (S i) (List.length rows)) rows ++ tail).
      { unfold drop_label. rewrite filter_app. cbn.
        rewrite Nat.eqb_refl. cbn. rewrite filter_app.
        fold (drop_label i kept).
        fold (drop_label i (combine (seq (S i) (List.length rows)) rows)).
        fold (drop_label i tail).
        rewrite !drop_label_absent; [reflexivity | | |].
        - eapply Forall_impl; [| exact Ht']. cbn. intros; lia.
        - apply combine_seq_labels. lia.
        - eapply Forall_impl; [| exact Hk]. cbn. intros; lia. }
      rewrite Hd. apply IH; [| exact Ht' | exact Hn].
      eapply Forall_impl; [| exact Hk]. cbn. intros; lia.
Qed.

Lemma isRegex_count_pattern (lits pats : list Info2Row) :
  Forall (fun r => isRegex_true r = true) pats ->
  isRegex_count (reindex (lits ++ pats)) = 0 ->
  pats = [].
Proof.
  intros Hp Hc. destruct pats as [| p pats]; [reflexivity |]. exfalso.
  inversion Hp as [| ? ? Hp1 _]; subst.
  unfold isRegex_count, reindex in Hc. rewrite combine_seq_app in Hc.
  rewrite filter_app, length_app in Hc. cbn in Hc.
  unfold isRegex_true in Hp1. destruct (isRegex p); [| discriminate].
  cbn in Hc. lia.
Qed.

(** X8.  When every pattern column is declared after the literal columns,
    the step that handles a realized list never raises and leaves, in
    this order: the literal columns whose name is realized, then for
    each pattern and each realized name it matches one column of that
    name with the pattern's format.  The pattern columns themselves are
    gone, and a literal column that is not realized is dropped. *)
Theorem patterns_after_literals_resolve
  (raw0 : Info1Raw) (rest : list Info1Raw) (s : string)
  (lits pats : list Info2Row) (o : Dobj) (tr : list Event) :
  raw_columnNames raw0 = Some s ->
  _info2 o = Some (reindex (lits ++ pats)) ->
  Forall (fun r => isRegex_true r = false) lits ->
  Forall (fun r => isRegex_true r = true) pats ->
  exists o' f',
    resolve_columnNames rm raw0 rest o tr = (Ok tt, o', tr)
    /\ _info2 o' = Some f'
    /\ frame_rows f'
       = filter (fun r => PyStr.mem (colName r) (clean_columnNames s)) lits
         ++ flat_map (matches rm (clean_columnNames s)) pats.
Proof.
  intros Hs Hf Hl Hp.
  set (colList := clean_columnNames s).
  set (M := flat_map (matches rm colList) pats).
  set (k := List.length lits).
  set (n := k + List.length pats).
  (* the frame the drop loop starts from *)
  assert (Hstart :
            exists T,
              frame_rows T = M
              /\ Forall (fun x => k <= fst x) T
              /\ Forall (fun x => PyStr.mem (colName (snd x)) colList = true)
                   T
              /\ (if isRegex_count (reindex (lits ++ pats)) =? 0
                  then reindex (lits ++ pats)
                  else expand_regex rm colList (reindex (lits ++ pats)))
                 = combine (seq 0 k) lits ++ T).
  { destruct (isRegex_count (reindex (lits ++ pats)) =? 0) eqn:E.
    - apply Nat.eqb_eq, (isRegex_count_pattern lits pats Hp) in E.
      exists []. subst M. rewrite E. cbn. rewrite !app_nil_r.
      repeat split; constructor.
    - exists (combine (seq n (List.length M)) M).
      split; [apply map_snd_combine, length_seq |].
      split; [apply Forall_forall; intros [a b] Hx;
              apply in_combine_l, in_seq in Hx; cbn; lia |].
      split.
      { apply (Forall_combine_snd
                 (fun r => PyStr.mem (colName r) colList = true)).
        eapply Forall_impl; [| apply matches_realized]. cbn. tauto. }
      unfold expand_regex. rewrite frame_rows_reindex.
      assert (Hpat : filter isRegex_true (lits ++ pats) = pats).
      { rewrite filter_app, (filter_none _ _ Hl), (filter_all _ _ Hp).
        reflexivity. }
      rewrite Hpat, expand_all_reindex. fold colList. fold M.
      unfold reindex. rewrite <- app_assoc, !combine_seq_app.
      rewrite !filter_app. cbn [Nat.add]. fold k. fold n.
      rewrite filter_all, filter_none, filter_all; [reflexivity | | |].
      + apply (Forall_combine_snd
                 (fun r => negb (isRegex_true r) = true)).
        eapply Forall_impl; [| apply matches_realized]. cbn.
        intros a [_ ->]. reflexivity.
      + apply (Forall_combine_snd
                 (fun r => negb (isRegex_true r) = false)).
        eapply Forall_impl; [| exact Hp]. cbn. intros a ->. reflexivity.
      + apply (Forall_combine_snd
                 (fun r => negb (isRegex_true r) = true)).
        eapply Forall_impl; [| exact Hl]. cbn. intros a ->. reflexivity. }
  destruct Hstart as (T & HT & Hlab & Hreal & Hstart).
  pose proof (drop_loop_positions_then_realized colList lits 0 [] T
                (Forall_nil _) Hlab Hreal) as Hd.
  cbn [app] in Hd. fold k in Hd.
  eexists. eexists. split; [| split].
  - unfold resolve_columnNames. rewrite Hs.
    unfold bind, self, assign, not_none, ret, raise. cbn.
    rewrite Hf. cbn. fold colList.
    destruct (isRegex_count (reindex (lits ++ pats)) =? 0); cbn;
      rewrite ?Hf; cbn; rewrite Hstart;
      (replace (frame_names (combine (seq 0 k) lits ++ T))
         with (map colName lits ++ frame_names T)
         by (unfold frame_names, frame_rows; rewrite !map_app;
             rewrite (map_snd_combine (seq 0 k) lits (length_seq k 0));
             reflexivity));
      rewrite Hd; cbn; reflexivity.
  - reflexivity.
  - unfold frame_rows. rewrite !map_app.
    change (map snd T) with (frame_rows T). rewrite HT.
    change (map snd (filter ?p ?l))
      with (frame_rows
              (filter (fun x => (fun r => PyStr.mem (colName r) colList)
                                  (snd x)) l)).
    rewrite (frame_rows_filter (fun r => PyStr.mem (colName r) colList)).
    unfold frame_rows.
    rewrite (map_snd_combine (seq 0 k) lits (length_seq k 0)).
    reflexivity.
Qed.

End Patterns.

(** ** The decoder *)

Section Decoder.

(** *** The cache is written whole or not at all *)

Lemma unpackRawData_frame (raw : bytes) (o : Dobj) (tr : list Event) :
  exists r,
    __unpackRawData raw o tr
    = (r,
       match r with
       | Ok t => if _datapersistent o then set_data t o else o
       | Raise _ => o
       end,
       tr).
Proof.
  unfold __unpackRawData, bind, self, not_none, ret, raise, assign.
  destruct (_dtypeStruct o) as [p |]; [| eexists (Raise _); reflexivity].
  destruct (unpack_from p raw) as [data | e];
    [| eexists (Raise _); reflexivity].
  destruct (_info1 o) as [[| row0 [|]] |];
    try (eexists (Raise _); reflexivity).
  destruct (match _colSelected o with
            | Some sel => unpack_columns o data (nRows row0) 0 sel []
            | None => None
            end) as [df |]; [| eexists (Raise _); reflexivity].
  destruct (reorder_run (columnNames row0) (convert_times o df)) as [r Hr].
  rewrite Hr. destruct r as [t | e]; [| eexists (Raise _); reflexivity].
  exists (Ok t). destruct (_datapersistent o); reflexivity.
Qed.

(** X9.  [__unpackRawData] sends nothing.  When it raises, the object is
    left exactly as it was; when it returns a table, the only attribute
    it may change is the cache, which takes that table when persistence
    is on. *)
Theorem unpackRawData_all_or_nothing
  (raw : bytes) (o : Dobj) (tr : list Event) :
  (exists e, __unpackRawData raw o tr = (Raise e, o, tr))
  \/ (exists t,
        __unpackRawData raw o tr
        = (Ok t, if _datapersistent o then set_data t o else o, tr)).
Proof.
  destruct (unpackRawData_frame raw o tr) as [[t | e] H];
    [right; exists t | left; exists e]; exact H.
Qed.

(** *** The time columns *)

Lemma columns_replace_column (n : string) (v : list Scalar) (t : Table) :
  columns (replace_column n v t) = columns t.
Proof.
  unfold columns. induction t as [| [m w] t IH]; [reflexivity |].
  cbn. destruct (String.eqb m n); cbn; [reflexivity | rewrite IH].
  reflexivity.
Qed.



Lemma columns_convert_column (n : string) (c : Conv) (t : Table) :
  columns (convert_column n c t) = columns t.
Proof.
  unfold convert_column. destruct (get_column n t); [| reflexivity].
  apply columns_replace_column.
Qed.

Lemma columns_convert_times (o : Dobj) (df : Table) :
  columns (convert_times o df) = columns df.
Proof.
  unfold convert_times. destruct (_dtconvert o); [| reflexivity].
  rewrite !columns_convert_column. reflexivity.
Qed.



(** *** The shape of the table *)

Lemma length_unpack_run (e : Endian) (k : DecodeKind) (n : nat) (raw : bytes) :
  List.length (unpack_run e k n raw) = n.
Proof.
  revert raw. induction n as [| n IH]; intros raw; cbn; [reflexivity |].
  rewrite IH. reflexivity.
Qed.

Lemma length_unpack_items (e : Endian) (items : list (DecodeKind * nat))
  (raw : bytes) :
  List.length (unpack_items e items raw) = list_sum (map snd items).
Proof.
  revert raw. induction items as [| [k n] r IH]; intros raw; cbn;
    [reflexivity |].
  rewrite length_app, length_unpack_run, IH. reflexivity.
Qed.

Lemma length_slice {A} (rows idx : nat) (l : list A) :
  (idx + 1) * rows <= List.length l ->
  List.length (slice (idx * rows) ((idx + 1) * rows) l) = rows.
Proof.
  intros H. unfold slice. rewrite length_firstn, length_skipn. nia.
Qed.

Definition rectangular (rows : nat) (t : Table) : Prop :=
  Forall (fun c => List.length (snd c) = rows) t.

Lemma rectangular_replace (rows : nat) (n : string) (v : list Scalar)
  (t : Table) :
  List.length v = rows -> rectangular rows t ->
  rectangular rows (replace_column n v t).
Proof.
  intros Hv. induction 1 as [| [m w] t Hw Ht IH]; cbn; [constructor |].
  destruct (String.eqb m n); constructor; cbn; assumption.
Qed.

Lemma rectangular_set_column (rows : nat) (n : string) (v : list Scalar)
  (t t' : Table) :
  List.length v = rows -> rectangular rows t ->
  set_column n v t = Some t' -> rectangular rows t'.
Proof.
  intros Hv Ht. unfold set_column. destruct t as [| [m w] t0].
  - intros [= <-]. repeat constructor. exact Hv.
  - destruct (List.length v =? List.length w); [| discriminate].
    destruct (PyStr.mem n (columns ((m, w) :: t0))); intros [= <-].
    + exact (rectangular_replace rows n v ((m, w) :: t0) Hv Ht).
    + change (rectangular rows (((m, w) :: t0) ++ [(n, v)])).
      apply Forall_app. split; [exact Ht |]. repeat constructor. exact Hv.
Qed.

Lemma rectangular_get (rows : nat) (n : string) (t : Table)
  (v : list Scalar) :
  rectangular rows t -> get_column n t = Some v -> List.length v = rows.
Proof.
  induction 1 as [| [m w] t Hw _ IH]; cbn; [discriminate |].
  destruct (String.eqb m n); [intros [= <-]; exact Hw | exact IH].
Qed.

Lemma rectangular_convert (rows : nat) (n : string) (c : Conv) (t : Table) :
  rectangular rows t -> rectangular rows (convert_column n c t).
Proof.
  intros H. unfold convert_column.
  destruct (get_column n t) as [v |] eqn:E; [| exact H].
  apply rectangular_replace; [| exact H].
  rewrite length_map. exact (rectangular_get rows n t v H E).
Qed.

Lemma rectangular_getitem (rows : nat) (l : list string) (t t' : Table) :
  rectangular rows t -> getitem_list l t = Some t' -> rectangular rows t'.
Proof.
  intros H. revert t'. induction l as [| n l IH]; intros t' E; cbn in E.
  - injection E as <-. constructor.
  - destruct (get_column n t) as [v |] eqn:Ev; [| discriminate].
    destruct (getitem_list l t) as [t'' |]; [| discriminate].
    injection E as <-. constructor; [| apply IH; reflexivity].
    exact (rectangular_get rows n t v H Ev).
Qed.

Lemma unpack_column_rectangular (o : Dobj) (data : list Scalar)
  (rows idx col : nat) (df df' : Table) :
  (idx + 1) * rows <= List.length data ->
  rectangular rows df ->
  unpack_column o data rows idx col df = Some df' ->
  rectangular rows df'.
Proof.
  intros Hl Hr. unfold unpack_column.
  destruct (_colSchema o) as [schema |]; [| discriminate].
  destruct (_info2 o) as [f |]; [| discriminate].
  destruct (nth_error schema col) as [k |]; [| discriminate].
  destruct (if DecodeKind_eqb k CHAR16
            then map_opt py_chr (slice (idx * rows) ((idx + 1) * rows) data)
            else Some (slice (idx * rows) ((idx + 1) * rows) data))
    as [lst |] eqn:E; [| discriminate].
  destruct (nth_error (frame_rows f) col) as [row |]; [| discriminate].
  apply rectangular_set_column; [| exact Hr].
  destruct (DecodeKind_eqb k CHAR16).
  - rewrite (map_opt_length _ _ _ E). apply length_slice. exact Hl.
  - injection E as <-. apply length_slice. exact Hl.
Qed.

Lemma unpack_columns_rectangular (o : Dobj) (data : list Scalar)
  (rows idx : nat) (sel : list nat) (df df' : Table) :
  (idx + List.length sel) * rows <= List.length data ->
  rectangular rows df ->
  unpack_columns o data rows idx sel df = Some df' ->
  rectangular rows df'.
Proof.
  revert idx df. induction sel as [| c sel IH]; intros idx df Hl Hr;
    cbn [unpack_columns].
  - intros [= <-]. exact Hr.
  - destruct (unpack_column o data rows idx c df) as [df1 |] eqn:E;
      [| discriminate].
    apply IH.
    + cbn [List.length] in Hl. lia.
    + apply (unpack_column_rectangular o data rows idx c df df1);
        [cbn [List.length] in Hl; nia | exact Hr | exact E].
Qed.

(** What a returned table is made of. *)
Lemma unpackRawData_table
  (raw : bytes) (o o' : Dobj) (tr tr' : list Event) (t : Table) :
  __unpackRawData raw o tr = (Ok t, o', tr') ->
  exists p data row0 sel df,
    _dtypeStruct o = Some p
    /\ unpack_from p raw = Ok data
    /\ _info1 o = Some [row0]
    /\ _colSelected o = Some sel
    /\ unpack_columns o data (nRows row0) 0 sel [] = Some df
    /\ reorder (columnNames row0) (convert_times o df) o tr = (Ok t, o, tr).
Proof.
  unfold __unpackRawData, bind, self, not_none, ret, raise, assign.
  destruct (_dtypeStruct o) as [p |]; [| discriminate].
  destruct (unpack_from p raw) as [data | e] eqn:Hu; [| discriminate].
  destruct (_info1 o) as [[| row0 [|]] |]; try discriminate.
  destruct (_colSelected o) as [sel |]; [| discriminate].
  destruct (unpack_columns o data (nRows row0) 0 sel []) as [df |] eqn:Hc;
    [| discriminate].
  destruct (reorder_run (columnNames row0) (convert_times o df)) as [r Hr].
  rewrite Hr. destruct r as [t0 | e]; [| discriminate].
  intros H. exists p, data, row0, sel, df.
  assert (t0 = t) as -> by (destruct (_datapersistent o); congruence).
  rewrite Hr. repeat split; assumption.
Qed.

Lemma reorder_ok (c : ColumnNames) (df t : Table) (o o' : Dobj)
  (tr tr' : list Event) :
  reorder c df o tr = (Ok t, o', tr') ->
  match c with
  | CNull | CList [] | CRaw EmptyString => t = df
  | CList l => getitem_list l df = Some t
  | CRaw s => exists v, get_column s df = Some v /\ t = [(s, v)]
  end.
Proof.
  destruct c as [| [| a s] | [| n l]]; unfold reorder, bind, not_none, ret,
    raise.
  - intros [= <- _ _]. reflexivity.
  - intros [= <- _ _]. reflexivity.
  - destruct (get_column (String a s) df) as [v |]; [| discriminate].
    intros [= <- _ _]. exists v. split; reflexivity.
  - intros [= <- _ _]. reflexivity.
  - destruct (getitem_list (n :: l) df) as [t0 |]; [| discriminate].
    intros [= <- _ _]. reflexivity.
Qed.

(** X11.  When the plan is the one built for the selection and the row
    count of the metadata, every column of a table the decoder returns
    holds exactly [nRows] values. *)
Theorem decoded_columns_hold_nRows
  (raw : bytes) (o o' : Dobj) (tr tr' : list Event) (t : Table)
  (row0 : Info1Row) (sel : list nat) (schema : list DecodeKind)
  (e : Endian) (items : list (DecodeKind * nat)) :
  _info1 o = Some [row0] ->
  _colSelected o = Some sel ->
  _dtypeStruct o = Some (mkPlan e items) ->
  dtypeStruct_loop sel schema (nRows row0) = Some items ->
  __unpackRawData raw o tr = (Ok t, o', tr') ->
  Forall (fun c => List.length (snd c) = nRows row0) t.
Proof.
  intros Hi Hsel Hp Hb H.
  destruct (dtypeStruct_loop_size _ _ _ _ Hb) as (kinds & Hk & -> & _).
  apply map_opt_length in Hk.
  destruct (unpackRawData_table raw o o' tr tr' t H)
    as (p & data & r0 & sel' & df & Hp' & Hu & Hi' & Hs' & Hc & Hr).
  rewrite Hp in Hp'. injection Hp' as <-.
  rewrite Hi in Hi'. injection Hi' as <-.
  rewrite Hsel in Hs'. injection Hs' as <-.
  unfold unpack_from in Hu.
  destruct (List.length raw <? calcsize _); [discriminate |].
  injection Hu as <-.
  apply unpack_columns_rectangular in Hc; [| | constructor].
  2:{ rewrite length_unpack_items. cbn. rewrite map_map. cbn.
      rewrite <- Hk. clear.
      induction kinds as [| k kinds IH]; [reflexivity |].
      simpl. lia. }
  assert (Hct : rectangular (nRows row0) (convert_times o df)).
  { unfold convert_times. destruct (_dtconvert o); [| exact Hc].
    repeat apply rectangular_convert. exact Hc. }
  apply reorder_ok in Hr.
  destruct (columnNames row0) as [| [| a s] | [| n l]].
  - subst t. exact Hct.
  - subst t. exact Hct.
  - destruct Hr as (v & Hv & ->). repeat constructor. cbn.
    exact (rectangular_get _ _ _ _ Hct Hv).
  - subst t. exact Hct.
  - exact (rectangular_getitem _ (n :: l) _ _ Hct Hr).
Qed.

(** *** The order of the columns without a declared list *)

Lemma columns_set_column_new (n : string) (v : list Scalar) (t t' : Table) :
  set_column n v t = Some t' ->
  PyStr.mem n (columns t) = false ->
  columns t' = columns t ++ [n].
Proof.
  unfold set_column. destruct t as [| [m w] t0].
  - intros [= <-] _. reflexivity.
  - destruct (List.length v =? List.length w); [| discriminate].
    intros H Hm. rewrite Hm in H. injection H as <-.
    unfold columns. cbn. rewrite map_app. reflexivity.
Qed.

Lemma unpack_columns_names (o : Dobj) (f : Frame) (data : list Scalar)
  (rows idx : nat) (sel : list nat) (names : list string) (df df' : Table) :
  _info2 o = Some f ->
  map_opt (fun i => option_map colName (nth_error (frame_rows f) i)) sel
  = Some names ->
  NoDup (columns df ++ names) ->
  unpack_columns o data rows idx sel df = Some df' ->
  columns df' = columns df ++ names.
Proof.
  intros Hf. revert idx names df.
  induction sel as [| c sel IH]; intros idx names df Hn Hd;
    cbn [unpack_columns map_opt] in *.
  - injection Hn as <-. intros [= <-]. rewrite app_nil_r. reflexivity.
  - destruct (nth_error (frame_rows f) c) as [row |] eqn:Er;
      [| discriminate].
    cbn [option_map] in Hn.
    destruct (map_opt _ sel) as [names' |] eqn:En; [| discriminate].
    injection Hn as <-.
    destruct (unpack_column o data rows idx c df) as [df1 |] eqn:E;
      [| discriminate].
    intros H.
    assert (Hc : columns df1 = columns df ++ [colName row]).
    { unfold unpack_column in E. rewrite Hf in E.
      destruct (_colSchema o) as [schema |]; [| discriminate].
      destruct (nth_error schema c) as [k |]; [| discriminate].
      destruct (if DecodeKind_eqb k CHAR16 then _ else _) as [lst |];
        [| discriminate].
      rewrite Er in E. apply columns_set_column_new in E; [exact E |].
      destruct (PyStr.mem (colName row) (columns df)) eqn:Em;
        [| reflexivity].
      apply mem_In in Em. apply NoDup_remove_2 in Hd.
      contradiction Hd. apply in_or_app. left. exact Em. }
    rewrite (IH (S idx) names' df1 eq_refl); [| | exact H].
    + rewrite Hc, <- app_assoc. reflexivity.
    + rewrite Hc, <- app_assoc. exact Hd.
Qed.

(** X12.  When the metadata gives no list of declared names, the columns
    of the returned table are the selected columns in the order of the
    selection, provided their names differ.  (With a declared list, the
    columns are that list.) *)
Theorem columns_follow_the_selection
  (raw : bytes) (o o' : Dobj) (tr tr' : list Event) (t : Table)
  (row0 : Info1Row) (sel : list nat) (f : Frame) (names : list string) :
  _info1 o = Some [row0] ->
  columnNames row0 = CNull ->
  _colSelected o = Some sel ->
  _info2 o = Some f ->
  map_opt (fun i => option_map colName (nth_error (frame_rows f) i)) sel
  = Some names ->
  NoDup names ->
  __unpackRawData raw o tr = (Ok t, o', tr') ->
  columns t = names.
Proof.
  intros Hi Hn Hsel Hf Hnames Hd H.
  destruct (unpackRawData_table raw o o' tr tr' t H)
    as (p & data & r0 & sel' & df & _ & _ & Hi' & Hs' & Hc & Hr).
  rewrite Hi in Hi'. injection Hi' as <-.
  rewrite Hsel in Hs'. injection Hs' as <-.
  apply reorder_ok in Hr. rewrite Hn in Hr. subst t.
  rewrite columns_convert_times.
  exact (unpack_columns_names o f data (nRows row0) 0 sel names [] df
           Hf Hnames Hd Hc).
Qed.

(** *** Character columns *)




End Decoder.

(** ** Fetching: what the steps leave alone *)

(** [silent p m]: a run of [m], however it ends, leaves the cache and the
    persistence setting as they were and sends no event that [p]
    watches. *)
Definition silent {A} (p : Event -> bool) (m : M A) : Prop :=
  forall o tr r o' tr',
    m o tr = (r, o', tr') ->
    _data o' = _data o
    /\ _datapersistent o' = _datapersistent o
    /\ filter p tr' = filter p tr.

Definition is_payload_access (ev : Event) : bool :=
  match ev with
  | EvRead _ | EvTabular _ => true
  | _ => false
  end.

Section Silence.

Variable rm : string -> string -> bool.
Variable ty : string -> option DecodeKind.
Variable env : Env.

(** The events watched: none of the metadata queries, none of the usage
    requests. *)
Variable p : Event -> bool.
Hypothesis p_sparql : forall q, p (EvSparql q) = false.
Hypothesis p_use : forall c, p (EvPortalUse c) = false.

Lemma silent_ret {A} (a : A) : silent p (ret a).
Proof. intros o tr r o' tr' [= <- <- <-]. repeat split. Qed.

Lemma silent_raise {A} (e : exn) : silent p (@raise A e).
Proof. intros o tr r o' tr' [= <- <- <-]. repeat split. Qed.

Lemma silent_self : silent p self.
Proof. intros o tr r o' tr' [= <- <- <-]. repeat split. Qed.

Lemma silent_not_none {A} (e : exn) (x : option A) :
  silent p (not_none e x).
Proof. destruct x; [apply silent_ret | apply silent_raise]. Qed.

Lemma silent_assign (f : Dobj -> Dobj) :
  (forall o, _data (f o) = _data o
             /\ _datapersistent (f o) = _datapersistent o) ->
  silent p (assign f).
Proof.
  intros Hf o tr r o' tr' [= <- <- <-].
  destruct (Hf o) as [H1 H2]. repeat split; assumption.
Qed.

Lemma silent_send (ev : Event) : p ev = false -> silent p (send ev).
Proof.
  intros Hp o tr r o' tr' [= <- <- <-]. repeat split.
  rewrite filter_app. cbn. rewrite Hp. apply app_nil_r.
Qed.

Lemma silent_bind {A B} (m : M A) (f : A -> M B) :
  silent p m -> (forall a, silent p (f a)) -> silent p (bind m f).
Proof.
  intros Hm Hf o tr r o' tr'. unfold bind.
  destruct (m o tr) as [[[a | e] o1] tr1] eqn:E.
  - intros H. apply Hf in H. apply Hm in E.
    destruct H as (H1 & H2 & H3), E as (E1 & E2 & E3).
    repeat split; congruence.
  - intros [= <- <- <-]. apply Hm in E. exact E.
Qed.

Ltac silent_step :=
  first
    [ apply silent_bind; [| intros ?]
    | apply silent_ret
    | apply silent_raise
    | apply silent_self
    | apply silent_not_none
    | apply silent_assign; intros ?; split; reflexivity
    | apply silent_send; apply p_sparql
    | apply silent_send; apply p_use
    | match goal with
      | |- silent _ (if ?b then _ else _) => destruct b
      | |- silent _ (match ?x with _ => _ end) => destruct x
      | |- silent _ (let '(_, _) := ?x in _) => destruct x
      end ].

Lemma silent_resolve_columnNames (raw0 : Info1Raw) (rest : list Info1Raw) :
  silent p (resolve_columnNames rm raw0 rest).
Proof. unfold resolve_columnNames. repeat silent_step. Qed.

Lemma silent_getPayload : silent p (__getPayload rm ty env).
Proof.
  unfold __getPayload.
  repeat first [ apply silent_resolve_columnNames | silent_step ].
Qed.

Lemma silent_colNames_tolist : silent p colNames_tolist.
Proof. unfold colNames_tolist. repeat silent_step. Qed.

Lemma silent_setColumns (cols : option (list Selector)) :
  silent p (__setColumns cols).
Proof.
  unfold __setColumns.
  repeat first [ apply silent_colNames_tolist | silent_step ].
Qed.

Lemma silent_portalUse : silent p (__portalUse env).
Proof.
  unfold __portalUse.
  repeat first [ apply silent_colNames_tolist | silent_step ].
Qed.

End Silence.

(** ** Fetching: one access to the payload, and the cache *)

Section Fetch.

Variable rm : string -> string -> bool.
Variable ty : string -> option DecodeKind.
Variable env : Env.

(** A run of [__getColumns], for any set [p] of watched events that holds
    no metadata query and no usage request. *)
Lemma getColumns_inner_run
  (p : Event -> bool) (o o' : Dobj) (tr tr' : list Event)
  (r : outcome Table) :
  (forall q, p (EvSparql q) = false) ->
  (forall c, p (EvPortalUse c) = false) ->
  __getColumns rm ty env o tr = (r, o', tr') ->
  _datapersistent o' = _datapersistent o
  /\ _data o' = match r with
                | Ok t => if _datapersistent o then t else _data o
                | Raise _ => _data o
                end
  /\ ((filter p tr' = filter p tr /\ exists e, r = Raise e)
      \/ (exists path content,
             local_store env path = Some content
             /\ filter p tr' = filter p (tr ++ [EvRead path]))
      \/ (exists path,
             local_store env path = None
             /\ filter p tr' = filter p (tr ++ [EvTabular (_json o)]))).
Proof.
  intros Hq Hu.
  assert (Hs : forall ev, filter p ((tr ++ [EvSparql (dobjStation ev)]))
                          = filter p tr).
  { intros ev. rewrite filter_app. cbn. rewrite Hq. apply app_nil_r. }
  assert (Hs2 : forall ev x,
             filter p ((tr ++ [EvSparql (dobjStation ev)]) ++ [x])
             = filter p (tr ++ [x])).
  { intros ev x.
    rewrite (filter_app p (tr ++ [EvSparql (dobjStation ev)]) [x]), Hs.
    rewrite <- filter_app. reflexivity. }
  (* the tail shared by both branches: the usage request, then the decoder *)
  assert (Htail : forall content o1 t1 r3 o3 t3,
             (let (p0, tr'0) := __portalUse env o1 t1 in
              let (o2, o'0) := p0 in
              match o2 with
              | Ok _ => __unpackRawData content o'0 tr'0
              | Raise e => (Raise e, o'0, tr'0)
              end) = (r3, o3, t3) ->
             _datapersistent o3 = _datapersistent o1
             /\ _data o3 = match r3 with
                           | Ok t => if _datapersistent o1 then t
                                     else _data o1
                           | Raise _ => _data o1
                           end
             /\ filter p t3 = filter p t1).
  { intros content o1 t1 r3 o3 t3.
    destruct (__portalUse env o1 t1) as [[r2 o2] t2] eqn:E2.
    apply (silent_portalUse env p Hu) in E2 as (D2 & P2 & F2).
    destruct r2 as [[] | e2].
    - destruct (unpackRawData_frame content o2 t2)
        as [[t | e] ->]; intros [= <- <- <-].
      + rewrite P2. destruct (_datapersistent o1); cbn;
          repeat split; assumption.
      + repeat split; assumption.
    - intros [= <- <- <-]. repeat split; assumption. }
  unfold __getColumns, bind, self, not_none, send, assign, ret, raise.
  destruct (_dobj o) as [d |];
    [| intros [= <- <- <-]; repeat split; left; split; eauto].
  destruct (_info2 o) as [f |];
    [| intros [= <- <- <-]; repeat split; left; split; eauto].
  destruct (hd_error (frame_rows f)) as [first |];
    [| intros [= <- <- <-]; repeat split; left; split; eauto].
  destruct (local_store env _) as [content |] eqn:El.
  - destruct (__getPayload rm ty env _ _) as [[r1 o1] t1] eqn:E1.
    apply (silent_getPayload rm ty env p Hq) in E1 as (D1 & P1 & F1).
    cbn in D1, P1. rewrite Hs2 in F1.
    destruct r1 as [[] | e1].
    + intros H. apply Htail in H as (P3 & D3 & F3).
      rewrite P1 in P3, D3. rewrite D1 in D3. rewrite F1 in F3.
      split; [exact P3 |]. split; [exact D3 |].
      right. left. eauto.
    + intros [= <- <- <-].
      split; [exact P1 |]. split; [exact D1 |]. right. left. eauto.
  - destruct (tabular env (_json o)) as [status content |].
    + destruct (is_error_status status).
      * intros [= <- <- <-]. repeat split. right. right.
        eexists. split; [exact El |]. apply Hs2.
      * intros H. apply Htail in H as (P3 & D3 & F3).
        cbn in P3, D3. rewrite Hs2 in F3.
        split; [exact P3 |]. split; [exact D3 |]. right. right. eauto.
    + intros [= <- <- <-]. repeat split. right. right.
      eexists. split; [exact El |]. apply Hs2.
Qed.

(** X14.  A fetch touches the payload at most once and never retries.
    Either it raises before any access, or the local file exists and is
    read once and the portal is not asked, or no local file exists and
    the portal is asked once, with the request the object holds. *)
Theorem one_payload_access_per_fetch
  (o o' : Dobj) (tr tr' : list Event) (r : outcome Table) :
  __getColumns rm ty env o tr = (r, o', tr') ->
  (filter is_payload_access tr' = filter is_payload_access tr
   /\ exists e, r = Raise e)
  \/ (exists path content,
         local_store env path = Some content
         /\ filter is_payload_access tr'
            = filter is_payload_access tr ++ [EvRead path])
  \/ (exists path,
         local_store env path = None
         /\ filter is_payload_access tr'
            = filter is_payload_access tr ++ [EvTabular (_json o)]).
Proof.
  intros H.
  destruct (getColumns_inner_run is_payload_access o o' tr tr' r
              (fun _ => eq_refl) (fun _ => eq_refl) H)
    as (_ & _ & [G | [(path & c & G1 & G2) | (path & G1 & G2)]]).
  - left. exact G.
  - right. left. exists path, c. split; [exact G1 |].
    rewrite G2, filter_app. reflexivity.
  - right. right. exists path. split; [exact G1 |].
    rewrite G2, filter_app. reflexivity.
Qed.

(** X15.  After any data-access call the persistence setting is as
    before, and the cache is as before unless the call returned a table
    with persistence on, in which case the cache is that table.  A call
    that raises or answers [False] never changes the cache. *)
Theorem getColumns_cache_is_all_or_nothing
  (cols : option (list Selector)) (o o' : Dobj) (tr tr' : list Event)
  (r : outcome Result) :
  getColumns rm ty env cols o tr = (r, o', tr') ->
  _datapersistent o' = _datapersistent o
  /\ _data o' = match r with
                | Ok (RTable t) => if _datapersistent o then t else _data o
                | _ => _data o
                end.
Proof.
  assert (Hinner : forall o1 t1 r2 o2 t2,
             (let (p, tr'0) := __getColumns rm ty env o1 t1 in
              let (o0, o'0) := p in
              match o0 with
              | Ok a => (Ok (RTable a), o'0, tr'0)
              | Raise e => (Raise e, o'0, tr'0)
              end) = (r2, o2, t2) ->
             _datapersistent o2 = _datapersistent o1
             /\ _data o2 = match r2 with
                           | Ok (RTable t) =>
                               if _datapersistent o1 then t else _data o1
                           | _ => _data o1
                           end).
  { intros o1 t1 r2 o2 t2.
    destruct (__getColumns rm ty env o1 t1) as [[r1 o3] t3] eqn:E.
    destruct (getColumns_inner_run (fun _ => false) o1 o3 t1 t3 r1
                (fun _ => eq_refl) (fun _ => eq_refl) E) as (P & D & _).
    destruct r1; intros [= <- <- <-]; split; assumption. }
  unfold getColumns, bind, self, ret.
  destruct (negb (table_empty (_data o)) && _datapersistent o) eqn:Eg.
  { intros [= <- <- <-]. apply andb_true_iff in Eg as [_ ->].
    split; reflexivity. }
  destruct (falsy cols && _dobjValid o); [apply Hinner |].
  destruct (negb (falsy cols)).
  - destruct (__setColumns cols o tr) as [[rb o1] t1] eqn:E1.
    apply (silent_setColumns (fun _ => false)) in E1 as (D1 & P1 & _).
    destruct rb as [[|] | e].
    + destruct (__getPayload rm ty env o1 t1) as [[rp o2] t2] eqn:E2.
      apply (silent_getPayload rm ty env (fun _ => false)
               (fun _ => eq_refl)) in E2 as (D2 & P2 & _).
      destruct rp as [[] | e].
      * destruct (_dobjValid o2).
        -- intros H. apply Hinner in H as [P3 D3].
           rewrite P2, P1 in P3, D3. rewrite D2, D1 in D3.
           split; assumption.
        -- intros [= <- <- <-]. split; congruence.
      * intros [= <- <- <-]. split; congruence.
    + destruct (_dobjValid o1).
      * intros H. apply Hinner in H as [P3 D3].
        rewrite P1 in P3, D3. rewrite D1 in D3. split; assumption.
      * intros [= <- <- <-]. split; congruence.
    + intros [= <- <- <-]. split; congruence.
  - destruct (_dobjValid o).
    + apply Hinner.
    + intros [= <- <- <-]. split; reflexivity.
Qed.

(** X16.  When no local file exists and the request to the portal raises
    or is answered with an error status, the fetch raises at once: one
    station query and one request to the portal have been sent, no usage
    request, and the cache is as it was. *)
Theorem failed_portal_request_raises
  (o : Dobj) (tr : list Event) (d : string) (f : Frame) (first : Info2Row) :
  _dobj o = Some d ->
  _info2 o = Some f ->
  hd_error (frame_rows f) = Some first ->
  local_store env
    (localfile_path (PyStr.last_field PyStr.slash (objFormat first)) d)
  = None ->
  match tabular env (_json o) with
  | Unreachable =>
      __getColumns rm ty env o tr
      = (Raise ConnectionError,
         set_islocal (Some false)
           (set_info3 (Some (sparql_station env d)) o),
         tr ++ [EvSparql (dobjStation d); EvTabular (_json o)])
  | Response status _ =>
      is_error_status status = true ->
      __getColumns rm ty env o tr
      = (Raise (PyException "HTTPError"),
         set_islocal (Some false)
           (set_info3 (Some (sparql_station env d)) o),
         tr ++ [EvSparql (dobjStation d); EvTabular (_json o)])
  end.
Proof.
  intros Hd Hf Hh Hl.
  unfold __getColumns, bind, self, not_none, send, assign, ret, raise.
  rewrite Hd, Hf, Hh, Hl.
  destruct (tabular env (_json o)) as [status body |].
  - intros ->. rewrite <- app_assoc. reflexivity.
  - rewrite <- app_assoc. reflexivity.
Qed.

(** X17.  An object made without an identifier, or with an empty one,
    sends nothing and is not valid, and every data-access call on it
    answers [False], changes nothing and sends nothing. *)
Theorem unbound_object_answers_False
  (v : Ident) (calls : list (option (list Selector))) :
  ident_truthy v = false ->
  init rm ty env v = (Ok tt, init_attrs, [])
  /\ getColumns_all rm ty env calls init_attrs []
     = (map (fun _ => Ok RFalse) calls, init_attrs, []).
Proof.
  intros Hv. split.
  - unfold init, dobj_setter. rewrite Hv. reflexivity.
  - induction calls as [| c calls IH]; [reflexivity |].
    cbn [getColumns_all map].
    rewrite getColumns_not_valid by reflexivity.
    rewrite IH. reflexivity.
Qed.

End Fetch.

(** ** Reading the list of realized names *)

Section ColumnNames.

(** Whether a character occurs in a string. *)
Fixpoint occurs (x : ascii) (s : string) : bool :=
  match s with
  | EmptyString => false
  | String c r => Ascii.eqb c x || occurs x r
  end.

Fixpoint count_char (x : ascii) (s : string) : nat :=
  match s with
  | EmptyString => 0
  | String c r => (if Ascii.eqb c x then 1 else 0) + count_char x r
  end.

(** The cell as the endpoint writes it: the names quoted, separated by a
    comma and a blank, in brackets. *)
Definition quoted (n : string) : string :=
  String PyStr.dquote (n ++ String PyStr.dquote EmptyString).

Definition bracketed (names : list string) : string :=
  ("[" ++ String.concat ", " (map quoted names) ++ "]")%string.

Lemma append_empty_r (s : string) : (s ++ EmptyString)%string = s.
Proof. induction s as [| c s IH]; cbn; [| rewrite IH]; reflexivity. Qed.

Lemma append_assoc' (a b c : string) :
  ((a ++ b) ++ c)%string = (a ++ (b ++ c))%string.
Proof. induction a as [| x a IH]; cbn; [| rewrite IH]; reflexivity. Qed.

Lemma length_append' (a b : string) :
  String.length (a ++ b) = String.length a + String.length b.
Proof. induction a as [| x a IH]; cbn; [| rewrite IH]; reflexivity. Qed.

Lemma substring_prefix (a b : string) :
  substring 0 (String.length a) (a ++ b) = a.
Proof.
  induction a as [| x a IH]; cbn.
  - destruct b; reflexivity.
  - rewrite IH. reflexivity.
Qed.

Lemma inner_bracket (body : string) :
  PyStr.inner ("[" ++ body ++ "]")%string = body.
Proof.
  unfold PyStr.inner. cbn [append String.length].
  rewrite length_append'. cbn [String.length].
  replace (S (String.length body + 1) - 2) with (String.length body) by lia.
  cbn [substring]. apply substring_prefix.
Qed.

Lemma remove_char_app (x : ascii) (a b : string) :
  PyStr.remove_char x (a ++ b)
  = (PyStr.remove_char x a ++ PyStr.remove_char x b)%string.
Proof.
  induction a as [| c a IH]; cbn; [reflexivity |].
  destruct (Ascii.eqb c x); cbn; rewrite IH; reflexivity.
Qed.

Lemma remove_char_absent (x : ascii) (s : string) :
  occurs x s = false -> PyStr.remove_char x s = s.
Proof.
  induction s as [| c s IH]; cbn; [reflexivity |].
  destruct (Ascii.eqb c x); cbn; [discriminate |].
  intros H. rewrite IH by exact H. reflexivity.
Qed.

Lemma remove_quotes_quoted (n : string) :
  occurs PyStr.dquote n = false ->
  PyStr.remove_char PyStr.dquote (quoted n) = n.
Proof.
  intros H. unfold quoted. cbn [PyStr.remove_char].
  rewrite Ascii.eqb_refl, remove_char_app, remove_char_absent by exact H.
  cbn. apply append_empty_r.
Qed.

Lemma remove_quotes_concat (names : list string) :
  Forall (fun n => occurs PyStr.dquote n = false) names ->
  PyStr.remove_char PyStr.dquote (String.concat ", " (map quoted names))
  = String.concat ", " names.
Proof.
  induction 1 as [| n names Hn _ IH]; [reflexivity |].
  cbn [map String.concat].
  destruct names as [| m names].
  - cbn [map]. apply remove_quotes_quoted. exact Hn.
  - cbn [map] in *. rewrite !remove_char_app, remove_quotes_quoted, IH
      by exact Hn.
    reflexivity.
Qed.

Lemma split_cons_sep (sep : ascii) (s : string) :
  PyStr.split sep (String sep s) = EmptyString :: PyStr.split sep s.
Proof. cbn. rewrite Ascii.eqb_refl. reflexivity. Qed.

Lemma split_app_absent (sep : ascii) (a b f : string) (fs : list string) :
  occurs sep a = false ->
  PyStr.split sep b = f :: fs ->
  PyStr.split sep (a ++ b) = (a ++ f)%string :: fs.
Proof.
  intros Ha Hb. induction a as [| c a IH]; cbn in *; [exact Hb |].
  destruct (Ascii.eqb c sep); [discriminate |].
  cbn in Ha. rewrite (IH Ha). reflexivity.
Qed.

Lemma split_absent (sep : ascii) (a : string) :
  occurs sep a = false -> PyStr.split sep a = [a].
Proof.
  intros Ha. rewrite <- (append_empty_r a) at 1.
  rewrite (split_app_absent sep a EmptyString EmptyString [] Ha eq_refl).
  rewrite append_empty_r. reflexivity.
Qed.

Lemma split_concat (n : string) (names : list string) :
  Forall (fun m => occurs PyStr.comma m = false) (n :: names) ->
  PyStr.split PyStr.comma (String.concat ", " (n :: names))
  = n :: map (String " ") names.
Proof.
  revert n. induction names as [| m names IH]; intros n H.
  - cbn. apply split_absent. inversion H. assumption.
  - inversion H as [| ? ? Hn Hrest]; subst.
    change (String.concat ", " (n :: m :: names))
      with (n ++ String PyStr.comma
                   (String " " (String.concat ", " (m :: names))))%string.
    rewrite (split_app_absent PyStr.comma n _ EmptyString
               (String " " m :: map (String " ") names) Hn).
    + rewrite append_empty_r. reflexivity.
    + rewrite split_cons_sep. f_equal.
      change (String " " (String.concat ", " (m :: names)))
        with (" " ++ String.concat ", " (m :: names))%string.
      apply (split_app_absent PyStr.comma " " _ m); [reflexivity |].
      apply IH. exact Hrest.
Qed.

(** X18.  Reading back a list written in the form of the endpoint gives
    the names, in order: for a non-empty list of names that hold no comma
    and no double quote and have no blank at either end. *)
Theorem clean_columnNames_reads_back (names : list string) :
  names <> [] ->
  Forall (fun n => occurs PyStr.comma n = false
                   /\ occurs PyStr.dquote n = false
                   /\ PyStr.strip n = n) names ->
  clean_columnNames (bracketed names) = names.
Proof.
  intros Hne H. unfold clean_columnNames, bracketed.
  rewrite inner_bracket, remove_quotes_concat
    by (eapply Forall_impl; [| exact H]; cbn; tauto).
  destruct names as [| n names]; [contradiction Hne; reflexivity |].
  rewrite split_concat by (eapply Forall_impl; [| exact H]; cbn; tauto).
  inversion H as [| ? ? (_ & _ & Hn) Hrest]; subst.
  cbn [map]. rewrite Hn. f_equal.
  rewrite map_map. clear - Hrest.
  induction Hrest as [| m names (_ & _ & Hm) _ IH]; [reflexivity |].
  cbn [map]. rewrite IH. f_equal. change (PyStr.strip m = m). exact Hm.
Qed.

Lemma length_split (sep : ascii) (s : string) :
  List.length (PyStr.split sep s) = S (count_char sep s).
Proof.
  induction s as [| c s IH]; [reflexivity |].
  cbn [PyStr.split count_char].
  destruct (Ascii.eqb c sep); cbn [List.length].
  - rewrite IH. reflexivity.
  - destruct (PyStr.split sep s) as [| f fs]; [discriminate |].
    cbn [List.length] in *. lia.
Qed.

(** X19.  The list read from a cell holds one name more than the cell
    holds commas.  It is never empty: an empty pair of brackets gives
    one empty name. *)
Theorem clean_columnNames_never_empty (s : string) :
  List.length (clean_columnNames s)
  = S (count_char PyStr.comma
         (PyStr.remove_char PyStr.dquote (PyStr.inner s))).
Proof.
  unfold clean_columnNames. rewrite length_map. apply length_split.
Qed.

End ColumnNames.

(** ** The station attributes *)

Section Station.

Variable rm : string -> string -> bool.
Variable ty : string -> option DecodeKind.
Variable env : Env.

(** [self._info3.<field>[0]] read after [self.getColumns()]: the body of
    the property [station]; [lat], [lon] and [elevation] hand the text
    they read this way to [float].  The series of a frame without rows
    has no label 0. *)
Definition station_attr (field : Info3Row -> string) : M string :=
  getColumns rm ty env None ;;;
  o <- self ;;
  i3 <- not_none AttributeError (_info3 o) ;;
  match i3 with
  | row :: _ => ret (field row)
  | [] => raise KeyError
  end.

Definition station : M string := station_attr stationName.

(** [keeps_info3 m]: a run of [m], however it ends, leaves the station
    frame as it was. *)
Definition keeps_info3 {A} (m : M A) : Prop :=
  forall o tr r o' tr', m o tr = (r, o', tr') -> _info3 o' = _info3 o.

Lemma keeps_ret {A} (a : A) : keeps_info3 (ret a).
Proof. intros o tr r o' tr' [= <- <- <-]. reflexivity. Qed.

Lemma keeps_raise {A} (e : exn) : keeps_info3 (@raise A e).
Proof. intros o tr r o' tr' [= <- <- <-]. reflexivity. Qed.

Lemma keeps_self : keeps_info3 self.
Proof. intros o tr r o' tr' [= <- <- <-]. reflexivity. Qed.

Lemma keeps_not_none {A} (e : exn) (x : option A) :
  keeps_info3 (not_none e x).
Proof. destruct x; [apply keeps_ret | apply keeps_raise]. Qed.

Lemma keeps_assign (f : Dobj -> Dobj) :
  (forall o, _info3 (f o) = _info3 o) -> keeps_info3 (assign f).
Proof. intros Hf o tr r o' tr' [= <- <- <-]. apply Hf. Qed.

Lemma keeps_send (ev : Event) : keeps_info3 (send ev).
Proof. intros o tr r o' tr' [= <- <- <-]. reflexivity. Qed.

Lemma keeps_bind {A B} (m : M A) (f : A -> M B) :
  keeps_info3 m -> (forall a, keeps_info3 (f a)) -> keeps_info3 (bind m f).
Proof.
  intros Hm Hf o tr r o' tr'. unfold bind.
  destruct (m o tr) as [[[a | e] o1] tr1] eqn:E.
  - intros H. apply Hf in H. apply Hm in E. congruence.
  - intros [= <- <- <-]. apply Hm in E. exact E.
Qed.

Ltac keeps_step :=
  first
    [ apply keeps_bind; [| intros ?]
    | apply keeps_ret
    | apply keeps_raise
    | apply keeps_self
    | apply keeps_not_none
    | apply keeps_assign; intros ?; reflexivity
    | apply keeps_send
    | match goal with
      | |- keeps_info3 (if ?b then _ else _) => destruct b
      | |- keeps_info3 (match ?x with _ => _ end) => destruct x
      | |- keeps_info3 (let '(_, _) := ?x in _) => destruct x
      end ].

Lemma keeps_resolve_columnNames (raw0 : Info1Raw) (rest : list Info1Raw) :
  keeps_info3 (resolve_columnNames rm raw0 rest).
Proof. unfold resolve_columnNames. repeat keeps_step. Qed.

Lemma keeps_getPayload : keeps_info3 (__getPayload rm ty env).
Proof.
  unfold __getPayload.
  repeat first [ apply keeps_resolve_columnNames | keeps_step ].
Qed.

Lemma keeps_colNames_tolist : keeps_info3 colNames_tolist.
Proof. unfold colNames_tolist. repeat keeps_step. Qed.

Lemma keeps_portalUse : keeps_info3 (__portalUse env).
Proof.
  unfold __portalUse.
  repeat first [ apply keeps_colNames_tolist | keeps_step ].
Qed.

Lemma keeps_unpackRawData (raw : bytes) : keeps_info3 (__unpackRawData raw).
Proof.
  intros o tr r o' tr' H.
  destruct (unpackRawData_frame raw o tr) as [r0 H0].
  rewrite H0 in H. injection H as <- <- <-.
  destruct r0 as [t | e]; [| reflexivity].
  destruct (_datapersistent o); reflexivity.
Qed.

(** A fetch stores the answer to the station query before anything else,
    and nothing after that touches it. *)
Lemma getColumns_inner_station
  (o o' : Dobj) (tr tr' : list Event) (r : outcome Table) :
  __getColumns rm ty env o tr = (r, o', tr') ->
  match _dobj o with
  | Some d => _info3 o' = Some (sparql_station env d)
  | None => r = Raise AttributeError /\ o' = o
  end.
Proof.
  assert (Htail : forall content o1 t1 r3 o3 t3,
             (__portalUse env ;;; __unpackRawData content) o1 t1
             = (r3, o3, t3) ->
             _info3 o3 = _info3 o1).
  { intros content. apply keeps_bind; [apply keeps_portalUse |].
    intros _. apply keeps_unpackRawData. }
  unfold bind in Htail.
  unfold __getColumns, bind, self, not_none, send, assign, ret, raise.
  destruct (_dobj o) as [d |]; [| intros [= <- <- <-]; split; reflexivity].
  destruct (_info2 o) as [f |]; [| intros [= <- <- <-]; reflexivity].
  destruct (hd_error (frame_rows f)) as [first |];
    [| intros [= <- <- <-]; reflexivity].
  destruct (local_store env _) as [content |].
  - destruct (__getPayload rm ty env _ _) as [[r1 o1] t1] eqn:E1.
    apply keeps_getPayload in E1. cbn in E1.
    destruct r1 as [[] | e1].
    + intros H. apply Htail in H. congruence.
    + intros [= <- <- <-]. exact E1.
  - destruct (tabular env (_json o)) as [status content |].
    + destruct (is_error_status status).
      * intros [= <- <- <-]. reflexivity.
      * intros H. apply Htail in H. exact H.
    + intros [= <- <- <-]. reflexivity.
Qed.

(** X20.  On an object that holds a table, persistence on, or that is
    not valid, a station attribute sends nothing and changes nothing: it
    is read from the station frame the object happens to hold.  Without
    such a frame the read raises AttributeError; where the other
    properties of an object that is not valid answer [None], these
    raise. *)
Theorem station_attribute_without_a_fetch
  (field : Info3Row -> string) (o : Dobj) (tr : list Event) :
  negb (table_empty (_data o)) && _datapersistent o = true
  \/ _dobjValid o = false ->
  (_info3 o = None ->
   station_attr field o tr = (Raise AttributeError, o, tr))
  /\ (forall row rest,
         _info3 o = Some (row :: rest) ->
         station_attr field o tr = (Ok (field row), o, tr)).
Proof.
  intros Hc.
  assert (Hg : exists x, getColumns rm ty env None o tr = (Ok x, o, tr)).
  { destruct (negb (table_empty (_data o)) && _datapersistent o) eqn:Hd.
    - eexists. unfold getColumns, bind, self. rewrite Hd. reflexivity.
    - destruct Hc as [Hc | Hv]; [discriminate Hc |].
      exists RFalse. apply getColumns_not_valid; assumption. }
  destruct Hg as [x Hg].
  split; [intros H | intros row rest H].
  all: unfold station_attr, bind at 1; rewrite Hg.
  all: unfold bind, self, not_none, ret, raise; cbv beta iota.
  all: rewrite H; reflexivity.
Qed.

(** X21.  On a valid object that returns no cached table, a station
    attribute that is read without an exception is the one of the first
    row the station query gives for the identifier of the object, and
    the object holds that answer afterwards. *)
Theorem station_attribute_after_a_fetch
  (field : Info3Row -> string) (o o' : Dobj) (tr tr' : list Event)
  (x : string) :
  negb (table_empty (_data o)) && _datapersistent o = false ->
  _dobjValid o = true ->
  station_attr field o tr = (Ok x, o', tr') ->
  exists d row rest,
    _dobj o = Some d
    /\ sparql_station env d = row :: rest
    /\ x = field row
    /\ _info3 o' = Some (sparql_station env d).
Proof.
  intros Hc Hv.
  unfold station_attr, bind at 1.
  unfold getColumns, bind at 1, self. rewrite Hc, Hv. cbn [falsy andb].
  unfold bind at 1.
  destruct (__getColumns rm ty env o tr) as [[[t | e] o1] t1] eqn:E;
    [| discriminate].
  apply getColumns_inner_station in E.
  unfold ret, bind, self, not_none.
  destruct (_dobj o) as [d |]; [| destruct E; discriminate].
  rewrite E.
  destruct (sparql_station env d) as [| row rest] eqn:Es; [discriminate |].
  intros [= <- <- <-]. exists d, row, rest.
  split; [reflexivity |]. split; [exact Es |]. split; [reflexivity |].
  rewrite Es. exact E.
Qed.

End Station.

(** * The further properties on the sample object *)

(** The object of [Dobj(oid)] at the moment the setter calls
    [__getPayload]: the identifier is stored, nothing is resolved yet. *)
Definition bound : Dobj :=
  set_dobjSet true (set_dobj_attr (Some oid) init_attrs).

(** The sample endpoint with a portal that cannot be reached. *)
Definition offline : Env :=
  let w := world None false fine in
  {| sparql_info := sparql_info w;
     sparql_schema := sparql_schema w;
     sparql_station := sparql_station w;
     sparql_citation := sparql_citation w;
     local_store := local_store w;
     tabular := fun _ => Unreachable;
     portaluse := portaluse w |}.

(** A list that opens with a name the object does not have is the
    failure of the whole call, whatever follows. *)
Lemma setColumns_outcomes_witness :
  __setColumns (Some [SelName "zz"; SelIdx 0]) (fresh None) []
  = (Raise UnboundLocalError, fresh None, []).
Proof.
  apply (setColumns_outcomes (fresh None) wire [SelName "zz"; SelIdx 0] []);
    by_computation.
Defined.

(** The list c, 0, 0 selects the positions 2 and 0 of the three
    columns. *)
Lemma accepted_selection_is_in_range_witness :
  exists f sel,
    _info2 (fresh None) = Some f
    /\ set_colSelected (Some [2; 0]) (fresh None)
       = set_colSelected (Some sel) (fresh None)
    /\ @nil Event = []
    /\ sel <> []
    /\ NoDup sel
    /\ Forall (fun i => i < List.length f) sel.
Proof.
  apply (accepted_selection_is_in_range
           [SelName "c"; SelIdx 0; SelIdx 0] (fresh None)
           (set_colSelected (Some [2; 0]) (fresh None)) [] []).
  by_computation.
Defined.


(** The columns declared as b, a, c are kept as a, b, c. *)
Lemma resolved_frame_is_sorted_witness :
  exists d raw0 rest f,
    _dobj bound = Some d
    /\ sparql_info (world None false fine) d = raw0 :: rest
    /\ _info2 (fresh None) = Some f
    /\ Sorted (fun a b => (a <=? b)%string = true) (frame_names f)
    /\ (raw_columnNames raw0 = None ->
        Permutation (frame_rows f)
          (sparql_schema (world None false fine) (raw_objSpec raw0))).
Proof.
  apply (resolved_frame_is_sorted literal_match types
           (world None false fine) bound (fresh None) []
           [EvSparql (cpbGetInfo oid); EvSparql (cpbGetSchemaDetail "spec1");
            EvSparql (get_icos_citation oid)]);
    by_computation.
Defined.


(** An object whose specification declares no column. *)
Lemma empty_schema_raises_witness :
  exists o' tr',
    __getPayload literal_match types (world_with [] None false fine)
      bound []
    = (Raise IndexError, o', tr')
    /\ _dobjValid o' = _dobjValid bound
    /\ _data o' = _data bound.
Proof.
  apply (empty_schema_raises literal_match types
           (world_with [] None false fine) bound [] oid
           (mkInfo1Raw oid "spec1" 1 None) []);
    by_computation.
Defined.

(** Two literal columns before the two patterns of the sample; the
    realized names are a and ab, and ab is matched by both patterns. *)
Lemma patterns_after_literals_resolve_witness :
  exists o' f',
    resolve_columnNames literal_match
      (mkInfo1Raw oid "spec1" 1 (Some "[a,ab]")) []
      (set_info2
         (Some (reindex ([column "a" "int32" None; column "z" "int32" None]
                         ++ patterns))) bound) []
    = (Ok tt, o', [])
    /\ _info2 o' = Some f'
    /\ frame_rows f'
       = filter (fun r => PyStr.mem (colName r) (clean_columnNames "[a,ab]"))
           [column "a" "int32" None; column "z" "int32" None]
         ++ flat_map (matches literal_match (clean_columnNames "[a,ab]"))
              patterns.
Proof.
  apply (patterns_after_literals_resolve literal_match
           (mkInfo1Raw oid "spec1" 1 (Some "[a,ab]")) [] "[a,ab]"
           [column "a" "int32" None; column "z" "int32" None] patterns
           (set_info2
              (Some (reindex ([column "a" "int32" None;
                               column "z" "int32" None] ++ patterns)))
              bound) []);
    try by_computation.
  - repeat constructor.
  - repeat constructor.
Defined.

(** The payload decodes to three columns of one value each. *)
Lemma decoded_columns_hold_nRows_witness :
  Forall (fun c => List.length (snd c) = 1) table_abc.
Proof.
  apply (decoded_columns_hold_nRows payload (fresh None)
           (set_data table_abc (fresh None)) [] [] table_abc
           (mkInfo1 oid "spec1" 1 CNull) [0; 1; 2] [INT32; INT32; INT32]
           Big [(INT32, 1); (INT32, 1); (INT32, 1)]);
    by_computation.
Defined.

(** The columns of the decoded payload are the selected names. *)
Lemma columns_follow_the_selection_witness :
  columns table_abc = ["a"; "b"; "c"].
Proof.
  apply (columns_follow_the_selection payload (fresh None)
           (set_data table_abc (fresh None)) [] [] table_abc
           (mkInfo1 oid "spec1" 1 CNull) [0; 1; 2] wire ["a"; "b"; "c"]);
    try by_computation.
  repeat constructor; cbn; intuition discriminate.
Defined.

(** A first fetch from the portal holds one request for the payload. *)
Lemma one_payload_access_per_fetch_witness :
  let run := __getColumns literal_match types (world None false fine)
               (fresh None) [] in
  (filter is_payload_access (snd run) = filter is_payload_access []
   /\ exists e, result_of run = Raise e)
  \/ (exists path content,
         local_store (world None false fine) path = Some content
         /\ filter is_payload_access (snd run)
            = filter is_payload_access [] ++ [EvRead path])
  \/ (exists path,
         local_store (world None false fine) path = None
         /\ filter is_payload_access (snd run)
            = filter is_payload_access []
              ++ [EvTabular (_json (fresh None))]).
Proof.
  cbv zeta.
  apply (one_payload_access_per_fetch literal_match types
           (world None false fine) (fresh None)
           (state_of (__getColumns literal_match types
                        (world None false fine) (fresh None) [])) []).
  by_computation.
Defined.

(** A first call for one column stores the table it returns. *)
Lemma getColumns_cache_is_all_or_nothing_witness :
  let run := getColumns literal_match types (world None false fine)
               (Some [SelIdx 0]) (fresh None) [] in
  result_of run = Ok (RTable [("a", [SInt 1])])
  /\ _datapersistent (state_of run) = _datapersistent (fresh None)
  /\ _data (state_of run) = [("a", [SInt 1])].
Proof.
  cbv zeta. split; [by_computation |].
  pose proof (getColumns_cache_is_all_or_nothing literal_match types
                (world None false fine) (Some [SelIdx 0]) (fresh None)
                (state_of (getColumns literal_match types
                             (world None false fine) (Some [SelIdx 0])
                             (fresh None) []))
                []
                (snd (getColumns literal_match types
                        (world None false fine) (Some [SelIdx 0])
                        (fresh None) []))
                (Ok (RTable [("a", [SInt 1])]))) as H.
  assert (Hrun : getColumns literal_match types (world None false fine)
                   (Some [SelIdx 0]) (fresh None) []
                 = (Ok (RTable [("a", [SInt 1])]),
                    state_of (getColumns literal_match types
                                (world None false fine) (Some [SelIdx 0])
                                (fresh None) []),
                    snd (getColumns literal_match types
                           (world None false fine) (Some [SelIdx 0])
                           (fresh None) [])))
    by by_computation.
  specialize (H Hrun). clear Hrun.
  vm_compute in H |- *. exact H.
Defined.

(** With the portal out of reach the fetch raises after the station
    query and the one request. *)
Lemma failed_portal_request_raises_witness :
  __getColumns literal_match types offline (fresh None) []
  = (Raise ConnectionError,
     set_islocal (Some false)
       (set_info3 (Some (sparql_station offline oid)) (fresh None)),
     [EvSparql (dobjStation oid); EvTabular (_json (fresh None))]).
Proof.
  apply (failed_portal_request_raises literal_match types offline
           (fresh None) [] oid wire (column "a" "int32" None));
    by_computation.
Defined.

(** [Dobj('')] followed by two calls. *)
Lemma unbound_object_answers_False_witness :
  init literal_match types (world None false fine) (IdStr EmptyString)
  = (Ok tt, init_attrs, [])
  /\ getColumns_all literal_match types (world None false fine)
       [None; Some [SelIdx 0]] init_attrs []
     = ([Ok RFalse; Ok RFalse], init_attrs, []).
Proof.
  apply (unbound_object_answers_False literal_match types
           (world None false fine) (IdStr EmptyString)
           [None; Some [SelIdx 0]]).
  reflexivity.
Defined.

(** The cell of the names a and ab. *)
Lemma clean_columnNames_reads_back_witness :
  clean_columnNames (bracketed ["a"; "ab"]) = ["a"; "ab"].
Proof.
  apply (clean_columnNames_reads_back ["a"; "ab"]); [discriminate |].
  repeat constructor.
Defined.

(** The sample endpoint with a row for the station of the object. *)
Definition hyltemossa : Info3Row :=
  mkInfo3 "Hyltemossa" "56.0976" "13.4189" "115.0".

Definition with_station : Env :=
  let w := world None false fine in
  {| sparql_info := sparql_info w;
     sparql_schema := sparql_schema w;
     sparql_station := fun _ => [hyltemossa];
     sparql_citation := sparql_citation w;
     local_store := local_store w;
     tabular := tabular w;
     portaluse := portaluse w |}.

(** The station of an object made without an identifier. *)
Lemma station_attribute_without_a_fetch_witness :
  station literal_match types (world None false fine) init_attrs []
  = (Raise AttributeError, init_attrs, []).
Proof.
  apply (station_attribute_without_a_fetch literal_match types
           (world None false fine) stationName init_attrs []);
    [right |]; reflexivity.
Defined.

(** The station of the sample object, read before any table is held. *)
Lemma station_attribute_after_a_fetch_witness :
  exists d row rest,
    _dobj (fresh None) = Some d
    /\ sparql_station with_station d = row :: rest
    /\ "Hyltemossa" = stationName row
    /\ _info3 (state_of (station literal_match types with_station
                           (fresh None) []))
       = Some (sparql_station with_station d).
Proof.
  apply (station_attribute_after_a_fetch literal_match types with_station
           stationName (fresh None)
           (state_of (station literal_match types with_station
                        (fresh None) []))
           []
           (snd (station literal_match types with_station (fresh None) []))
           "Hyltemossa");
    by_computation.
Defined.

(** * icoscp.country : the country lookup *)

(** What the model leaves out or fixes: what [print] writes; a JSON body
    that cannot be parsed (every body is read as an object, of which the
    code looks at the keys [error] and [address] and at
    [address.country_code], taken to be a string); and the letters
    outside ASCII, which [lower] leaves as they are.  The file
    countries.json is a list of entries, and an entry carries the texts
    [str] makes of it and of its parts. *)

Module Country.

(** ** Strings *)

(** [str.lower], on the ASCII letters. *)
Definition lower_ascii (c : ascii) : ascii :=
  let n := nat_of_ascii c in
  if (65 <=? n) && (n <=? 90) then ascii_of_nat (n + 32) else c.

Fixpoint lower (s : string) : string :=
  match s with
  | EmptyString => EmptyString
  | String c r => String (lower_ascii c) (lower r)
  end.

(** [a in b] for two strings: [a] occurs in [b] as a substring. *)
Fixpoint contains (a b : string) : bool :=
  String.prefix a b
  || match b with
     | EmptyString => false
     | String _ r => contains a r
     end.

(** ** The data *)

(** An entry of countries.json, with what the searches read of it: the
    two codes, and the texts [str(ctn['name'])],
    [str(ctn['altSpellings'])] and [str(ctn)]. *)
Record Entry : Type := mkEntry
  { cca2 : string;
    cca3 : string;
    name_text : string;
    altSpellings_text : string;
    entry_text : string }.

(** What a search returns: [False], one entry, or a list of them. *)
Inductive Answer : Type :=
| AFalse
| ADict (c : Entry)
| AList (l : list Entry).

(** The end shared by the three searches: nothing found, one entry, or
    several. *)
Definition answer_of (country : list Entry) : Answer :=
  match country with
  | [] => AFalse
  | [c] => ADict c
  | _ => AList country
  end.

(** The loop shared by the three searches. *)
Fixpoint collect (test : Entry -> bool) (countries country : list Entry)
  : list Entry :=
  match countries with
  | [] => country
  | ctn :: rest =>
      collect test rest (if test ctn then country ++ [ctn] else country)
  end.

Definition code_test (code : string) (ctn : Entry) : bool :=
  String.eqb (lower code) (lower (cca2 ctn))
  || String.eqb (lower code) (lower (cca3 ctn)).

Definition name_test (name : string) (ctn : Entry) : bool :=
  contains (lower name) (lower (name_text ctn))
  || contains (lower name) (lower (altSpellings_text ctn)).

Definition search_test (search : string) (ctn : Entry) : bool :=
  contains (lower search) (lower (entry_text ctn)).

Definition _c_code (code : string) (countries : list Entry) : Answer :=
  answer_of (collect (code_test code) countries []).

Definition _c_name (name : string) (countries : list Entry) : Answer :=
  answer_of (collect (name_test name) countries []).

Definition _c_search (search : string) (countries : list Entry) : Answer :=
  answer_of (collect (search_test search) countries []).

(** ** Reverse geocoding *)

(** The three addresses [_c_reverse] asks, in the order of the code: the
    ICOS service at zoom 3, the ICOS service without zoom, and the
    OpenStreetMap service at zoom 3. *)
Inductive Service : Type := IcosZoom3 | IcosNoZoom | OpenStreetMap.

(** The keys the code reads in a JSON answer: whether [error] is there,
    and [address] with its [country_code], each of which may be missing. *)
Record GeoJson : Type := mkGeoJson
  { has_error : bool;
    address : option (option string) }.

(** [requests.get] raises a RequestException, or returns a status and a
    JSON body. *)
Inductive Reply : Type :=
| Fails
| Answers (status : nat) (body : GeoJson).

(** The services, for a latitude and a longitude given as the text [str]
    makes of them. *)
Definition Net : Type := Service -> string -> string -> Reply.

(** A run of [_c_reverse] ends with a country code, with [False], or with
    the KeyError of [json['address']['country_code']]. *)
Inductive Found : Type :=
| Code (c : string)
| NotFound
| RaisesKeyError.

(** [json_content['address']['country_code']] *)
Definition country_code (j : GeoJson) : Found :=
  match address j with
  | Some (Some c) => Code c
  | _ => RaisesKeyError
  end.

Definition has_address (j : GeoJson) : bool :=
  match address j with
  | Some _ => true
  | None => false
  end.

(** The part from the comment on the external service to the end. *)
Definition ask_external (net : Net) (lat lon : string)
  : Found * list Service :=
  match net OpenStreetMap lat lon with
  | Answers status j =>
      if (status =? 200) && has_address j
      then (country_code j, [OpenStreetMap])
      else (NotFound, [OpenStreetMap])
  | Fails => (NotFound, [OpenStreetMap])
  end.

(** The block under [if not zoom_3]. *)
Definition ask_icos_again (net : Net) (lat lon : string)
  : Found * list Service :=
  match net IcosNoZoom lat lon with
  | Answers status j =>
      if (status =? 200) && negb (has_error j) && has_address j
      then (country_code j, [IcosNoZoom])
      else let '(r, tr) := ask_external net lat lon in (r, IcosNoZoom :: tr)
  | Fails =>
      let '(r, tr) := ask_external net lat lon in (r, IcosNoZoom :: tr)
  end.

(** The result and the services asked, in order. *)
Definition _c_reverse (net : Net) (lat lon : string)
  : Found * list Service :=
  match net IcosZoom3 lat lon with
  | Answers status j =>
      if status =? 200 then
        if negb (has_error j) && has_address j
        then (country_code j, [IcosZoom3])
        else let '(r, tr) := ask_icos_again net lat lon in
             (r, IcosZoom3 :: tr)
      else let '(r, tr) := ask_external net lat lon in (r, IcosZoom3 :: tr)
  | Fails =>
      let '(r, tr) := ask_external net lat lon in (r, IcosZoom3 :: tr)
  end.

(** ** [get] *)

(** The keywords [get] looks at; [latlon] is a list of coordinates, each
    the text [str] makes of it. *)
Record Kwargs : Type := mkKwargs
  { kw_code : option string;
    kw_name : option string;
    kw_search : option string;
    kw_latlon : option (list string);
    kw_other : bool (* some keyword that [get] does not look at *) }.

Inductive GetResult : Type :=
| Returns (a : Answer)
| RaisesKey
| RaisesUnboundLocal.

Definition get (countries : list Entry) (net : Net) (kwargs : Kwargs)
  : GetResult * list Service :=
  match kw_code kwargs, kw_name kwargs, kw_search kwargs,
        kw_latlon kwargs with
  | None, None, None, None =>
      if kw_other kwargs then (Returns AFalse, [])
      else (Returns (AList countries), [])
  | Some code, _, _, _ => (Returns (_c_code code countries), [])
  | None, Some name, _, _ => (Returns (_c_name name countries), [])
  | None, None, Some search, _ =>
      (Returns (_c_search search countries), [])
  | None, None, None, Some latlon =>
      match latlon with
      | [lat; lon] =>
          match _c_reverse net lat lon with
          | (Code c, tr) =>
              if String.eqb c EmptyString then (Returns AFalse, tr)
              else (Returns (_c_code c countries), tr)
          | (NotFound, tr) => (Returns AFalse, tr)
          | (RaisesKeyError, tr) => (RaisesKey, tr)
          end
      | _ => (RaisesUnboundLocal, [])
      end
  end.

(** ** Properties *)

Lemma collect_filter (test : Entry -> bool) (countries acc : list Entry) :
  collect test countries acc = acc ++ filter test countries.
Proof.
  revert acc. induction countries as [| c l IH]; intros acc; cbn.
  - rewrite app_nil_r. reflexivity.
  - rewrite IH. destruct (test c); [| reflexivity].
    rewrite <- app_assoc. reflexivity.
Qed.

(** What [answer_of] says about the list it was given. *)
Definition describes (a : Answer) (found : list Entry) : Prop :=
  match a with
  | AFalse => found = []
  | ADict c => found = [c]
  | AList l => found = l /\ 2 <= List.length l
  end.

Lemma answer_of_describes (l : list Entry) : describes (answer_of l) l.
Proof.
  destruct l as [| a [| b l]]; cbn; auto. split; [reflexivity | lia].
Qed.

Lemma lower_idempotent (s : string) : lower (lower s) = lower s.
Proof.
  induction s as [| c s IH]; cbn; [reflexivity |]. rewrite IH. f_equal.
  unfold lower_ascii.
  destruct ((65 <=? nat_of_ascii c) && (nat_of_ascii c <=? 90)) eqn:E;
    [| rewrite E; reflexivity].
  apply andb_true_iff in E as [E1 E2].
  apply Nat.leb_le in E1, E2.
  rewrite nat_ascii_embedding by lia.
  replace ((65 <=? nat_of_ascii c + 32) && (nat_of_ascii c + 32 <=? 90))
    with false; [reflexivity |].
  symmetry. apply andb_false_iff. right. apply Nat.leb_gt. lia.
Qed.

(** X22.  Each search returns [False] when no entry passes its test, the
    entry itself when exactly one does, and otherwise the list, of at
    least two; what is returned are exactly the entries that pass, in the
    order of the file.  For a code the test is equality with [cca2] or
    [cca3] once both sides are lower-cased. *)
Theorem searches_return_the_matches (countries : list Entry) :
  (forall code,
      describes (_c_code code countries)
        (filter (fun ctn => String.eqb (lower code) (lower (cca2 ctn))
                            || String.eqb (lower code) (lower (cca3 ctn)))
           countries))
  /\ (forall name,
         describes (_c_name name countries)
           (filter (name_test name) countries))
  /\ (forall search,
         describes (_c_search search countries)
           (filter (search_test search) countries)).
Proof.
  unfold _c_code, _c_name, _c_search.
  repeat split; intros x; rewrite collect_filter; apply answer_of_describes.
Qed.

(** X23.  A code is looked up without regard to the case of its ASCII
    letters. *)
Theorem code_search_ignores_case (code : string) (countries : list Entry) :
  _c_code (lower code) countries = _c_code code countries.
Proof.
  unfold _c_code. rewrite !collect_filter. f_equal. f_equal.
  apply filter_ext. intros ctn. unfold code_test.
  rewrite lower_idempotent. reflexivity.
Qed.

Lemma country_code_found (j : GeoJson) : country_code j <> NotFound.
Proof. unfold country_code. destruct (address j) as [[c |] |]; discriminate. Qed.

Lemma ask_external_asks (net : Net) (lat lon : string) :
  snd (ask_external net lat lon) = [OpenStreetMap].
Proof.
  unfold ask_external.
  destruct (net OpenStreetMap lat lon) as [| s j]; [reflexivity |].
  destruct ((s =? 200) && has_address j); reflexivity.
Qed.

Lemma ask_icos_again_asks (net : Net) (lat lon : string) :
  let r := fst (ask_icos_again net lat lon) in
  let tr := snd (ask_icos_again net lat lon) in
  (tr = [IcosNoZoom] /\ r <> NotFound)
  \/ tr = [IcosNoZoom; OpenStreetMap].
Proof.
  cbv zeta. unfold ask_icos_again.
  pose proof (ask_external_asks net lat lon) as He.
  destruct (ask_external net lat lon) as [r tr]. cbn [snd] in He. subst tr.
  destruct (net IcosNoZoom lat lon) as [| s j]; [right; reflexivity |].
  destruct ((s =? 200) && negb (has_error j) && has_address j);
    [left | right; reflexivity].
  split; [reflexivity | apply country_code_found].
Qed.

(** X24.  [_c_reverse] asks at most three services, each at most once
    and in a fixed order, beginning with the ICOS service at zoom 3.  The
    ICOS service is asked again without zoom exactly when its first
    answer had status 200 but an error or no address; a first answer of
    status 200 with an address and no error ends the search at once; and
    [False] is returned only after OpenStreetMap was asked. *)
Theorem reverse_geocoding_chain (net : Net) (lat lon : string) :
  let r := fst (_c_reverse net lat lon) in
  let tr := snd (_c_reverse net lat lon) in
  (tr = [IcosZoom3] \/ tr = [IcosZoom3; IcosNoZoom]
   \/ tr = [IcosZoom3; OpenStreetMap]
   \/ tr = [IcosZoom3; IcosNoZoom; OpenStreetMap])
  /\ (In IcosNoZoom tr <->
      exists j, net IcosZoom3 lat lon = Answers 200 j
                /\ (has_error j = true \/ address j = None))
  /\ (tr = [IcosZoom3] <->
      exists j, net IcosZoom3 lat lon = Answers 200 j
                /\ has_error j = false /\ address j <> None)
  /\ (r = NotFound -> In OpenStreetMap tr).
Proof.
  cbv zeta. unfold _c_reverse.
  pose proof (ask_external_asks net lat lon) as He.
  pose proof (ask_icos_again_asks net lat lon) as Hi. cbv zeta in Hi.
  destruct (ask_external net lat lon) as [re tre]. cbn [snd] in He.
  subst tre.
  destruct (ask_icos_again net lat lon) as [ri tri]. cbn [fst snd] in Hi.
  assert (Hno : forall r : Found,
             ~ In IcosNoZoom (snd (r, [IcosZoom3; OpenStreetMap]))).
  { intros r [H | [H | []]]; discriminate H. }
  destruct (net IcosZoom3 lat lon) as [| s j] eqn:Hnet.
  - cbn [fst snd]. split; [tauto |]. split; [| split].
    + split; [intros H; destruct (Hno re H) |].
      intros (j & Hj & _); discriminate Hj.
    + split; [discriminate |]. intros (j & Hj & _); discriminate Hj.
    + intros _. cbn. tauto.
  - destruct (Nat.eqb_spec s 200) as [-> | Hs].
    + assert (Hagain :
                has_error j = true \/ address j = None ->
                let tr := IcosZoom3 :: tri in
                (tr = [IcosZoom3] \/ tr = [IcosZoom3; IcosNoZoom]
                 \/ tr = [IcosZoom3; OpenStreetMap]
                 \/ tr = [IcosZoom3; IcosNoZoom; OpenStreetMap])
                /\ (In IcosNoZoom tr <->
                    exists j0, Answers 200 j = Answers 200 j0
                               /\ (has_error j0 = true \/ address j0 = None))
                /\ (tr = [IcosZoom3] <->
                    exists j0, Answers 200 j = Answers 200 j0
                               /\ has_error j0 = false
                               /\ address j0 <> None)
                /\ (ri = NotFound -> In OpenStreetMap tr)).
      { intros Hc. cbv zeta. split; [| split; [| split]].
        - destruct Hi as [[-> _] | ->]; tauto.
        - split.
          + intros _. exists j. split; [reflexivity | exact Hc].
          + intros _. destruct Hi as [[-> _] | ->]; cbn; tauto.
        - split.
          + intros H. destruct Hi as [[-> _] | ->]; discriminate H.
          + intros (j0 & Hj & Hc1 & Hc2). injection Hj as <-.
            destruct Hc; congruence.
        - intros Hr. destruct Hi as [[_ Hn] | ->]; [congruence |].
          cbn. tauto. }
      unfold has_address.
      destruct (has_error j) eqn:Herr; cbn [negb andb fst snd];
        [apply Hagain; left; reflexivity |].
      destruct (address j) as [a |] eqn:Haddr; cbn [fst snd];
        [| apply Hagain; right; reflexivity].
      split; [tauto |]. split; [| split].
      * split.
        { intros [H | []]; discriminate H. }
        intros (j0 & Hj & Hc); injection Hj as <-.
        destruct Hc; congruence.
      * split; [| reflexivity].
        intros _. exists j. split; [reflexivity |]. split; congruence.
      * intros H. destruct (country_code_found _ H).
    + cbn [fst snd]. split; [tauto |]. split; [| split].
      * split; [intros H; destruct (Hno re H) |].
        intros (j' & Hj & _); injection Hj as E; congruence.
      * split; [discriminate |].
        intros (j' & Hj & _); injection Hj as E; congruence.
      * intros _. cbn. tauto.
Qed.

Lemma contains_empty (b : string) : contains EmptyString b = true.
Proof. destruct b; reflexivity. Qed.

Lemma filter_true {A : Type} (f : A -> bool) (l : list A) :
  (forall x, f x = true) -> filter f l = l.
Proof.
  intros H. induction l as [| x l IH]; [reflexivity |].
  cbn. rewrite H, IH. reflexivity.
Qed.

(** X25.  The empty text is found in every text, so a name search or a
    free search for it passes every entry: the answer is [False] on an
    empty file, the entry itself when the file has one, and otherwise the
    whole file. *)
Theorem empty_text_matches_every_entry (countries : list Entry) :
  _c_name EmptyString countries = answer_of countries
  /\ _c_search EmptyString countries = answer_of countries.
Proof.
  unfold _c_name, _c_search. rewrite !collect_filter.
  split; f_equal; apply filter_true; intros ctn;
    unfold name_test, search_test; cbn [lower];
    rewrite !contains_empty; reflexivity.
Qed.

(** X26.  [get] asks a geocoding service only when [latlon] is the
    first keyword it finds, that is when none of [code], [name] and
    [search] is given, and [latlon] is a list of two coordinates. *)
Theorem get_asks_a_service_only_for_latlon
  (countries : list Entry) (net : Net) (kwargs : Kwargs) :
  snd (get countries net kwargs) <> [] ->
  kw_code kwargs = None /\ kw_name kwargs = None
  /\ kw_search kwargs = None
  /\ exists lat lon, kw_latlon kwargs = Some [lat; lon].
Proof.
  unfold get.
  destruct (kw_code kwargs) as [code |]; [intros H; destruct (H eq_refl) |].
  destruct (kw_name kwargs) as [name |]; [intros H; destruct (H eq_refl) |].
  destruct (kw_search kwargs) as [search |];
    [intros H; destruct (H eq_refl) |].
  destruct (kw_latlon kwargs) as [[| lat [| lon [| x l]]] |];
    try (intros H; destruct (H eq_refl)).
  - intros _. repeat split. exists lat, lon. reflexivity.
  - destruct (kw_other kwargs); intros H; destruct (H eq_refl).
Qed.

(** X27.  When [latlon] is the first keyword [get] finds and its list
    has not exactly two elements, [country] is never bound: [get] raises
    UnboundLocalError, and no service is asked. *)
Theorem get_latlon_of_wrong_length_raises
  (countries : list Entry) (net : Net) (kwargs : Kwargs)
  (latlon : list string) :
  kw_code kwargs = None -> kw_name kwargs = None ->
  kw_search kwargs = None -> kw_latlon kwargs = Some latlon ->
  List.length latlon <> 2 ->
  get countries net kwargs = (RaisesUnboundLocal, []).
Proof.
  intros Hc Hn Hs Hl Hlen. unfold get. rewrite Hc, Hn, Hs, Hl.
  destruct latlon as [| lat [| lon [| x l]]]; try reflexivity.
  destruct (Hlen eq_refl).
Qed.

(** X28.  A reverse geocoding that ends with a code, the code not
    empty, makes [get] return what the code search returns for it; one
    that ends with [False] or with the empty code makes [get] return
    [False]. *)
Theorem get_latlon_looks_the_code_up
  (countries : list Entry) (net : Net) (kwargs : Kwargs)
  (lat lon : string) :
  kw_code kwargs = None -> kw_name kwargs = None ->
  kw_search kwargs = None -> kw_latlon kwargs = Some [lat; lon] ->
  match fst (_c_reverse net lat lon) with
  | Code c =>
      fst (get countries net kwargs)
      = Returns (if String.eqb c EmptyString then AFalse
                 else _c_code c countries)
  | NotFound => fst (get countries net kwargs) = Returns AFalse
  | RaisesKeyError => fst (get countries net kwargs) = RaisesKey
  end
  /\ snd (get countries net kwargs) = snd (_c_reverse net lat lon).
Proof.
  intros Hc Hn Hs Hl. unfold get. rewrite Hc, Hn, Hs, Hl.
  destruct (_c_reverse net lat lon) as [[c | |] tr]; cbn [fst snd];
    [destruct (String.eqb c EmptyString) |..]; split; reflexivity.
Qed.

(** ** A sample file and sample services *)

Definition sweden : Entry :=
  mkEntry "SE" "SWE" "{'common': 'Sweden'}" "['SE', 'Sverige']"
    "{'name': {'common': 'Sweden'}, 'cca2': 'SE', 'cca3': 'SWE'}".

Definition swaziland : Entry :=
  mkEntry "SZ" "SWZ" "{'common': 'Eswatini'}" "['SZ', 'Swaziland']"
    "{'name': {'common': 'Eswatini'}, 'cca2': 'SZ', 'cca3': 'SWZ'}".

Definition file : list Entry := [sweden; swaziland].

(** The ICOS service answers 200 with an error at zoom 3 and fails without
    zoom; OpenStreetMap answers with the code [se]. *)
Definition services : Net :=
  fun s _ _ =>
    match s with
    | IcosZoom3 => Answers 200 (mkGeoJson true None)
    | IcosNoZoom => Fails
    | OpenStreetMap => Answers 200 (mkGeoJson false (Some (Some "se")))
    end.

Definition only_latlon (latlon : list string) : Kwargs :=
  mkKwargs None None None (Some latlon) false.

Lemma get_asks_a_service_only_for_latlon_witness :
  snd (get file services (only_latlon ["59.3"; "18.1"]))
  = [IcosZoom3; IcosNoZoom; OpenStreetMap]
  /\ (kw_code (only_latlon ["59.3"; "18.1"]) = None
      /\ kw_name (only_latlon ["59.3"; "18.1"]) = None
      /\ kw_search (only_latlon ["59.3"; "18.1"]) = None
      /\ exists lat lon,
          kw_latlon (only_latlon ["59.3"; "18.1"]) = Some [lat; lon]).
Proof.
  split; [reflexivity |].
  apply (get_asks_a_service_only_for_latlon file services
           (only_latlon ["59.3"; "18.1"])).
  vm_compute. discriminate.
Defined.

Lemma get_latlon_of_wrong_length_raises_witness :
  get file services (only_latlon ["59.3"])
  = (RaisesUnboundLocal, []).
Proof.
  apply (get_latlon_of_wrong_length_raises file services
           (only_latlon ["59.3"]) ["59.3"]);
    try reflexivity.
  cbn. lia.
Defined.

Lemma get_latlon_looks_the_code_up_witness :
  _c_reverse services "59.3" "18.1"
  = (Code "se", [IcosZoom3; IcosNoZoom; OpenStreetMap])
  /\ fst (get file services (only_latlon ["59.3"; "18.1"]))
     = Returns (ADict sweden).
Proof.
  split; [reflexivity |].
  exact (proj1 (get_latlon_looks_the_code_up file services
                  (only_latlon ["59.3"; "18.1"]) "59.3" "18.1"
                  eq_refl eq_refl eq_refl eq_refl)).
Defined.

End Country.
